(** * A shallow embedding of [script.js]

    The script drives two pages of a quiz application: the quiz page
    ([initQuizPage]) and the question-bank administration page
    ([initAdminPage]).  The embedding keeps the source's names.

    - JavaScript strings are modelled as [string], one [ascii] per code
      unit, so the development speaks about text whose code units are below
      256.  Where the browser would produce a code unit outside that range
      (the replacement character U+FFFD it puts for a NUL in an attribute
      value) the reading has no value in the model ([None]), and a radio
      whose value has none cannot be chosen in the model.
    - Numbers that the script only ever uses as integers ([timerSeconds],
      [currentIndex], [total], the components of a duration) are modelled as
      [Z].  The script computes with double-precision numbers, which are
      exact for integers up to 2^53 in absolute value; [NaN] is left out, and
      the statements about the value or the text of a number carry that
      bound as a hypothesis.
    - The object used as a dictionary ([answers], [payload.answers]) is a
      [gmap string string] keyed by the property name; identifiers that name
      a property of [Object.prototype] are left out.
    - The quiz page is a state, [Quiz.Page]: the variables of
      [initQuizPage]'s closure, the elements it writes to, and what it has
      done to the outside world (requests, alerts, navigation).  Handlers are
      functions on that state and [Quiz.step] delivers one event.  The width
      of the progress bar, a rounded floating-point percentage, is not part of
      the state, and the question text is kept as it is given (it is written
      into the page unescaped; it is taken to hold no markup of its own).
    - A question is an object with an identifier, a text and an array of
      option strings, as the interface describes it.  The value of
      [data.questions] is an array of such questions or any other truthy
      value, which is described by what the script reads of it
      ([Quiz.Other]).
    - What the page ships before the script runs (the initial state of the
      buttons and of the timer element) is not part of the script: it is the
      parameter [markup] of [Quiz.loaded]. *)

From stdpp Require Import base numbers list strings gmap sorting.
From Stdlib Require Import ZArith Lia Ascii String.

Local Open Scope string_scope.
Local Open Scope Z_scope.

(** ** The fragments of the JavaScript string library the script uses *)

Module JS.

(** The double quote character. *)
Definition dquote : ascii := Ascii false true false false false true false false.

(** A string is truthy iff it is not empty. *)
Definition truthy (s : string) : bool :=
  match s with
  | EmptyString => false
  | String _ _ => true
  end.

(** [String(n)] for an integer [n]: decimal digits, a minus sign for
    negative numbers.  The loop builds the digits from the least
    significant one; its fuel is the binary logarithm of the number, which
    bounds the number of decimal digits after the first. *)
Definition digitChar (d : Z) : ascii := ascii_of_nat (48 + Z.to_nat d).

Fixpoint digitsGo (fuel : nat) (n : Z) (acc : string) : string :=
  let acc' := String (digitChar (n mod 10)) acc in
  match fuel with
  | O => acc'
  | S f => if n / 10 =? 0 then acc' else digitsGo f (n / 10) acc'
  end.

Definition digits (n : Z) : string := digitsGo (Z.to_nat (Z.log2 n)) n "".

Definition toString (n : Z) : string :=
  if n <? 0 then String "-" (digits (- n)) else digits n.

(** [s.padStart(target, pad)]: the filler is [pad] repeated and cut to
    the missing length; an empty [pad] or a long enough [s] gives [s]. *)
Fixpoint fillGo (n : nat) (pad rest : string) : string :=
  match n with
  | O => ""
  | S k =>
      match rest with
      | String c r => String c (fillGo k pad r)
      | EmptyString =>
          match pad with
          | String c r => String c (fillGo k pad r)
          | EmptyString => ""
          end
      end
  end.

Definition padStart (target : nat) (pad s : string) : string :=
  if (target <=? String.length s)%nat then s
  else fillGo (target - String.length s) pad pad +:+ s.

(** White space as [trim] and the regular expression class [\s] see it,
    among the code units below 256: tab, line feed, vertical tab, form feed,
    carriage return, space and the no-break space U+00A0. *)
Definition isSpace (c : ascii) : bool :=
  let n := nat_of_ascii c in
  ((9 <=? n)%nat && (n <=? 13)%nat) || (n =? 32)%nat || (n =? 160)%nat.

Definition isLineBreak (c : ascii) : bool :=
  let n := nat_of_ascii c in (n =? 10)%nat || (n =? 13)%nat.

Fixpoint trimStart (s : string) : string :=
  match s with
  | String c r => if isSpace c then trimStart r else s
  | EmptyString => ""
  end.

Fixpoint trimEnd (s : string) : string :=
  match s with
  | String c r =>
      match trimEnd r with
      | EmptyString => if isSpace c then "" else String c ""
      | r' => String c r'
      end
  | EmptyString => ""
  end.

Definition trim (s : string) : string := trimEnd (trimStart s).

(** [s.replaceAll(c, by)] for a one-character pattern. *)
Fixpoint replaceAll (c : ascii) (by_ : string) (s : string) : string :=
  match s with
  | String x r =>
      if Ascii.eqb x c then by_ +:+ replaceAll c by_ r
      else String x (replaceAll c by_ r)
  | EmptyString => ""
  end.

(** [parts.join(sep)]. *)
Fixpoint join (sep : string) (parts : list string) : string :=
  match parts with
  | [] => ""
  | [p] => p
  | p :: rest => p +:+ sep +:+ join sep rest
  end.

(** [xs.map((x, i) => f(x, i))]. *)
Fixpoint mapi_from {A B} (i : Z) (f : A -> Z -> B) (xs : list A) : list B :=
  match xs with
  | [] => []
  | x :: r => f x i :: mapi_from (i + 1) f r
  end.

Definition mapi {A B} (f : A -> Z -> B) (xs : list A) : list B :=
  mapi_from 0 f xs.

End JS.

(** ** Utilities of the script (lines 373-393) *)

Module Util.
Import JS.

(** [escapeHtml]: four [replaceAll] passes, in the order of the source. *)
Definition escapeHtml (str : string) : string :=
  replaceAll dquote "&quot;"
    (replaceAll ">" "&gt;"
      (replaceAll "<" "&lt;"
        (replaceAll "&" "&amp;" str))).

Definition escapeAttr (str : string) : string :=
  replaceAll "'" "&#39;" (escapeHtml str).

Definition escapeTextarea (str : string) : string :=
  replaceAll ">" "&gt;" (replaceAll "<" "&lt;" str).

(** [formatDuration]: [Math.floor] of a quotient is [Z.div], the
    remainder operator [%] takes the sign of the dividend, which is
    [Z.rem]. *)
Definition formatDuration (totalSec : Z) : string :=
  let h := totalSec / 3600 in
  let m := Z.rem totalSec 3600 / 60 in
  let s := Z.rem totalSec 60 in
  if 0 <? h
  then toString h +:+ ":" +:+ padStart 2 "0" (toString m) +:+ ":"
         +:+ padStart 2 "0" (toString s)
  else toString m +:+ ":" +:+ padStart 2 "0" (toString s).

End Util.

(** ** The browser's reading of the markup the script writes

    The script builds markup with template strings and reads values back
    from the parsed document.  The readings follow the HTML parser on the
    fragment of markup the script writes: text, the character references
    [&amp;], [&lt;], [&gt;], [&quot;], [&#39;] and [&nbsp;], and the tag
    [<br>].  The parser first normalises line breaks (a carriage return,
    alone or followed by a line feed, becomes a line feed).  A NUL is dropped
    from the text of an element and replaced by U+FFFD in an attribute value
    and in a textarea.  A reading is [None] where the markup leaves that
    fragment (another tag, an ampersand that may open another character
    reference) or where its result is not a string of the model. *)

Module Dom.
Import JS.

Definition NUL : ascii := "000"%char.
Definition LF : ascii := "010"%char.
Definition CR : ascii := "013"%char.
Definition NBSP : ascii := "160"%char.

(** The input stream after the normalisation of line breaks; [afterCR]
    tells that the character before was a carriage return. *)
Fixpoint normalizeGo (afterCR : bool) (s : string) : string :=
  match s with
  | EmptyString => ""
  | String c r =>
      if Ascii.eqb c CR then String LF (normalizeGo true r)
      else if Ascii.eqb c LF && afterCR then normalizeGo false r
      else String c (normalizeGo false r)
  end.

Definition normalizeNewlines (s : string) : string := normalizeGo false s.

Fixpoint startsWith (p s : string) : bool :=
  match p with
  | EmptyString => true
  | String a p' =>
      match s with
      | String b s' => Ascii.eqb a b && startsWith p' s'
      | EmptyString => false
      end
  end.

Fixpoint beforeQuote (s : string) : string :=
  match s with
  | String c r => if Ascii.eqb c dquote then "" else String c (beforeQuote r)
  | EmptyString => ""
  end.

Definition isAlnum (c : ascii) : bool :=
  let n := nat_of_ascii c in
  ((48 <=? n)%nat && (n <=? 57)%nat) || ((65 <=? n)%nat && (n <=? 90)%nat)
  || ((97 <=? n)%nat && (n <=? 122)%nat).

(** The character reference that the text [r] after an ampersand spells,
    with the number of characters it takes. *)
Definition reference (r : string) : option (ascii * nat) :=
  if startsWith "amp;" r then Some ("&"%char, 4%nat)
  else if startsWith "lt;" r then Some ("<"%char, 3%nat)
  else if startsWith "gt;" r then Some (">"%char, 3%nat)
  else if startsWith "quot;" r then Some (dquote, 5%nat)
  else if startsWith "#39;" r then Some ("'"%char, 4%nat)
  else if startsWith "nbsp;" r then Some (NBSP, 5%nat)
  else None.

(** Whether an ampersand followed by [r] may open a character reference:
    the tokenizer goes on to look for one after a letter, a digit or [#], and
    takes the ampersand as text otherwise. *)
Definition opensReference (r : string) : bool :=
  match r with
  | String c _ => isAlnum c || Ascii.eqb c "#"
  | EmptyString => false
  end.

Definition prepend (c : ascii) (s : option string) : option string :=
  String c <$> s.

(** The characters of an attribute value. *)
Fixpoint decodeGo (skip : nat) (s : string) : option string :=
  match s with
  | EmptyString => Some ""
  | String c r =>
      match skip with
      | S k => decodeGo k r
      | O =>
          if Ascii.eqb c NUL then None
          else if Ascii.eqb c "&" then
            match reference r with
            | Some (ch, n) => prepend ch (decodeGo n r)
            | None => if opensReference r then None else prepend c (decodeGo 0 r)
            end
          else prepend c (decodeGo 0 r)
      end
  end.

(** The value of an attribute written as [name="raw"]. *)
Definition attrValue (raw : string) : option string :=
  decodeGo 0 (beforeQuote (normalizeNewlines raw)).

(** [s] without its line breaks: the value of a text input is its [value]
    attribute with line feeds and carriage returns stripped. *)
Fixpoint stripNewlines (s : string) : string :=
  match s with
  | EmptyString => ""
  | String c r =>
      if Ascii.eqb c LF || Ascii.eqb c CR then stripNewlines r
      else String c (stripNewlines r)
  end.

Definition inputValue (raw : string) : option string :=
  stripNewlines <$> attrValue raw.

(** The text of an element's content. *)
Fixpoint textGo (skip : nat) (s : string) : option string :=
  match s with
  | EmptyString => Some ""
  | String c r =>
      match skip with
      | S k => textGo k r
      | O =>
          if Ascii.eqb c NUL then textGo 0 r
          else if Ascii.eqb c "<" then
            if startsWith "br>" r then textGo 3 r else None
          else if Ascii.eqb c "&" then
            match reference r with
            | Some (ch, n) => prepend ch (textGo n r)
            | None => if opensReference r then None else prepend c (textGo 0 r)
            end
          else prepend c (textGo 0 r)
      end
  end.

(** [element.textContent] after [element.innerHTML = html]. *)
Definition textContent (html : string) : option string :=
  textGo 0 (normalizeNewlines html).

(** What the serialiser writes for a character of a text node. *)
Definition serializeChar (c : ascii) : string :=
  if Ascii.eqb c "&" then "&amp;"
  else if Ascii.eqb c "<" then "&lt;"
  else if Ascii.eqb c ">" then "&gt;"
  else if Ascii.eqb c NBSP then "&nbsp;"
  else String c "".

Definition emit (out : string) (s : option string) : option string :=
  String.append out <$> s.

(** Reading [element.innerHTML] back after [element.innerHTML = html]:
    the serialisation of the parsed content. *)
Fixpoint reserialize (skip : nat) (s : string) : option string :=
  match s with
  | EmptyString => Some ""
  | String c r =>
      match skip with
      | S k => reserialize k r
      | O =>
          if Ascii.eqb c NUL then reserialize 0 r
          else if Ascii.eqb c "<" then
            if startsWith "br>" r then emit "<br>" (reserialize 3 r) else None
          else if Ascii.eqb c "&" then
            match reference r with
            | Some (ch, n) => emit (serializeChar ch) (reserialize n r)
            | None =>
                if opensReference r then None
                else emit (serializeChar c) (reserialize 0 r)
            end
          else emit (serializeChar c) (reserialize 0 r)
      end
  end.

Definition innerHTML (html : string) : option string :=
  reserialize 0 (normalizeNewlines html).

(** The characters of the content of a textarea. *)
Fixpoint rcdataGo (skip : nat) (s : string) : option string :=
  match s with
  | EmptyString => Some ""
  | String c r =>
      match skip with
      | S k => rcdataGo k r
      | O =>
          if Ascii.eqb c NUL then None
          else if Ascii.eqb c "<" then None
          else if Ascii.eqb c "&" then
            match reference r with
            | Some (ch, n) => prepend ch (rcdataGo n r)
            | None => if opensReference r then None else prepend c (rcdataGo 0 r)
            end
          else prepend c (rcdataGo 0 r)
      end
  end.

(** A line feed right after the start tag of a textarea is ignored. *)
Definition dropLeadingLF (s : string) : string :=
  match s with
  | String c r => if Ascii.eqb c LF then r else s
  | EmptyString => ""
  end.

(** The value of [<textarea>raw</textarea>]. *)
Definition textareaValue (raw : string) : option string :=
  dropLeadingLF <$> rcdataGo 0 (normalizeNewlines raw).

End Dom.

(** ** The quiz page (lines 11-136) *)

Module Quiz.
Import JS Util Dom.

Record Question := mkQuestion {
  q_id : string;             (* the property name [q.id] converts to *)
  q_question : string;
  q_options : list string
}.

(** What [renderQuestion] finds at an index of a value that is not an
    array: a falsy value ([undefined], [null], [0], an empty string,
    [false]), a question, or a truthy value without an array of options (a
    character of a string, an object of another shape), on which
    [q.options.map] throws before anything is written. *)
Inductive Elem :=
| ENone
| EQuestion (q : Question)
| EBroken.

(** A truthy value that is not an array (a number, [true], a string, an
    object), by what the script reads of it.  No such value has a
    [forEach]. *)
Record Other := mkOther {
  o_lengthText : string;       (* [String(questions.length)] *)
  o_below : Z -> bool;         (* [i < questions.length - 1] *)
  o_last : Z -> bool;          (* [i === questions.length - 1] *)
  o_elem : Z -> Elem           (* [questions[i]] *)
}.

(** The value held by the variable [questions]: an array of questions, or
    a truthy value of another kind that the server sent instead. *)
Inductive Questions :=
| QArray (qs : list Question)
| QOther (v : Other).

(** One rendered [<input type="radio" name="option">] with its label. *)
Record Radio := mkRadio {
  r_label : string;
  r_value : option string;   (* the parsed [value] attribute *)
  r_checked : bool;          (* whether the markup carries [checked] *)
  r_text : option string     (* the text of the label's [<div>] *)
}.

(** The content of [#questionArea].  A rendered question remembers the
    question [q] its [change] listeners closed over. *)
Inductive Area :=
| AreaMarkup                                   (* as shipped by the page *)
| AreaMessage (text : string)                  (* [<div class="muted">] *)
| AreaQuestion (q : Question) (num : Z) (radios : list Radio).

Record Style := mkStyle {
  background : string;
  color : string;
  borderColor : string
}.

Record Dom := mkDom {
  questionArea : Area;
  progressText : string;
  timerText : string;          (* [timerEl.textContent] *)
  timerStyle : Style;          (* [timerEl.style] *)
  prevDisabled : bool;         (* [prevBtn.disabled] *)
  nextDisplay : string;        (* [nextBtn.style.display] *)
  submitDisplay : string       (* [submitBtn.style.display] *)
}.

(** The body of a [POST /submit]. *)
Record Payload := mkPayload {
  quiz_id : option string;     (* a property that is [undefined] is dropped *)
  p_answers : gmap string string
}.

(** What the page has done to the outside world, and what is pending. *)
Record Env := mkEnv {
  listeners : bool;            (* click listeners attached (lines 79-93) *)
  fetching : bool;             (* the question fetch has not settled *)
  interval : bool;             (* [iv] is set and not cleared *)
  requests : list Payload;     (* bodies sent to [/submit], newest first *)
  awaiting : nat;              (* submissions without a response yet *)
  alerts : list string;        (* [alert] messages, newest first *)
  location : option string     (* [window.location.href] once assigned *)
}.

Record Page := mkPage {
  quizId : option string;      (* [document.body.dataset.quizId] *)
  total : Z;
  timerSeconds : Z;
  questions : Questions;
  currentIndex : Z;
  answers : gmap string string;
  dom : Dom;
  env : Env
}.

(** *** Field updates *)

Definition setTimerSeconds (t : Z) (p : Page) : Page :=
  mkPage (quizId p) (total p) t (questions p) (currentIndex p) (answers p)
         (dom p) (env p).
Definition setQuestions (q : Questions) (p : Page) : Page :=
  mkPage (quizId p) (total p) (timerSeconds p) q (currentIndex p) (answers p)
         (dom p) (env p).
Definition setCurrentIndex (i : Z) (p : Page) : Page :=
  mkPage (quizId p) (total p) (timerSeconds p) (questions p) i (answers p)
         (dom p) (env p).
Definition setAnswers (a : gmap string string) (p : Page) : Page :=
  mkPage (quizId p) (total p) (timerSeconds p) (questions p) (currentIndex p) a
         (dom p) (env p).
Definition setDom (d : Dom) (p : Page) : Page :=
  mkPage (quizId p) (total p) (timerSeconds p) (questions p) (currentIndex p)
         (answers p) d (env p).
Definition setEnv (e : Env) (p : Page) : Page :=
  mkPage (quizId p) (total p) (timerSeconds p) (questions p) (currentIndex p)
         (answers p) (dom p) e.

Definition setQuestionArea (a : Area) (d : Dom) : Dom :=
  mkDom a (progressText d) (timerText d) (timerStyle d) (prevDisabled d)
        (nextDisplay d) (submitDisplay d).
Definition setTimerText (t : string) (d : Dom) : Dom :=
  mkDom (questionArea d) (progressText d) t (timerStyle d) (prevDisabled d)
        (nextDisplay d) (submitDisplay d).
Definition setTimerStyle (s : Style) (d : Dom) : Dom :=
  mkDom (questionArea d) (progressText d) (timerText d) s (prevDisabled d)
        (nextDisplay d) (submitDisplay d).

Definition setListeners (b : bool) (e : Env) : Env :=
  mkEnv b (fetching e) (interval e) (requests e) (awaiting e) (alerts e)
        (location e).
Definition setFetching (b : bool) (e : Env) : Env :=
  mkEnv (listeners e) b (interval e) (requests e) (awaiting e) (alerts e)
        (location e).
Definition setInterval (b : bool) (e : Env) : Env :=
  mkEnv (listeners e) (fetching e) b (requests e) (awaiting e) (alerts e)
        (location e).
Definition post (body : Payload) (e : Env) : Env :=
  mkEnv (listeners e) (fetching e) (interval e) (body :: requests e)
        (S (awaiting e)) (alerts e) (location e).
Definition settle (e : Env) : Env :=
  mkEnv (listeners e) (fetching e) (interval e) (requests e)
        (pred (awaiting e)) (alerts e) (location e).
Definition alert (msg : string) (e : Env) : Env :=
  mkEnv (listeners e) (fetching e) (interval e) (requests e) (awaiting e)
        (msg :: alerts e) (location e).
Definition navigate (url : string) (e : Env) : Env :=
  mkEnv (listeners e) (fetching e) (interval e) (requests e) (awaiting e)
        (alerts e) (Some url).

(** *** [renderQuestion] (lines 45-77) *)

Definition letters : list string := ["A"; "B"; "C"; "D"].

Definition letterAt (i : Z) : string :=
  if i <? 0 then "undefined" else default "undefined" (letters !! Z.to_nat i).

(** [questions[currentIndex]]. *)
Definition questionAt (qs : list Question) (i : Z) : option Question :=
  if i <? 0 then None else qs !! Z.to_nat i.

(** [answers[q.id] || null]. *)
Definition selectedFor (a : gmap string string) (q : Question) : option string :=
  match a !! q_id q with
  | Some v => if truthy v then Some v else None
  | None => None
  end.

(** [selected === opt]. *)
Definition strictEq (selected : option string) (opt : string) : bool :=
  match selected with
  | Some v => String.eqb v opt
  | None => false
  end.

Definition renderRadio (selected : option string) (opt : string) (i : Z) : Radio :=
  mkRadio (letterAt i) (attrValue (escapeHtml opt)) (strictEq selected opt)
          (textContent (escapeHtml opt)).

Definition renderQuestion (p : Page) : Page :=
  match questions p with
  | QOther v =>
      match o_elem v (currentIndex p) with
      | EQuestion q =>
          let selected := selectedFor (answers p) q in
          setDom
            (mkDom
               (AreaQuestion q (currentIndex p + 1)
                  (mapi (renderRadio selected) (q_options q)))
               ("Question " +:+ toString (currentIndex p + 1) +:+ " of "
                  +:+ o_lengthText v)
               (timerText (dom p))
               (timerStyle (dom p))
               (currentIndex p =? 0)
               (if o_below v (currentIndex p) then "inline-flex" else "none")
               (if o_last v (currentIndex p) then "inline-flex" else "none"))
            p
      | _ => p
      end
  | QArray qs =>
      match questionAt qs (currentIndex p) with
      | None => p
      | Some q =>
          let selected := selectedFor (answers p) q in
          let len := Z.of_nat (List.length qs) in
          setDom
            (mkDom
               (AreaQuestion q (currentIndex p + 1)
                  (mapi (renderRadio selected) (q_options q)))
               ("Question " +:+ toString (currentIndex p + 1) +:+ " of "
                  +:+ toString len)
               (timerText (dom p))
               (timerStyle (dom p))
               (currentIndex p =? 0)
               (if currentIndex p <? len - 1 then "inline-flex" else "none")
               (if currentIndex p =? len - 1 then "inline-flex" else "none"))
            p
      end
  end.

Definition hasValue (r : Radio) : bool :=
  match r_value r with
  | Some _ => true
  | None => false
  end.

(** The [change] listener of the [i]-th radio (lines 72-76): it writes the
    radio's value to the [answers] entry of the question it was rendered
    for.  (A radio without a value in the model cannot be chosen in it, see
    [deliverable].) *)
Definition onChange (i : nat) (p : Page) : Page :=
  match questionArea (dom p) with
  | AreaQuestion q _ radios =>
      match radios !! i ≫= r_value with
      | Some v => setAnswers (<[q_id q := v]> (answers p)) p
      | None => p
      end
  | _ => p
  end.

(** *** Navigation (lines 79-91) *)

Definition onPrev (p : Page) : Page :=
  if 0 <? currentIndex p
  then renderQuestion (setCurrentIndex (currentIndex p - 1) p)
  else p.

Definition onNext (p : Page) : Page :=
  match questions p with
  | QOther v =>
      if o_below v (currentIndex p)
      then renderQuestion (setCurrentIndex (currentIndex p + 1) p)
      else p
  | QArray qs =>
      if currentIndex p <? Z.of_nat (List.length qs) - 1
      then renderQuestion (setCurrentIndex (currentIndex p + 1) p)
      else p
  end.

(** *** [submitQuiz] (lines 95-113) *)

Definition collect (a acc : gmap string string) (q : Question)
  : gmap string string :=
  match a !! q_id q with
  | Some v => if truthy v then <[q_id q := v]> acc else acc
  | None => acc
  end.

Definition buildPayload (p : Page) (qs : list Question) : Payload :=
  mkPayload (quizId p) (foldl (collect (answers p)) ∅ qs).

Definition submitQuiz (p : Page) : Page :=
  match questions p with
  | QOther _ => p                   (* [questions.forEach] is not a function *)
  | QArray qs => setEnv (post (buildPayload p qs) (env p)) p
  end.

(** The response to a submission, or its failure. *)
Inductive SubmitResult :=
| SubmitJson (ok : bool) (redirect error : string)
| SubmitFailed.

Definition onSubmitSettled (r : SubmitResult) (p : Page) : Page :=
  let e := settle (env p) in
  match r with
  | SubmitJson ok redirect error =>
      if ok && truthy redirect then setEnv (navigate redirect e) p
      else setEnv (alert (if truthy error then error else "Submission failed.") e) p
  | SubmitFailed => setEnv (alert "Network error while submitting." e) p
  end.

(** *** The timer (lines 115-135) *)

Definition urgentStyle : Style := mkStyle "#fee2e2" "#991b1b" "#fecaca".

Definition updateTimerDisplay (p : Page) : Page :=
  let d := setTimerText (formatDuration (timerSeconds p)) (dom p) in
  if timerSeconds p <? 30
  then setDom (setTimerStyle urgentStyle d) p
  else setDom d p.

Definition startTimer (p : Page) : Page :=
  let p := updateTimerDisplay p in
  setEnv (setInterval true (env p)) p.

(** The interval callback. *)
Definition onTick (p : Page) : Page :=
  let p := setTimerSeconds (timerSeconds p - 1) p in
  if timerSeconds p <=? 0
  then submitQuiz (setEnv (setInterval false (env p)) p)
  else updateTimerDisplay p.

(** *** [initQuizPage] (lines 11-43) *)

Definition absent (quizId : option string) : bool :=
  match quizId with
  | Some s => negb (truthy s)
  | None => true
  end.

(** The page as the browser loaded it, before the script runs: the
    question area holds what the page shipped, the other elements are as
    [markup] gives them. *)
Definition loaded (quizId : option string) (total timerSeconds : Z)
    (markup : Dom) : Page :=
  mkPage quizId total timerSeconds (QArray []) 0 ∅
         (setQuestionArea AreaMarkup markup)
         (mkEnv false false false [] 0 [] None).

Definition initQuizPage (p : Page) : Page :=
  if absent (quizId p) || (total p =? 0) then p
  else
    setEnv (setFetching true (setListeners true (env p)))
      (setAnswers ∅ (setCurrentIndex 0 (setQuestions (QArray []) p))).

(** How the fetch of [/api/quiz/<id>] settles: a rejected promise (network
    error, a body that is not JSON, a body with no properties), or a JSON
    object whose [questions] property is falsy ([None]) or truthy. *)
Inductive FetchResult :=
| FetchFailed
| FetchJson (questions : option Questions).

Definition showMessage (text : string) (p : Page) : Page :=
  setDom (setQuestionArea (AreaMessage text) (dom p)) p.

Definition onFetched (r : FetchResult) (p : Page) : Page :=
  let p := setEnv (setFetching false (env p)) p in
  match r with
  | FetchFailed => showMessage "Error loading questions." p
  | FetchJson v =>
      let p := setQuestions (default (QArray []) v) p in
      match questions p with
      | QArray (_ :: _) => startTimer (renderQuestion p)
      | _ => showMessage "No questions could be loaded." p
      end
  end.

(** *** Events

    The page is driven by events.  An event reaches its handler only when
    the browser can deliver it: nothing is delivered once the page has been
    left, a click needs an attached listener and a button that is neither
    disabled nor hidden, a tick needs a live interval, and a response needs
    a request that is waiting for it.  A [change] names a radio by its
    position; the choice of a radio on display whose value is not a string of
    the model is not an event of the model. *)
Inductive Event :=
| Fetched (r : FetchResult)
| ClickPrev
| ClickNext
| ClickSubmit
| Change (i : nat)
| Tick
| SubmitSettled (r : SubmitResult).

Definition shown (display : string) : bool := negb (String.eqb display "none").

Definition deliverable (p : Page) (ev : Event) : bool :=
  match location (env p) with
  | Some _ => false
  | None =>
      match ev with
      | Fetched _ => fetching (env p)
      | ClickPrev => listeners (env p) && negb (prevDisabled (dom p))
      | ClickNext => listeners (env p) && shown (nextDisplay (dom p))
      | ClickSubmit => listeners (env p) && shown (submitDisplay (dom p))
      | Change i =>
          match questionArea (dom p) with
          | AreaQuestion _ _ radios =>
              match radios !! i with
              | Some r => hasValue r
              | None => true
              end
          | _ => true
          end
      | Tick => interval (env p)
      | SubmitSettled _ => negb (Nat.eqb (awaiting (env p)) 0)
      end
  end.

Definition handle (ev : Event) (p : Page) : Page :=
  match ev with
  | Fetched r => onFetched r p
  | ClickPrev => onPrev p
  | ClickNext => onNext p
  | ClickSubmit => submitQuiz p
  | Change i => onChange i p
  | Tick => onTick p
  | SubmitSettled r => onSubmitSettled r p
  end.

Definition step (p : Page) (ev : Event) : Page :=
  if deliverable p ev then handle ev p else p.

Definition run (evs : list Event) (p : Page) : Page := foldl step p evs.

End Quiz.

(** ** Recovering the options from a rendered cell (lines 394-401) *)

Module Extract.
Import JS Dom.

Definition isAtoD (c : ascii) : bool :=
  let n := nat_of_ascii c in (65 <=? n)%nat && (n <=? 68)%nat.

Fixpoint spaces (s : string) : nat :=
  match s with
  | String c r => if isSpace c then S (spaces r) else O
  | EmptyString => O
  end.

Fixpoint drop (n : nat) (s : string) : string :=
  match n, s with
  | S k, String _ r => drop k r
  | _, _ => s
  end.

(** The text that the pattern of lines 398 and 400 holds after the
    letter. *)
Definition markerText : string := "KATEX_INLINE_CLOSE".

(** The length of a match of [\s*[A-D]KATEX_INLINE_CLOSE\s] at the start
    of [s]: the greedy [\s*] takes the whole run of white space, and giving
    some of it back can only put white space where a letter is needed. *)
Definition matchMarker (s : string) : option nat :=
  let n := spaces s in
  match drop n s with
  | String c r =>
      if isAtoD c && startsWith markerText r then
        match drop (String.length markerText) r with
        | String w _ =>
            if isSpace w then Some (n + 1 + String.length markerText + 1)%nat
            else None
        | EmptyString => None
        end
      else None
  | EmptyString => None
  end.

(** The length of a match of [\s*[\r\n]+] at the start of [s]: [\s*]
    gives white space back until a line break follows it, so the match ends
    after the last line break of the leading run of white space. *)
Fixpoint matchBreak (s : string) : option nat :=
  match s with
  | String c r =>
      if isSpace c then
        match matchBreak r with
        | Some n => Some (S n)
        | None => if isLineBreak c then Some 1%nat else None
        end
      else None
  | EmptyString => None
  end.

(** [text.split(re)] for a pattern [re] without captures that matches no
    empty string; [m s] is the length of the match of [re] at the start of
    [s].  The scan tries a match at each position in turn; a match closes
    the current part and the scan resumes after it. *)
Fixpoint splitGo (m : string -> option nat) (skip : nat) (part s : string)
  : list string :=
  match s with
  | EmptyString => [part]
  | String c r =>
      match skip with
      | S k => splitGo m k part r
      | O =>
          match m s with
          | Some n => part :: splitGo m (pred n) "" r
          | None => splitGo m 0 (part +:+ String c "") r
          end
      end
  end.

Definition split (m : string -> option nat) (text : string) : list string :=
  splitGo m 0 "" text.

(** [s.replace(/^[A-D]KATEX_INLINE_CLOSE\s*/, "")]. *)
Definition stripMarker (s : string) : string :=
  match s with
  | String c r =>
      if isAtoD c && startsWith markerText r
      then trimStart (drop (String.length markerText) r)
      else s
  | EmptyString => s
  end.

(** The options once the text of the fragment is known (lines 397-400). *)
Definition optionsOfText (text : string) : list string :=
  let parts := List.filter truthy (split matchMarker text) in
  if (List.length parts =? 4)%nat then List.map trim parts
  else take 4 (List.filter truthy (List.map stripMarker (split matchBreak text))).

Definition extractOptionsFromHtml (html : string) : option (list string) :=
  optionsOfText <$> textContent html.

End Extract.

(** ** The administration table (lines 160-189 and 206-299) *)

Module Admin.
Import JS Util Dom Extract.

(** A question as the server lists it. *)
Record Row := mkRow {
  row_id : Z;
  row_subject : string;
  row_question : string;
  row_options : list string;
  row_answer : string;
  row_difficulty : string;       (* [""] when the property is missing *)
  row_explanation : string       (* [""] when the property is missing *)
}.

(** The markup of the cells of one table row (lines 166-175). *)
Record Cells := mkCells {
  c_id : Z;                      (* [data-id] *)
  c_subject : string;
  c_question : string;
  c_options : string;
  c_answer : string;
  c_difficulty : string;
  c_explanation : string
}.

Definition letterOf (i : Z) : string :=
  if i <? 0 then "undefined"
  else default "undefined" (["A"; "B"; "C"; "D"] !! Z.to_nat i).

Definition optionsCell (options : list string) : string :=
  join "<br>" (mapi (fun opt i => letterOf i +:+ ") " +:+ escapeHtml opt) options).

Definition renderRow (q : Row) : Cells :=
  mkCells (row_id q)
    (escapeHtml (row_subject q))
    (escapeHtml (row_question q))
    (optionsCell (row_options q))
    (escapeHtml (row_answer q))
    (escapeHtml (if truthy (row_difficulty q) then row_difficulty q else "Medium"))
    (escapeHtml (row_explanation q)).

(** One [<input class="edit-opt" data-idx=...>]. *)
Record OptInput := mkOptInput {
  i_idx : Z;
  i_value : string
}.

(** The controls of a row in edit mode, with their current values. *)
Record EditRow := mkEditRow {
  e_id : Z;
  e_subject : string;            (* [.edit-subject] *)
  e_question : string;           (* [.edit-question] *)
  e_opts : list OptInput;        (* [.edit-opt], in document order *)
  e_answer : string;             (* [.edit-answer] *)
  e_difficulty : string;         (* [.edit-difficulty] *)
  e_expl : string                (* [.edit-expl] *)
}.

(** The value of a [<select>] whose options are given with their
    [selected] attribute: the last option marked selected, else the first
    option. *)
Definition selectValue (options : list (bool * string)) : string :=
  match List.filter fst (rev options) with
  | (_, v) :: _ => v
  | [] => match options with (_, v) :: _ => v | [] => "" end
  end.

(** [opts[i] || ""]. *)
Definition optAt (opts : list string) (i : nat) : string :=
  default "" (opts !! i).

(** [onEdit] up to the listeners (lines 206-256): the controls and the
    values they are filled with.  The values are what the browser makes of
    the markup written at lines 219-256: a text input strips line breaks
    from its [value] attribute, an [<option>] keeps its own. *)
Definition onEdit (tds : Cells) : option EditRow :=
  subject ← trim <$> textContent (c_subject tds);
  question ← trim <$> textContent (c_question tds);
  optionsText ← innerHTML (c_options tds);
  answer ← trim <$> textContent (c_answer tds);
  difficulty ← trim <$> textContent (c_difficulty tds);
  explanation ← trim <$> textContent (c_explanation tds);
  opts ← extractOptionsFromHtml optionsText;
  editQuestion ← textareaValue (escapeTextarea question);
  inputs ← mapM (fun i => mkOptInput (Z.of_nat i)
                            <$> inputValue (escapeAttr (optAt opts i)))
                [0; 1; 2; 3]%nat;
  answers ← mapM (fun i => pair (String.eqb (optAt opts i) answer)
                             <$> attrValue (escapeAttr (optAt opts i)))
                 [0; 1; 2; 3]%nat;
  editExpl ← textareaValue (escapeTextarea explanation);
  Some (mkEditRow (c_id tds)
          (selectValue
             (List.map (fun name => (String.eqb subject name, name))
                ["Physics"; "Chemistry"; "Botany"; "Zoology"; "Mental Agility Test"]))
          editQuestion
          inputs
          (selectValue answers)
          (selectValue
             (List.map (fun name => (String.eqb difficulty name, name))
                ["Easy"; "Medium"; "Hard"]))
          editExpl).

(** The body of a [POST /admin/update_question]. *)
Record UpdateRequest := mkUpdate {
  u_id : Z;
  u_subject : string;
  u_question : string;
  u_options : list string;
  u_answer : string;
  u_difficulty : string;
  u_explanation : string
}.

(** The row in edit mode together with what the page has done. *)
Record Table := mkTable {
  t_row : EditRow;
  t_alerts : list string;            (* newest first *)
  t_updates : list UpdateRequest     (* newest first *)
}.

(** [.sort((a, b) => a.dataset.idx - b.dataset.idx)], a stable sort. *)
Fixpoint insertByIdx (x : OptInput) (l : list OptInput) : list OptInput :=
  match l with
  | [] => [x]
  | y :: r => if i_idx x <? i_idx y then x :: l else y :: insertByIdx x r
  end.

Definition sortByIdx (l : list OptInput) : list OptInput :=
  foldl (fun acc x => insertByIdx x acc) [] l.

Definition includes (l : list string) (x : string) : bool :=
  existsb (String.eqb x) l.

(** The [click] listener of the Save button (lines 259-298). *)
Definition onSave (t : Table) : Table :=
  let row := t_row t in
  let newSubject := e_subject row in
  let newQuestion := trim (e_question row) in
  let newOpts := List.map (fun inp => trim (i_value inp)) (sortByIdx (e_opts row)) in
  let newAnswer := e_answer row in
  let newDiff := e_difficulty row in
  let newExpl := e_expl row in
  if negb (List.length newOpts =? 4)%nat || existsb (fun x => negb (truthy x)) newOpts
  then mkTable row ("Please provide four options." :: t_alerts t) (t_updates t)
  else if negb (truthy newQuestion)
  then mkTable row ("Question cannot be empty." :: t_alerts t) (t_updates t)
  else if negb (includes newOpts newAnswer)
  then mkTable row ("Correct answer must match an option." :: t_alerts t) (t_updates t)
  else mkTable row (t_alerts t)
         (mkUpdate (e_id row) newSubject newQuestion newOpts newAnswer newDiff newExpl
            :: t_updates t).

End Admin.

(** ** The add-question form (lines 301-333) *)

Module AddForm.
Import JS.









End AddForm.

Import JS Util Dom Quiz Extract Admin.
Import AddForm.

Arguments toString : simpl never.
Arguments formatDuration : simpl never.
Arguments escapeHtml : simpl never.
Arguments attrValue : simpl never.
Arguments textContent : simpl never.

(** ** Vocabulary of the statements *)

(** The timer format in the words of its description: a component that is
    "zero-padded to 2 digits" is its tens digit followed by its units digit,
    a component that is "unpadded" is a decimal numeral with no leading
    zero. *)
Definition twoDigits (d : Z) : string :=
  String (digitChar (d / 10)) (String (digitChar (d mod 10)) "").

Definition isDigit (c : ascii) : bool :=
  let n := nat_of_ascii c in (48 <=? n)%nat && (n <=? 57)%nat.

Fixpoint allDigits (s : string) : bool :=
  match s with
  | String c r => isDigit c && allDigits r
  | EmptyString => true
  end.

Definition unpadded (s : string) : bool :=
  match s with
  | EmptyString => false
  | String c r =>
      if Ascii.eqb c "0" then String.eqb r "" else isDigit c && allDigits r
  end.

(** A check of all integers from [0] up to [n], to settle bounded statements
    by evaluation. *)
Definition checkBelow (f : Z -> bool) (n : nat) : bool :=
  forallb (fun k => f (Z.of_nat k)) (seq 0 n).

(** The page right after the script has run on a page with a quiz
    identifier, a non-zero total and [timerSeconds] seconds, and the fetch of
    the questions has settled with [r]. *)
Definition opened (quizId : string) (total timerSeconds : Z) (markup : Dom)
    (r : FetchResult) : Page :=
  step (initQuizPage (loaded (Some quizId) total timerSeconds markup)) (Fetched r).

(** A running session over the questions [qs]: the index is in range, the
    question at the index is the one on display with one radio per option,
    and the buttons are as [renderQuestion] left them. *)
Definition Active (qs : list Question) (p : Page) : Prop :=
  questions p = QArray qs
  /\ listeners (env p) = true
  /\ fetching (env p) = false
  /\ 0 <= currentIndex p < Z.of_nat (List.length qs)
  /\ prevDisabled (dom p) = (currentIndex p =? 0)
  /\ nextDisplay (dom p)
     = (if currentIndex p <? Z.of_nat (List.length qs) - 1
        then "inline-flex" else "none")
  /\ submitDisplay (dom p)
     = (if currentIndex p =? Z.of_nat (List.length qs) - 1
        then "inline-flex" else "none")
  /\ exists q sel,
       questionAt qs (currentIndex p) = Some q
       /\ questionArea (dom p)
          = AreaQuestion q (currentIndex p + 1)
              (mapi (renderRadio sel) (q_options q)).

(** The number of Submit clicks of a sequence of events that reach the
    handler, and whether the timer has expired (its interval is cleared). *)
Definition isSubmitClick (ev : Event) : bool :=
  match ev with
  | ClickSubmit => true
  | _ => false
  end.

Fixpoint deliveredSubmits (p : Page) (evs : list Event) : nat :=
  match evs with
  | [] => 0
  | ev :: rest =>
      ((if isSubmitClick ev && deliverable p ev then 1 else 0)
       + deliveredSubmits (step p ev) rest)%nat
  end.

Definition expired (p : Page) : nat := if interval (env p) then 0%nat else 1%nat.

(** Sample pages: one that ships its Submit button hidden
    ([style="display:none"]) and one that ships it with no inline style, so
    visible; and sample questions. *)
Definition markupSubmitHidden : Dom :=
  mkDom AreaMarkup "" "" (mkStyle "" "" "") false "" "none".


Definition capital : Question :=
  mkQuestion "1" "Capital of France?" ["Paris"; "London"; "Rome"; "Berlin"].

Definition planet : Question :=
  mkQuestion "2" "Largest planet?" ["Mars"; "Jupiter"; "Venus"; "Earth"].

Definition organelle : Question :=
  mkQuestion "3" "Site of respiration?"
    ["Mitochondria"; "Chloroplast"; "Both (A) and (B)"; "None of these"].

Definition element : Question :=
  mkQuestion "4" "Symbol Na?" ["Sodium"; "Neon"; "Nickel"; "Nitrogen"].

Definition unit : Question :=
  mkQuestion "5" "Unit of force?" ["Joule"; "Newton"; "Watt"; "Pascal"].

Definition fiveQuestions : list Question :=
  [capital; planet; organelle; element; unit].

(** The outcomes of the question fetch on which no question is shown: a
    failure, a missing or falsy [questions] property, an empty array, a value
    that is not an array. *)
Definition failing (r : FetchResult) : bool :=
  match r with
  | FetchJson (Some (QArray (_ :: _))) => false
  | _ => true
  end.



(** An object with a [length] and elements at its first indices, which is
    not an array. *)
Definition arrayLike (elems : list Elem) : Other :=
  let len := Z.of_nat (List.length elems) in
  mkOther (toString len) (fun i => i <? len - 1) (fun i => i =? len - 1)
    (fun i => if i <? 0 then ENone else default ENone (elems !! Z.to_nat i)).

(** What [escapeHtml] makes of one character. *)
Definition escapeChar (c : ascii) : string :=
  if Ascii.eqb c "&" then "&amp;"
  else if Ascii.eqb c "<" then "&lt;"
  else if Ascii.eqb c ">" then "&gt;"
  else if Ascii.eqb c dquote then "&quot;"
  else String c "".

(** The radios of a question [q] as the user should find them when [o] is
    the recorded selection: one per option, in the order of the options,
    checked exactly on the options equal to [o]. *)
Definition preselected (q : Question) (o : string) (a : Area) : Prop :=
  exists num radios,
    a = AreaQuestion q num radios
    /\ List.map r_checked radios = List.map (String.eqb o) (q_options q).

(** An option that a radio gives back as it is: the browser reads its
    escaped form in the [value] attribute as the option itself (it holds no
    carriage return and no NUL). *)
Definition readBack (o : string) : bool :=
  match attrValue (escapeHtml o) with
  | Some v => String.eqb v o
  | None => false
  end.

(** The property name a [change] event writes to, if it writes. *)
Definition written (p : Page) (ev : Event) : option string :=
  match ev with
  | Change i =>
      if deliverable p ev then
        match questionArea (dom p) with
        | AreaQuestion q _ radios =>
            match radios !! i with
            | Some _ => Some (q_id q)
            | None => None
            end
        | _ => None
        end
      else None
  | _ => None
  end.

(** Whether some event of a run writes the [answers] entry [k]. *)
Fixpoint touched (k : string) (p : Page) (evs : list Event) : bool :=
  match evs with
  | [] => false
  | ev :: rest =>
      match written p ev with
      | Some k' => String.eqb k k' || touched k (step p ev) rest
      | None => touched k (step p ev) rest
      end
  end.

(** The selection recorded under the property name [k], if it is one the
    payload keeps: a string that is not empty. *)
Definition kept (a : gmap string string) (k : string) : option string :=
  match a !! k with
  | Some v => if truthy v then Some v else None
  | None => None
  end.

Definition answered (a : gmap string string) (q : Question) : bool :=
  match kept a (q_id q) with
  | Some _ => true
  | None => false
  end.

(** Save's validation in the words of its description, on the values the
    handler works with (the controls' values with surrounding white space
    removed): four options none of which is empty, a question text that is
    not empty, and an answer equal to one of the options. *)
Definition acceptable (question : string) (opts : list string) (answer : string)
  : bool :=
  forallb truthy opts && truthy question && includes opts answer.

(** The four option inputs of a row in edit mode, in document order. *)
Definition fourInputs (a b c d : string) : list OptInput :=
  [mkOptInput 0 a; mkOptInput 1 b; mkOptInput 2 c; mkOptInput 3 d].

(** A question with an empty option, and table rows to edit. *)
Definition blank : Question := mkQuestion "1" "Pick one" [""; "yes"].

Definition organelleRow : Row :=
  mkRow 3 "Botany" "Site of respiration?"
    ["Mitochondria"; "Chloroplast"; "Both (A) and (B)"; "None of these"]
    "Mitochondria" "Easy" "".

Definition capitalRow : Row :=
  mkRow 7 "Physics" "Capital of France?" ["Paris"; "London"; "Rome"; "Berlin"]
    "Paris" "" "".

(** Text of everyday characters: no NUL, no line break, none of the
    characters that escaping or the serialiser rewrites, and no underscore
    (so that the text [KATEX_INLINE_CLOSE] of the marker pattern cannot occur
    in it). *)
Definition plainChar (c : ascii) : bool :=
  negb (Ascii.eqb c NUL || Ascii.eqb c LF || Ascii.eqb c CR
        || Ascii.eqb c "&" || Ascii.eqb c "<" || Ascii.eqb c ">"
        || Ascii.eqb c dquote || Ascii.eqb c "'" || Ascii.eqb c NBSP
        || Ascii.eqb c "_").

Fixpoint plainText (s : string) : bool :=
  match s with
  | String c r => plainChar c && plainText r
  | EmptyString => true
  end.

(** What [escapeAttr] makes of one character. *)
Definition escapeAttrChar (c : ascii) : string :=
  if Ascii.eqb c "'" then "&#39;" else escapeChar c.

(** The timer's part of the page. *)
Definition timerView (p : Page) : Z * string * Style * bool :=
  (timerSeconds p, timerText (dom p), timerStyle (dom p), interval (env p)).

(** Whenever fewer than 30 seconds remain the style is the urgent one. *)
Definition UrgentBelow30 (p : Page) : Prop :=
  timerSeconds p < 30 -> timerStyle (dom p) = urgentStyle.

(** While the interval is live the display shows the remaining seconds,
    which are positive; once it is cleared the display keeps the last value
    it showed, one second. *)
Definition Countdown (p : Page) : Prop :=
  fetching (env p) = false
  /\ (interval (env p) = true ->
      1 <= timerSeconds p /\ timerText (dom p) = formatDuration (timerSeconds p))
  /\ (interval (env p) = false ->
      timerSeconds p = 0 /\ timerText (dom p) = formatDuration 1).

(** *** Vocabulary of the further properties *)

(** One pass that replaces every character [c] by [f c]. *)
Fixpoint mapChars (f : ascii -> string) (s : string) : string :=
  match s with
  | String c r => f c +:+ mapChars f r
  | EmptyString => ""
  end.

(** What [escapeTextarea] makes of one character. *)
Definition escapeTextareaChar (c : ascii) : string :=
  if Ascii.eqb c "<" then "&lt;"
  else if Ascii.eqb c ">" then "&gt;"
  else String c "".

(** Whether the character [c] occurs in [s]. *)
Fixpoint occurs (c : ascii) (s : string) : bool :=
  match s with
  | String x r => Ascii.eqb x c || occurs c r
  | EmptyString => false
  end.

(** The number of ticks of a sequence of events that reach the interval
    callback. *)
Definition isTick (ev : Event) : bool :=
  match ev with
  | Tick => true
  | _ => false
  end.

Fixpoint deliveredTicks (p : Page) (evs : list Event) : nat :=
  match evs with
  | [] => 0
  | ev :: rest =>
      ((if isTick ev && deliverable p ev then 1 else 0)
       + deliveredTicks (step p ev) rest)%nat
  end.


(** The countdown after [n] delivered ticks of a timer started at [t0]. *)
Definition Ticked (t0 : Z) (n : nat) (p : Page) : Prop :=
  fetching (env p) = false
  /\ timerSeconds p = t0 - Z.of_nat n
  /\ (interval (env p) = true -> n = 0%nat \/ 1 <= timerSeconds p)
  /\ (interval (env p) = false ->
      (1 <= n)%nat /\ timerSeconds p <= 0 /\ (timerSeconds p = 0 \/ n = 1%nat)).

(** The radios on display, and how many of them carry [checked]. *)
Definition shownRadios (a : Area) : list Radio :=
  match a with
  | AreaQuestion _ _ radios => radios
  | _ => []
  end.

Definition checkedCount (radios : list Radio) : nat :=
  List.length (List.filter r_checked radios).

(** Every recorded selection is the value of the radio of an option of a
    question of [qs] with that identifier. *)
Definition FromOptions (qs : list Question) (a : gmap string string) : Prop :=
  forall k v, a !! k = Some v ->
    exists q o, q ∈ qs /\ q_id q = k /\ o ∈ q_options q
                /\ attrValue (escapeHtml o) = Some v.

(** [s] without its NUL characters, and the text the browser shows for
    escaped [s]: line breaks normalised, NUL dropped. *)
Fixpoint withoutNUL (s : string) : string :=
  match s with
  | String c r => if Ascii.eqb c NUL then withoutNUL r else String c (withoutNUL r)
  | EmptyString => ""
  end.

Definition shownText (s : string) : string := withoutNUL (normalizeNewlines s).

(** Reading the character references of [escapeAttr] back, for every
    text: the inverse of escaping. *)
Fixpoint unescape (skip : nat) (s : string) : string :=
  match s with
  | EmptyString => ""
  | String c r =>
      match skip with
      | S k => unescape k r
      | O =>
          if Ascii.eqb c "&" then
            match reference r with
            | Some (ch, n) => String ch (unescape n r)
            | None => String c (unescape 0 r)
            end
          else String c (unescape 0 r)
      end
  end.

(** The largest integer up to which every integer is a JavaScript number. *)
Definition maxExact : Z := 9007199254740992.

(** The progress line for the question at the current index. *)
Definition progressLine (qs : list Question) (p : Page) : string :=
  "Question " +:+ toString (currentIndex p + 1) +:+ " of "
    +:+ toString (Z.of_nat (List.length qs)).

Definition Labelled (qs : list Question) (p : Page) : Prop :=
  progressText (dom p) = progressLine qs p.



Definition subjects : list string :=
  ["Physics"; "Chemistry"; "Botany"; "Zoology"; "Mental Agility Test"].

Definition difficulties : list string := ["Easy"; "Medium"; "Hard"].

(** Reading a timer text back: the fields between the colons are decimal
    numerals, each field counting sixty of the next. *)
Definition digitValue (c : ascii) : Z := Z.of_nat (nat_of_ascii c) - 48.

Fixpoint numGo (cur : Z) (s : string) : Z :=
  match s with
  | EmptyString => cur
  | String c r => numGo (10 * cur + digitValue c) r
  end.

Fixpoint clockGo (total cur : Z) (s : string) : Z :=
  match s with
  | EmptyString => 60 * total + cur
  | String c r =>
      if Ascii.eqb c ":" then clockGo (60 * total + cur) 0 r
      else clockGo total (10 * cur + digitValue c) r
  end.

Definition readClock (s : string) : Z := clockGo 0 0 s.

(** The order [sort] puts the option inputs in. *)
Definition byIdx (x y : OptInput) : Prop := i_idx x <= i_idx y.

(** The options with their letters, run together as the text of an
    options cell has them. *)
Definition labelled (options : list string) : string :=
  join "" (mapi (fun opt i => letterOf i +:+ ") " +:+ opt) options).

(** ** Decimal numerals and the timer format *)

Lemma checkBelow_sound (f : Z -> bool) (n : nat) :
  checkBelow f n = true -> forall z, 0 <= z < Z.of_nat n -> f z = true.
Proof.
  unfold checkBelow. rewrite forallb_forall. intros H z Hz.
  specialize (H (Z.to_nat z)). rewrite Z2Nat.id in H by lia.
  apply H, in_seq. lia.
Qed.

Lemma padStart_twoDigits (d : Z) :
  0 <= d < 100 -> padStart 2 "0" (toString d) = twoDigits d.
Proof.
  intros Hd. apply String.eqb_eq.
  apply (checkBelow_sound
           (fun d => String.eqb (padStart 2 "0" (toString d)) (twoDigits d)) 100);
    [vm_compute; reflexivity | lia].
Qed.

Lemma digitChar_digit (d : Z) :
  0 <= d < 10 -> isDigit (digitChar d) = true.
Proof.
  intros Hd.
  apply (checkBelow_sound (fun d => isDigit (digitChar d)) 10);
    [vm_compute; reflexivity | lia].
Qed.

Lemma digitChar_nonzero (d : Z) :
  0 < d < 10 -> Ascii.eqb (digitChar d) "0" = false.
Proof.
  intros Hd.
  assert (H : (d =? 0) || negb (Ascii.eqb (digitChar d) "0") = true).
  { apply (checkBelow_sound
             (fun d => (d =? 0) || negb (Ascii.eqb (digitChar d) "0")) 10);
      [vm_compute; reflexivity | lia]. }
  destruct (Z.eqb_spec d 0); [lia |].
  cbn [orb] in H. now apply negb_true_iff in H.
Qed.

(** With enough fuel the digit loop ends on the leading digit, which is not
    zero. *)
Lemma digitsGo_leading (fuel : nat) : forall (n : Z) (acc : string),
  0 < n < 10 ^ Z.of_nat (S fuel) ->
  allDigits acc = true ->
  exists c r, digitsGo fuel n acc = String c r
              /\ Ascii.eqb c "0" = false /\ isDigit c = true
              /\ allDigits r = true.
Proof.
  induction fuel as [| f IH]; intros n acc Hn Hacc.
  - change (10 ^ Z.of_nat 1) with 10 in Hn. cbn [digitsGo].
    rewrite Z.mod_small by lia.
    exists (digitChar n), acc.
    repeat split; auto using digitChar_nonzero, digitChar_digit with lia.
  - cbn [digitsGo].
    assert (Hmod : 0 <= n mod 10 < 10) by (apply Z.mod_pos_bound; lia).
    destruct (Z.eqb_spec (n / 10) 0) as [Hq | Hq].
    + assert (n < 10) by (apply Z.div_small_iff in Hq; lia).
      rewrite Z.mod_small by lia.
      exists (digitChar n), acc.
      repeat split; auto.
      * apply digitChar_nonzero; lia.
      * apply digitChar_digit; lia.
    + apply IH.
      * assert (0 <= n / 10) by (apply Z.div_pos; lia).
        split; [lia |].
        apply Z.div_lt_upper_bound; [lia |].
        rewrite <- Z.pow_succ_r by lia.
        replace (Z.succ (Z.of_nat (S f))) with (Z.of_nat (S (S f))) by lia.
        lia.
      * cbn [allDigits]. rewrite digitChar_digit by lia. exact Hacc.
Qed.

Lemma digits_leading (n : Z) :
  0 < n ->
  exists c r, digits n = String c r
              /\ Ascii.eqb c "0" = false /\ isDigit c = true
              /\ allDigits r = true.
Proof.
  intros Hn. unfold digits. apply digitsGo_leading; [| reflexivity].
  split; [lia |].
  pose proof (Z.log2_nonneg n) as Hl.
  destruct (Z.log2_spec n Hn) as [_ Hup].
  rewrite Nat2Z.inj_succ, Z2Nat.id by lia.
  eapply Z.lt_le_trans; [exact Hup |].
  apply Z.pow_le_mono_l; lia.
Qed.

Lemma toString_leading (n : Z) :
  0 < n ->
  exists c r, toString n = String c r
              /\ Ascii.eqb c "0" = false /\ isDigit c = true
              /\ allDigits r = true.
Proof.
  intros Hn. unfold toString.
  destruct (Z.ltb_spec n 0); [lia |]. now apply digits_leading.
Qed.

Lemma toString_unpadded (n : Z) : 0 <= n -> unpadded (toString n) = true.
Proof.
  intros Hn. destruct (Z.eq_dec n 0) as [-> | Hne]; [reflexivity |].
  destruct (toString_leading n) as (c & r & -> & Hc & Hd & Hr); [lia |].
  unfold unpadded. rewrite Hc, Hd, Hr. reflexivity.
Qed.

(** C9.  For a non-negative number of seconds [t] in the range of exact
    integers (up to 2^53, where the divisions, remainders and decimal
    numerals of the code are those of the integers), with hour component [h],
    minute component [m] and second component [s]: when [h] is zero the
    display is [m] unpadded, a colon and [s] on two digits ([M:SS]); when [h]
    is not zero it is [h] unpadded, a colon, [m] on two digits, a colon and
    [s] on two digits ([H:MM:SS]).  45 seconds read [0:45] and 3661 seconds
    read [1:01:01]. *)
Theorem formatDuration_format (t : Z) :
  0 <= t -> t <= maxExact ->
  let h := t / 3600 in
  let m := (t mod 3600) / 60 in
  let s := t mod 60 in
  (h = 0 -> formatDuration t = toString m +:+ ":" +:+ twoDigits s)
  /\ (h <> 0 ->
      formatDuration t
      = toString h +:+ ":" +:+ twoDigits m +:+ ":" +:+ twoDigits s)
  /\ unpadded (toString h) = true
  /\ unpadded (toString m) = true
  /\ String.length (twoDigits m) = 2%nat
  /\ String.length (twoDigits s) = 2%nat
  /\ formatDuration 45 = "0:45"
  /\ formatDuration 3661 = "1:01:01".
Proof.
  intros Ht _ h m s.
  assert (Hh : 0 <= h) by (apply Z.div_pos; lia).
  assert (Hm3600 : 0 <= t mod 3600 < 3600) by (apply Z.mod_pos_bound; lia).
  assert (Hm : 0 <= m < 60).
  { subst m. split; [apply Z.div_pos; lia |].
    apply Z.div_lt_upper_bound; lia. }
  assert (Hs : 0 <= s < 60) by (apply Z.mod_pos_bound; lia).
  assert (Hfmt : formatDuration t
                 = if 0 <? h
                   then toString h +:+ ":" +:+ twoDigits m +:+ ":" +:+ twoDigits s
                   else toString m +:+ ":" +:+ twoDigits s).
  { unfold formatDuration.
    rewrite !Z.rem_mod_nonneg by lia.
    fold h m s. rewrite !padStart_twoDigits by lia. reflexivity. }
  repeat split.
  - intros H0. rewrite Hfmt, H0. reflexivity.
  - intros Hne. rewrite Hfmt.
    destruct (Z.ltb_spec 0 h); [reflexivity | lia].
  - now apply toString_unpadded.
  - apply toString_unpadded; lia.
Qed.

(** 3661 seconds have a non-zero hour component. *)
Lemma formatDuration_format_witness :
  0 <= 3661 /\ 3661 <= maxExact
  /\ formatDuration 3661 = toString 1 +:+ ":" +:+ twoDigits 1 +:+ ":" +:+ twoDigits 1.
Proof.
  assert (H0 : 0 <= 3661) by lia.
  assert (H1 : 3661 <= maxExact) by (unfold maxExact; lia).
  split; [exact H0 |]. split; [exact H1 |].
  destruct (formatDuration_format 3661 H0 H1) as (_ & H & _).
  apply H. discriminate.
Defined.

(** ** The running session *)

Ltac destruct_page p :=
  let d := fresh "d" in
  let e := fresh "e" in
  destruct p as [? ? ? ? ? ? d e]; destruct d, e; cbn in *.

Section Session.

(** The questions of the session. *)
Variable qs : list Question.

Lemma questionAt_in_range (i : Z) :
  0 <= i < Z.of_nat (List.length qs) -> exists q, questionAt qs i = Some q.
Proof.
  intros Hi. unfold questionAt.
  destruct (Z.ltb_spec i 0); [lia |].
  destruct (lookup_lt_is_Some_2 qs (Z.to_nat i)) as [q Hq]; [lia |].
  now exists q.
Qed.

Lemma renderQuestion_Active (p : Page) :
  questions p = QArray qs ->
  listeners (env p) = true ->
  fetching (env p) = false ->
  0 <= currentIndex p < Z.of_nat (List.length qs) ->
  Active qs (renderQuestion p)
  /\ currentIndex (renderQuestion p) = currentIndex p
  /\ answers (renderQuestion p) = answers p
  /\ env (renderQuestion p) = env p
  /\ timerSeconds (renderQuestion p) = timerSeconds p
  /\ timerText (dom (renderQuestion p)) = timerText (dom p)
  /\ timerStyle (dom (renderQuestion p)) = timerStyle (dom p).
Proof.
  intros Hq Hl Hf Hi.
  destruct (questionAt_in_range _ Hi) as [q Hat].
  unfold renderQuestion, Active. rewrite Hq, Hat.
  destruct_page p. subst.
  repeat split; try reflexivity; try lia.
  eauto.
Qed.

Lemma Active_step (p : Page) (ev : Event) :
  Active qs p -> Active qs (step p ev).
Proof.
  intros HA. unfold step.
  destruct (deliverable p ev) eqn:Hd; [| exact HA].
  pose proof HA as (Hq & Hl & Hf & Hi & Hp & Hn & Hs & q & sel & Hat & Har).
  destruct ev; cbn [handle].
  - unfold deliverable in Hd. rewrite Hf in Hd.
    destruct (location (env p)); discriminate.
  - unfold onPrev. destruct (Z.ltb_spec 0 (currentIndex p)); [| exact HA].
    apply renderQuestion_Active; destruct_page p; auto; lia.
  - unfold onNext. rewrite Hq.
    destruct (Z.ltb_spec (currentIndex p) (Z.of_nat (List.length qs) - 1));
      [| exact HA].
    apply renderQuestion_Active; destruct_page p; auto; lia.
  - unfold submitQuiz. rewrite Hq. exact HA.
  - unfold onChange. rewrite Har.
    destruct (mbind _ _); exact HA.
  - unfold onTick, submitQuiz, updateTimerDisplay.
    cbn [timerSeconds setTimerSeconds questions setEnv].
    rewrite Hq.
    destruct (timerSeconds p - 1 <=? 0); [exact HA |].
    destruct (timerSeconds p - 1 <? 30); exact HA.
  - unfold onSubmitSettled.
    destruct r as [ok redirect error |]; [| exact HA].
    destruct (ok && truthy redirect); exact HA.
Qed.

Lemma Active_run (evs : list Event) :
  forall p, Active qs p -> Active qs (run evs p).
Proof.
  induction evs as [| ev evs IH]; intros p HA; [exact HA |].
  apply IH, Active_step, HA.
Qed.

End Session.

Create HintDb session.
#[local] Hint Resolve Active_step Active_run : session.

Lemma truthy_absent (id : string) :
  truthy id = true -> absent (Some id) = false.
Proof. intros H. unfold absent. now rewrite H. Qed.

Lemma startTimer_Active (qs : list Question) (p : Page) :
  Active qs p -> Active qs (startTimer p).
Proof.
  intros HA. unfold startTimer, updateTimerDisplay.
  destruct (timerSeconds p <? 30); exact HA.
Qed.

Lemma startTimer_frame (p : Page) :
  let p' := startTimer p in
  currentIndex p' = currentIndex p
  /\ answers p' = answers p
  /\ timerSeconds p' = timerSeconds p
  /\ interval (env p') = true
  /\ requests (env p') = requests (env p)
  /\ location (env p') = location (env p)
  /\ timerText (dom p') = formatDuration (timerSeconds p)
  /\ timerStyle (dom p')
     = if timerSeconds p <? 30 then urgentStyle else timerStyle (dom p).
Proof.
  unfold startTimer, updateTimerDisplay.
  destruct (timerSeconds p <? 30); repeat split.
Qed.

(** The page once the script has run on it with an identifier and a
    non-zero total, waiting for the questions. *)
Lemma initQuizPage_started (id : string) (total0 timerSeconds0 : Z) (markup : Dom) :
  truthy id = true -> total0 <> 0 ->
  initQuizPage (loaded (Some id) total0 timerSeconds0 markup)
  = mkPage (Some id) total0 timerSeconds0 (QArray []) 0 ∅
      (setQuestionArea AreaMarkup markup)
      (mkEnv true true false [] 0 [] None).
Proof.
  intros Hid Htot. unfold initQuizPage, loaded. cbn [quizId total].
  rewrite (truthy_absent _ Hid).
  destruct (Z.eqb_spec total0 0) as [| _]; [contradiction |].
  reflexivity.
Qed.

(** Opening a page on a non-empty list of questions starts a session at
    index 0, with the timer running. *)
Lemma opened_Active (id : string) (total0 timerSeconds0 : Z) (markup : Dom)
    (q : Question) (qs : list Question) :
  truthy id = true -> total0 <> 0 ->
  let p := opened id total0 timerSeconds0 markup
             (FetchJson (Some (QArray (q :: qs)))) in
  Active (q :: qs) p
  /\ currentIndex p = 0
  /\ answers p = ∅
  /\ timerSeconds p = timerSeconds0
  /\ interval (env p) = true
  /\ requests (env p) = []
  /\ location (env p) = None
  /\ timerText (dom p) = formatDuration timerSeconds0
  /\ (timerSeconds0 < 30 -> timerStyle (dom p) = urgentStyle).
Proof.
  intros Hid Htot p. subst p. unfold opened.
  rewrite (initQuizPage_started id total0 timerSeconds0 markup Hid Htot).
  set (p1 := mkPage (Some id) total0 timerSeconds0 (QArray (q :: qs)) 0 ∅
               (setQuestionArea AreaMarkup markup)
               (mkEnv true false false [] 0 [] None)).
  change (step _ _) with (startTimer (renderQuestion p1)).
  destruct (renderQuestion_Active (q :: qs) p1)
    as (HA & Hi & Ha & He & Hts & _ & _);
    [reflexivity | reflexivity | reflexivity | cbn; lia |].
  destruct (startTimer_frame (renderQuestion p1))
    as (Hi' & Ha' & Hts' & Hiv & Hreq & Hloc & Htxt & Hst).
  rewrite Hi', Ha', Hts', Hiv, Hreq, Hloc, Htxt, Hst, Hi, Ha, He, Hts.
  split; [now apply startTimer_Active |].
  repeat (split; [reflexivity |]).
  intros Hlt. cbn [timerSeconds p1].
  destruct (Z.ltb_spec timerSeconds0 30); [reflexivity | lia].
Qed.

(** *** Navigation *)

Lemma shown_inline_flex (b : bool) :
  shown (if b then "inline-flex" else "none") = b.
Proof. now destruct b. Qed.

Lemma Active_navigation (qs : list Question) (p : Page) :
  Active qs p ->
  let len := Z.of_nat (List.length qs) in
  0 <= currentIndex p < len
  /\ prevDisabled (dom p) = (currentIndex p =? 0)
  /\ shown (nextDisplay (dom p)) = (currentIndex p <? len - 1)
  /\ shown (submitDisplay (dom p)) = (currentIndex p =? len - 1)
  /\ (currentIndex p = 0 -> onPrev p = p /\ step p ClickPrev = p)
  /\ (currentIndex p = len - 1 -> onNext p = p /\ step p ClickNext = p)
  /\ (location (env p) = None -> 0 < currentIndex p ->
      currentIndex (step p ClickPrev) = currentIndex p - 1)
  /\ (location (env p) = None -> currentIndex p < len - 1 ->
      currentIndex (step p ClickNext) = currentIndex p + 1)
  /\ (forall ev, ev <> ClickPrev -> ev <> ClickNext ->
      currentIndex (step p ev) = currentIndex p).
Proof.
  intros HA len.
  pose proof HA as (Hq & Hl & Hf & Hi & Hp & Hn & Hs & q & sel & Hat & Har).
  repeat split; try lia; auto.
  - rewrite Hn. apply shown_inline_flex.
  - rewrite Hs. apply shown_inline_flex.
  - unfold onPrev. destruct (Z.ltb_spec 0 (currentIndex p)); [lia | reflexivity].
  - unfold step, deliverable. rewrite Hp, Hl.
    destruct (Z.eqb_spec (currentIndex p) 0); [| lia].
    now destruct (location (env p)).
  - unfold onNext. rewrite Hq. fold len.
    destruct (Z.ltb_spec (currentIndex p) (len - 1)); [lia | reflexivity].
  - unfold step, deliverable. rewrite Hn, Hl, shown_inline_flex. fold len.
    destruct (Z.ltb_spec (currentIndex p) (len - 1)); [lia |].
    now destruct (location (env p)).
  - intros Hloc Hpos. unfold step, deliverable. rewrite Hloc, Hp, Hl.
    destruct (Z.eqb_spec (currentIndex p) 0); [lia |].
    cbn [andb negb handle]. unfold onPrev.
    destruct (Z.ltb_spec 0 (currentIndex p)); [| lia].
    destruct (renderQuestion_Active qs (setCurrentIndex (currentIndex p - 1) p))
      as (_ & -> & _); destruct_page p; auto; lia.
  - intros Hloc Hlt. unfold step, deliverable.
    rewrite Hloc, Hn, Hl, shown_inline_flex. fold len.
    destruct (Z.ltb_spec (currentIndex p) (len - 1)); [| lia].
    cbn [andb handle]. unfold onNext. rewrite Hq. fold len.
    destruct (Z.ltb_spec (currentIndex p) (len - 1)); [| lia].
    destruct (renderQuestion_Active qs (setCurrentIndex (currentIndex p + 1) p))
      as (_ & -> & _); destruct_page p; auto; lia.
  - intros ev Hne1 Hne2. unfold step.
    destruct (deliverable p ev) eqn:Hd; [| reflexivity].
    destruct ev; try contradiction; cbn [handle].
    + unfold deliverable in Hd. rewrite Hf in Hd.
      destruct (location (env p)); discriminate.
    + unfold submitQuiz. rewrite Hq. reflexivity.
    + unfold onChange. rewrite Har. now destruct (mbind _ _).
    + unfold onTick, submitQuiz, updateTimerDisplay.
      destruct_page p. subst.
      repeat match goal with
             | |- context [if ?b then _ else _] => destruct b
             end; reflexivity.
    + unfold onSubmitSettled.
      destruct r as [ok redirect error |];
        repeat match goal with
               | |- context [if ?b then _ else _] => destruct b
               end; reflexivity.
Qed.

(** C3.  In a session opened on a non-empty list of questions, after any
    sequence of events the index lies in [0, length-1]; the Previous button
    is disabled exactly at index 0, where its handler changes nothing; Next
    is shown exactly below the last index and Submit exactly at the last
    index, where the Next handler changes nothing; a Previous click above
    index 0 lowers the index by one, a Next click below the last index raises
    it by one, and no other event moves it. *)
Theorem navigation_in_range (id : string) (total0 timerSeconds0 : Z)
    (markup : Dom) (q : Question) (qs : list Question) (evs : list Event) :
  truthy id = true -> total0 <> 0 ->
  let len := Z.of_nat (List.length (q :: qs)) in
  let p0 := opened id total0 timerSeconds0 markup
              (FetchJson (Some (QArray (q :: qs)))) in
  let p := run evs p0 in
  currentIndex p0 = 0
  /\ 0 <= currentIndex p < len
  /\ prevDisabled (dom p) = (currentIndex p =? 0)
  /\ shown (nextDisplay (dom p)) = (currentIndex p <? len - 1)
  /\ shown (submitDisplay (dom p)) = (currentIndex p =? len - 1)
  /\ (currentIndex p = 0 -> onPrev p = p /\ step p ClickPrev = p)
  /\ (currentIndex p = len - 1 -> onNext p = p /\ step p ClickNext = p)
  /\ (location (env p) = None -> 0 < currentIndex p ->
      currentIndex (step p ClickPrev) = currentIndex p - 1)
  /\ (location (env p) = None -> currentIndex p < len - 1 ->
      currentIndex (step p ClickNext) = currentIndex p + 1)
  /\ (forall ev, ev <> ClickPrev -> ev <> ClickNext ->
      currentIndex (step p ev) = currentIndex p).
Proof.
  intros Hid Htot len p0 p.
  destruct (opened_Active id total0 timerSeconds0 markup q qs Hid Htot)
    as (HA & H0 & _).
  split; [exact H0 |].
  apply Active_navigation, Active_run, HA.
Qed.

(** *** What each handler leaves alone *)

Ltac split_cases :=
  repeat match goal with
         | |- context [match ?x with _ => _ end] =>
             match type of x with
             | sumbool _ _ => fail 1
             | _ => destruct x eqn:?
             end
         end.

Lemma renderQuestion_frame (p : Page) :
  let p' := renderQuestion p in
  quizId p' = quizId p /\ total p' = total p
  /\ timerSeconds p' = timerSeconds p /\ questions p' = questions p
  /\ currentIndex p' = currentIndex p /\ answers p' = answers p
  /\ env p' = env p
  /\ timerText (dom p') = timerText (dom p)
  /\ timerStyle (dom p') = timerStyle (dom p).
Proof.
  unfold renderQuestion.
  destruct (questions p) as [qs | v] eqn:Hq.
  - destruct (questionAt qs (currentIndex p)); [| now rewrite Hq].
    destruct_page p. now subst.
  - destruct (o_elem v (currentIndex p)); try (now rewrite Hq).
    destruct_page p. now subst.
Qed.

Lemma renderQuestion_timerView (p : Page) :
  timerView (renderQuestion p) = timerView p.
Proof.
  destruct (renderQuestion_frame p) as (_ & _ & H1 & _ & _ & _ & H2 & H3 & H4).
  unfold timerView. now rewrite H1, H2, H3, H4.
Qed.

Lemma onPrev_cases (p : Page) :
  onPrev p = p
  \/ onPrev p = renderQuestion (setCurrentIndex (currentIndex p - 1) p).
Proof. unfold onPrev. destruct (0 <? currentIndex p); auto. Qed.

Lemma onNext_cases (p : Page) :
  onNext p = p
  \/ onNext p = renderQuestion (setCurrentIndex (currentIndex p + 1) p).
Proof.
  unfold onNext.
  destruct (questions p) as [qs | v];
    [destruct (currentIndex p <? _) | destruct (o_below v _)]; auto.
Qed.


(** Navigation changes the index and the document, nothing else. *)
Lemma nav_frame (p p' : Page) :
  p' = onPrev p \/ p' = onNext p ->
  quizId p' = quizId p /\ total p' = total p
  /\ timerSeconds p' = timerSeconds p /\ questions p' = questions p
  /\ answers p' = answers p /\ env p' = env p
  /\ timerText (dom p') = timerText (dom p)
  /\ timerStyle (dom p') = timerStyle (dom p).
Proof.
  intros [-> | ->];
    [destruct (onPrev_cases p) as [-> | ->] | destruct (onNext_cases p) as [-> | ->]];
    try (repeat split; reflexivity);
    match goal with
    | |- context [renderQuestion ?x] =>
        destruct (renderQuestion_frame x) as (H1 & H2 & H3 & H4 & _ & H6 & H7 & H8 & H9)
    end;
    rewrite H1, H2, H3, H4, H6, H7, H8, H9; repeat split; reflexivity.
Qed.

(** Only a tick and the settling of the question fetch touch the timer. *)
Lemma step_timerView (p : Page) (ev : Event) :
  ev <> Tick -> (forall r, ev <> Fetched r) ->
  timerView (step p ev) = timerView p.
Proof.
  intros HT HF. unfold step.
  destruct (deliverable p ev); [| reflexivity].
  destruct ev as [r | | | | i | | r]; cbn [handle];
    [now destruct (HF r) | | | | | congruence |].
  - destruct (onPrev_cases p) as [-> | ->]; [reflexivity |].
    now rewrite renderQuestion_timerView.
  - destruct (onNext_cases p) as [-> | ->]; [reflexivity |].
    now rewrite renderQuestion_timerView.
  - unfold submitQuiz. destruct (questions p); reflexivity.
  - unfold onChange. destruct (questionArea (dom p)); try reflexivity.
    destruct (radios !! i ≫= r_value); reflexivity.
  - unfold onSubmitSettled. destruct r as [ok redirect error |]; [| reflexivity].
    destruct (ok && truthy redirect); reflexivity.
Qed.

(** *** The urgent style *)

Lemma updateTimerDisplay_style (p : Page) :
  timerStyle (dom (updateTimerDisplay p))
  = if timerSeconds p <? 30 then urgentStyle else timerStyle (dom p).
Proof. unfold updateTimerDisplay. now destruct (timerSeconds p <? 30). Qed.

Lemma updateTimerDisplay_frame (p : Page) :
  let p' := updateTimerDisplay p in
  timerSeconds p' = timerSeconds p
  /\ timerText (dom p') = formatDuration (timerSeconds p)
  /\ env p' = env p /\ questions p' = questions p
  /\ answers p' = answers p /\ quizId p' = quizId p
  /\ currentIndex p' = currentIndex p.
Proof. unfold updateTimerDisplay. now destruct (timerSeconds p <? 30). Qed.

Lemma submitQuiz_dom (p : Page) :
  dom (submitQuiz p) = dom p /\ timerSeconds (submitQuiz p) = timerSeconds p.
Proof. unfold submitQuiz. now destruct (questions p). Qed.

Lemma onTick_style (p : Page) :
  timerStyle (dom (onTick p))
  = if timerSeconds p - 1 <=? 0 then timerStyle (dom p)
    else if timerSeconds p - 1 <? 30 then urgentStyle
    else timerStyle (dom p).
Proof.
  unfold onTick. cbn [timerSeconds setTimerSeconds].
  destruct (timerSeconds p - 1 <=? 0).
  - now destruct (submitQuiz_dom
                    (setEnv (setInterval false (env (setTimerSeconds (timerSeconds p - 1) p)))
                       (setTimerSeconds (timerSeconds p - 1) p))) as [-> _].
  - now rewrite updateTimerDisplay_style.
Qed.

Lemma onTick_timerSeconds (p : Page) :
  timerSeconds (onTick p) = timerSeconds p - 1.
Proof.
  unfold onTick. cbn [timerSeconds setTimerSeconds].
  destruct (timerSeconds p - 1 <=? 0).
  - now destruct (submitQuiz_dom
                    (setEnv (setInterval false (env (setTimerSeconds (timerSeconds p - 1) p)))
                       (setTimerSeconds (timerSeconds p - 1) p))) as [_ ->].
  - now destruct (updateTimerDisplay_frame (setTimerSeconds (timerSeconds p - 1) p))
      as (-> & _).
Qed.

Lemma onFetched_style (r : FetchResult) (p : Page) :
  timerSeconds (onFetched r p) = timerSeconds p
  /\ (timerStyle (dom (onFetched r p)) = timerStyle (dom p)
      \/ timerSeconds p < 30 /\ timerStyle (dom (onFetched r p)) = urgentStyle).
Proof.
  unfold onFetched. destruct r as [| v]; [split; [| left]; reflexivity |].
  cbn [questions setQuestions].
  destruct (default (QArray []) v) as [[| q qs] | w];
    try (split; [| left]; reflexivity).
  set (p1 := renderQuestion _).
  destruct (renderQuestion_frame
              (setQuestions (QArray (q :: qs)) (setEnv (setFetching false (env p)) p)))
    as (_ & _ & Hts & _ & _ & _ & _ & _ & Hst).
  fold p1 in Hts, Hst.
  destruct (startTimer_frame p1) as (_ & _ & Hts' & _ & _ & _ & _ & Hst').
  rewrite Hts', Hst', Hts, Hst. cbn [timerSeconds setQuestions setEnv dom].
  split; [reflexivity |].
  destruct (Z.ltb_spec (timerSeconds p) 30); auto.
Qed.

Lemma timerView_style (p p' : Page) :
  timerView p' = timerView p ->
  timerSeconds p' = timerSeconds p /\ timerStyle (dom p') = timerStyle (dom p)
  /\ timerText (dom p') = timerText (dom p) /\ interval (env p') = interval (env p).
Proof. unfold timerView. intros H. now inversion H. Qed.

Ltac other_event p :=
  match goal with
  | |- context [step p ?e] =>
      let H := fresh "Hview" in
      assert (H : timerView (step p e) = timerView p)
        by (apply step_timerView; congruence);
      apply timerView_style in H;
      destruct H as (Hsec & Hsty & Htxt & Hint)
  end.

Lemma step_style (p : Page) (ev : Event) :
  timerStyle (dom (step p ev)) = timerStyle (dom p)
  \/ timerStyle (dom (step p ev)) = urgentStyle.
Proof.
  destruct ev as [r | | | | i | | r]; try (other_event p; now left).
  - unfold step. destruct (deliverable p (Fetched r)); [| now left].
    cbn [handle]. destruct (onFetched_style r p) as (_ & [H | [_ H]]); auto.
  - unfold step. destruct (deliverable p Tick); [| now left].
    cbn [handle]. rewrite onTick_style.
    destruct (timerSeconds p - 1 <=? 0); [now left |].
    destruct (timerSeconds p - 1 <? 30); auto.
Qed.

Lemma step_keeps_urgent (p : Page) (ev : Event) :
  timerStyle (dom p) = urgentStyle -> timerStyle (dom (step p ev)) = urgentStyle.
Proof. intros Hu. destruct (step_style p ev) as [H | H]; congruence. Qed.

Lemma run_keeps_urgent (evs : list Event) : forall p : Page,
  timerStyle (dom p) = urgentStyle -> timerStyle (dom (run evs p)) = urgentStyle.
Proof.
  induction evs as [| ev evs IH]; intros p Hu; [exact Hu |].
  apply IH, step_keeps_urgent, Hu.
Qed.

Lemma step_UrgentBelow30 (p : Page) (ev : Event) :
  UrgentBelow30 p -> UrgentBelow30 (step p ev).
Proof.
  unfold UrgentBelow30. intros HJ.
  destruct ev as [r | | | | i | | r];
    try (other_event p; rewrite Hsec, Hsty; exact HJ).
  - unfold step. destruct (deliverable p (Fetched r)); [| exact HJ].
    cbn [handle]. destruct (onFetched_style r p) as (Hts & [H | [_ H]]).
    + rewrite Hts, H. exact HJ.
    + intros _. exact H.
  - unfold step. destruct (deliverable p Tick); [| exact HJ].
    cbn [handle]. rewrite onTick_style, onTick_timerSeconds.
    destruct (Z.leb_spec (timerSeconds p - 1) 0); [intros; apply HJ; lia |].
    destruct (Z.ltb_spec (timerSeconds p - 1) 30); [reflexivity | lia].
Qed.

Lemma run_UrgentBelow30 (evs : list Event) : forall p : Page,
  UrgentBelow30 p -> UrgentBelow30 (run evs p).
Proof.
  induction evs as [| ev evs IH]; intros p HJ; [exact HJ |].
  apply IH, step_UrgentBelow30, HJ.
Qed.

Lemma step_fetching (p : Page) (ev : Event) :
  fetching (env p) = false -> fetching (env (step p ev)) = false.
Proof.
  intros Hf. unfold step.
  destruct (deliverable p ev) eqn:Hd; [| exact Hf].
  destruct ev; cbn [handle].
  - unfold deliverable in Hd. rewrite Hf in Hd.
    destruct (location (env p)); discriminate.
  - now destruct (nav_frame p (onPrev p)) as (_ & _ & _ & _ & _ & -> & _); auto.
  - now destruct (nav_frame p (onNext p)) as (_ & _ & _ & _ & _ & -> & _); auto.
  - unfold submitQuiz. now destruct (questions p).
  - unfold onChange. destruct (questionArea (dom p)); try exact Hf.
    now destruct (radios !! i ≫= r_value).
  - unfold onTick, submitQuiz, updateTimerDisplay. destruct_page p.
    split_cases; cbn; auto.
  - unfold onSubmitSettled. destruct r as [ok redirect error |]; [| exact Hf].
    now destruct (ok && truthy redirect).
Qed.

(** Until fewer than 30 seconds remain, the timer looks as the page
    shipped it. *)
Lemma opened_calm (id : string) (total0 timerSeconds0 : Z) (markup : Dom)
    (q : Question) (qs : list Question) :
  truthy id = true -> total0 <> 0 -> 30 <= timerSeconds0 ->
  timerStyle (dom (opened id total0 timerSeconds0 markup
                     (FetchJson (Some (QArray (q :: qs))))))
  = timerStyle markup.
Proof.
  intros Hid Htot Hge. unfold opened.
  rewrite (initQuizPage_started id total0 timerSeconds0 markup Hid Htot).
  set (p1 := mkPage (Some id) total0 timerSeconds0 (QArray (q :: qs)) 0 ∅
               (setQuestionArea AreaMarkup markup)
               (mkEnv true false false [] 0 [] None)).
  change (step _ _) with (startTimer (renderQuestion p1)).
  destruct (renderQuestion_frame p1) as (_ & _ & Hts & _ & _ & _ & _ & _ & Hst).
  destruct (startTimer_frame (renderQuestion p1)) as (_ & _ & _ & _ & _ & _ & _ & Hst').
  rewrite Hst', Hts, Hst. cbn [timerSeconds p1].
  destruct (Z.ltb_spec timerSeconds0 30); [lia | reflexivity].
Qed.

Lemma step_calm (s0 : Style) (p : Page) (ev : Event) :
  fetching (env p) = false ->
  (30 <= timerSeconds p -> timerStyle (dom p) = s0) ->
  30 <= timerSeconds (step p ev) -> timerStyle (dom (step p ev)) = s0.
Proof.
  intros Hf HJ.
  destruct ev as [r | | | | i | | r];
    try (other_event p; rewrite Hsec, Hsty; exact HJ).
  - unfold step, deliverable. rewrite Hf.
    destruct (location (env p)); exact HJ.
  - unfold step. destruct (deliverable p Tick); [| exact HJ].
    cbn [handle]. rewrite onTick_style, onTick_timerSeconds. intros Hge.
    destruct (Z.leb_spec (timerSeconds p - 1) 0); [lia |].
    destruct (Z.ltb_spec (timerSeconds p - 1) 30); [lia |].
    apply HJ. lia.
Qed.

Lemma run_calm (s0 : Style) (evs : list Event) : forall p : Page,
  fetching (env p) = false ->
  (30 <= timerSeconds p -> timerStyle (dom p) = s0) ->
  30 <= timerSeconds (run evs p) -> timerStyle (dom (run evs p)) = s0.
Proof.
  induction evs as [| ev evs IH]; intros p Hf HJ; [exact HJ |].
  apply IH; [now apply step_fetching | now apply step_calm].
Qed.

(** C8.  In a session opened on a non-empty list of questions with a number
    of seconds in the range of exact integers: while 30 seconds or more
    remain the timer has the style the page shipped it with; whenever fewer
    than 30 seconds remain it has the urgent style, background [#fee2e2],
    colour [#991b1b] and border colour [#fecaca]; once the timer has this
    style, no later event of the session removes it; and this holds from any
    page and for any value of the remaining seconds, also one of 30 or more
    put back into the timer: neither a refresh of the display nor any sequence
    of events removes the style. *)
Theorem urgent_style_permanent (id : string) (total0 timerSeconds0 : Z)
    (markup : Dom) (q : Question) (qs : list Question) (evs : list Event) :
  truthy id = true -> total0 <> 0 ->
  - maxExact < timerSeconds0 <= maxExact ->
  let urgent := mkStyle "#fee2e2" "#991b1b" "#fecaca" in
  let p := run evs (opened id total0 timerSeconds0 markup
                      (FetchJson (Some (QArray (q :: qs))))) in
  (30 <= timerSeconds p -> timerStyle (dom p) = timerStyle markup)
  /\ (timerSeconds p < 30 -> timerStyle (dom p) = urgent)
  /\ (timerStyle (dom p) = urgent ->
      forall later, timerStyle (dom (run later p)) = urgent)
  /\ (forall (p' : Page) (t : Z) (later : list Event),
        timerStyle (dom p') = urgent ->
        timerStyle (dom (updateTimerDisplay (setTimerSeconds t p'))) = urgent
        /\ timerStyle (dom (run later (setTimerSeconds t p'))) = urgent).
Proof.
  intros Hid Htot _ urgent p.
  destruct (opened_Active id total0 timerSeconds0 markup q qs Hid Htot)
    as (HA & _ & _ & Hts & _ & _ & _ & _ & Hst).
  split; [| repeat split].
  - apply run_calm.
    + now destruct HA as (_ & _ & Hf & _).
    + rewrite Hts. now apply opened_calm.
  - apply run_UrgentBelow30.
    unfold UrgentBelow30. rewrite Hts. exact Hst.
  - intros Hu later. now apply run_keeps_urgent.
  - rewrite updateTimerDisplay_style. cbn [timerSeconds setTimerSeconds dom].
    now destruct (t <? 30).
  - now apply run_keeps_urgent.
Qed.

(** *** The display at expiry *)

Lemma formatDuration_positive (v : Z) : 0 < v -> formatDuration v <> "0:00".
Proof.
  intros Hv. destruct (Z_lt_le_dec v 3600) as [Hlt | Hge].
  - assert (H : (v =? 0) || negb (String.eqb (formatDuration v) "0:00") = true).
    { apply (checkBelow_sound
               (fun v => (v =? 0) || negb (String.eqb (formatDuration v) "0:00"))
               3600); [vm_compute; reflexivity | lia]. }
    destruct (Z.eqb_spec v 0); [lia |]. cbn [orb] in H.
    apply negb_true_iff in H. now apply String.eqb_neq.
  - unfold formatDuration. cbv zeta.
    assert (Hh : 0 < v / 3600) by (apply Z.div_str_pos; lia).
    destruct (Z.ltb_spec 0 (v / 3600)); [| lia].
    destruct (toString_leading (v / 3600) Hh) as (c & r & -> & Hc & _).
    cbn [String.append]. intros Heq. injection Heq as Hc0 _.
    subst c. discriminate.
Qed.

Lemma onTick_expiry (p : Page) :
  timerSeconds p - 1 <= 0 ->
  timerView (onTick p)
  = (timerSeconds p - 1, timerText (dom p), timerStyle (dom p), false)
  /\ requests (env (onTick p))
     = match questions p with
       | QArray qs => buildPayload p qs :: requests (env p)
       | QOther _ => requests (env p)
       end.
Proof.
  intros Hle. unfold onTick. cbn [timerSeconds setTimerSeconds].
  destruct (Z.leb_spec (timerSeconds p - 1) 0); [| lia].
  unfold submitQuiz. destruct_page p.
  destruct questions0; cbn; auto.
Qed.

Lemma onTick_running (p : Page) :
  0 < timerSeconds p - 1 ->
  timerSeconds (onTick p) = timerSeconds p - 1
  /\ timerText (dom (onTick p)) = formatDuration (timerSeconds p - 1)
  /\ env (onTick p) = env p.
Proof.
  intros Hpos. unfold onTick. cbn [timerSeconds setTimerSeconds].
  destruct (Z.leb_spec (timerSeconds p - 1) 0); [lia |].
  destruct (updateTimerDisplay_frame (setTimerSeconds (timerSeconds p - 1) p))
    as (H1 & H2 & H3 & _).
  now rewrite H1, H2, H3.
Qed.

Lemma step_Countdown (p : Page) (ev : Event) :
  Countdown p -> Countdown (step p ev).
Proof.
  intros (Hf & Hon & Hoff).
  split; [now apply step_fetching |].
  destruct ev as [r | | | | i | | r];
    try (other_event p; rewrite Hsec, Htxt, Hint; exact (conj Hon Hoff)).
  - unfold step, deliverable. rewrite Hf.
    destruct (location (env p)); exact (conj Hon Hoff).
  - unfold step. destruct (deliverable p Tick) eqn:Hd; [| exact (conj Hon Hoff)].
    cbn [handle].
    assert (Hiv : interval (env p) = true).
    { unfold deliverable in Hd. now destruct (location (env p)). }
    destruct (Hon Hiv) as [Hge Htxt].
    destruct (Z_le_gt_dec (timerSeconds p - 1) 0) as [Hle | Hgt].
    + destruct (onTick_expiry p Hle) as [Hv _].
      apply (timerView_style
               (setTimerSeconds (timerSeconds p - 1)
                  (setEnv (setInterval false (env p)) p))) in Hv.
      destruct Hv as (H1 & _ & H3 & H4). cbn in H1, H3, H4.
      rewrite H1, H3, H4. split; [discriminate |].
      intros _. split; [lia |]. rewrite Htxt. f_equal. lia.
    + destruct (onTick_running p) as (H1 & H2 & H3); [lia |].
      rewrite H1, H2, H3. split; [intros _; split; [lia | reflexivity] |].
      rewrite Hiv. discriminate.
Qed.

Lemma run_Countdown (evs : list Event) : forall p : Page,
  Countdown p -> Countdown (run evs p).
Proof.
  induction evs as [| ev evs IH]; intros p HC; [exact HC |].
  apply IH, step_Countdown, HC.
Qed.

(** C10, as amended.  In a session opened with a positive number of seconds,
    after any sequence of events the timer shows the format of a positive
    number of seconds and never reads [0:00]; on the tick that brings the
    remaining seconds to zero or below the interval is cleared, one
    submission is sent and the display is left as it was; from then on the
    display reads [0:01]. *)
Theorem display_stays_positive (id : string) (total0 timerSeconds0 : Z)
    (markup : Dom) (q : Question) (qs : list Question) (evs : list Event) :
  truthy id = true -> total0 <> 0 -> 0 < timerSeconds0 ->
  let p := run evs (opened id total0 timerSeconds0 markup
                      (FetchJson (Some (QArray (q :: qs))))) in
  timerText (dom p) <> "0:00"
  /\ (exists v, 0 < v /\ timerText (dom p) = formatDuration v)
  /\ (interval (env p) = false -> timerText (dom p) = "0:01")
  /\ (deliverable p Tick = true -> timerSeconds p - 1 <= 0 ->
      interval (env (step p Tick)) = false
      /\ timerText (dom (step p Tick)) = timerText (dom p)
      /\ exists body, requests (env (step p Tick)) = body :: requests (env p)).
Proof.
  intros Hid Htot Hpos p.
  destruct (opened_Active id total0 timerSeconds0 markup q qs Hid Htot)
    as (HA & _ & _ & Hts & Hiv & _ & _ & Htxt & _).
  assert (HC : Countdown p).
  { apply run_Countdown. destruct HA as (_ & _ & Hf & _).
    split; [exact Hf |]. rewrite Hiv, Hts, Htxt.
    split; [intros _; split; [lia | reflexivity] | discriminate]. }
  assert (HAp : Active (q :: qs) p) by (apply Active_run, HA).
  destruct HC as (_ & Hon & Hoff).
  assert (Hex : exists v, 0 < v /\ timerText (dom p) = formatDuration v).
  { destruct (interval (env p)).
    - destruct Hon as [Hge Ht]; [reflexivity |]. exists (timerSeconds p).
      split; [lia | exact Ht].
    - destruct Hoff as [_ Ht]; [reflexivity |]. exists 1. split; [lia | exact Ht]. }
  split; [destruct Hex as (v & Hv & ->); now apply formatDuration_positive |].
  split; [exact Hex |].
  split; [intros Hoff'; now destruct (Hoff Hoff') as [_ ->] |].
  intros Hd Hle. unfold step. rewrite Hd. cbn [handle].
  destruct (onTick_expiry p Hle) as [Hv Hr].
  apply (timerView_style
           (setTimerSeconds (timerSeconds p - 1)
              (setEnv (setInterval false (env p)) p))) in Hv.
  destruct Hv as (_ & _ & Htxt' & Hiv').
  split; [exact Hiv' |]. split; [exact Htxt' |].
  destruct HAp as (Hq & _). rewrite Hq in Hr. eauto.
Qed.

(** C10, the claim as stated fails: with zero seconds configured (the value
    the script falls back to when the page gives none) the timer starts and
    the display reads [0:00]. *)
Lemma display_shows_zero :
  let p := opened "7" 1 0 markupSubmitHidden (FetchJson (Some (QArray [capital]))) in
  interval (env p) = true /\ timerSeconds p = 0 /\ timerText (dom p) = "0:00".
Proof. vm_compute. auto. Qed.

(** *** Submissions *)

Lemma step_requests_other (p : Page) (ev : Event) :
  ev <> Tick -> ev <> ClickSubmit ->
  requests (env (step p ev)) = requests (env p).
Proof.
  intros HT HS. unfold step.
  destruct (deliverable p ev); [| reflexivity].
  destruct ev; cbn [handle]; try congruence.
  - unfold onFetched. destruct r as [| v]; [reflexivity |].
    cbn [questions setQuestions].
    destruct (default (QArray []) v) as [[| q qs] | w]; try reflexivity.
    unfold startTimer. cbn [env setEnv requests setInterval].
    destruct (updateTimerDisplay_frame
                (renderQuestion
                   (setQuestions (QArray (q :: qs))
                      (setEnv (setFetching false (env p)) p))))
      as (_ & _ & -> & _).
    now destruct (renderQuestion_frame
                    (setQuestions (QArray (q :: qs))
                       (setEnv (setFetching false (env p)) p)))
      as (_ & _ & _ & _ & _ & _ & -> & _).
  - now destruct (nav_frame p (onPrev p)) as (_ & _ & _ & _ & _ & -> & _); auto.
  - now destruct (nav_frame p (onNext p)) as (_ & _ & _ & _ & _ & -> & _); auto.
  - unfold onChange. destruct (questionArea (dom p)); try reflexivity.
    now destruct (radios !! i ≫= r_value).
  - unfold onSubmitSettled. destruct r as [ok redirect error |]; [| reflexivity].
    now destruct (ok && truthy redirect).
Qed.

(** One step of a running session: a delivered Submit click sends one
    request, the tick of expiry sends one request and clears the interval,
    nothing else sends anything or touches the interval. *)
Lemma step_requests (qs : list Question) (p : Page) (ev : Event) :
  Active qs p ->
  (List.length (requests (env (step p ev))) + expired p
   = List.length (requests (env p))
     + (if isSubmitClick ev && deliverable p ev then 1 else 0)
     + expired (step p ev))%nat.
Proof.
  intros HA. pose proof HA as (Hq & _ & Hf & _).
  destruct ev as [r | | | | i | | r];
    try (rewrite step_requests_other by congruence;
         other_event p; unfold expired; rewrite Hint;
         cbn [isSubmitClick andb]; lia).
  - unfold step, deliverable. rewrite Hf. cbn [isSubmitClick andb].
    destruct (location (env p)); lia.
  - unfold step. cbn [isSubmitClick andb].
    destruct (deliverable p ClickSubmit); cbv iota; [| lia].
    cbn [handle]. unfold submitQuiz, expired. rewrite Hq.
    cbn [env setEnv post requests interval List.length]. lia.
  - unfold step. cbn [isSubmitClick andb].
    destruct (deliverable p Tick) eqn:Hd; cbv iota; [| lia].
    cbn [handle].
    assert (Hiv : interval (env p) = true).
    { unfold deliverable in Hd. now destruct (location (env p)). }
    destruct (Z_le_gt_dec (timerSeconds p - 1) 0) as [Hle | Hgt].
    + destruct (onTick_expiry p Hle) as [Hv Hr].
      apply (timerView_style
               (setTimerSeconds (timerSeconds p - 1)
                  (setEnv (setInterval false (env p)) p))) in Hv.
      destruct Hv as (_ & _ & _ & H4). cbn in H4.
      unfold expired. rewrite H4, Hiv, Hr, Hq. cbn [List.length]. lia.
    + destruct (onTick_running p) as (_ & _ & H3); [lia |].
      unfold expired. rewrite H3. lia.
Qed.

Lemma run_requests (qs : list Question) (evs : list Event) : forall p : Page,
  Active qs p ->
  (List.length (requests (env (run evs p))) + expired p
   = List.length (requests (env p)) + deliveredSubmits p evs
     + expired (run evs p))%nat.
Proof.
  induction evs as [| ev evs IH]; intros p HA.
  - cbn. lia.
  - pose proof (step_requests qs p ev HA) as Hs.
    pose proof (IH (step p ev) (Active_step qs p ev HA)) as Hr.
    change (run (ev :: evs) p) with (run evs (step p ev)).
    cbn [deliveredSubmits]. lia.
Qed.

Lemma step_interval_off (qs : list Question) (p : Page) (ev : Event) :
  Active qs p -> interval (env p) = false ->
  interval (env (step p ev)) = false.
Proof.
  intros HA Hoff. pose proof HA as (_ & _ & Hf & _).
  destruct ev as [r | | | | i | | r]; try (other_event p; congruence).
  - unfold step, deliverable. rewrite Hf. now destruct (location (env p)).
  - unfold step, deliverable. rewrite Hoff. now destruct (location (env p)).
Qed.

Lemma run_interval_off (qs : list Question) (evs : list Event) : forall p : Page,
  Active qs p -> interval (env p) = false ->
  interval (env (run evs p)) = false.
Proof.
  induction evs as [| ev evs IH]; intros p HA Hoff; [exact Hoff |].
  apply IH; [now apply Active_step | now apply (step_interval_off qs)].
Qed.

(** C1, as amended.  In a session opened on a non-empty list of questions,
    the number of requests sent to [/submit] after any sequence of events is
    the number of Submit clicks that reached the handler, plus one if the
    timer has expired.  The timer sends at most one request: once its
    interval is cleared it stays cleared and a tick changes nothing. *)
Theorem submissions_counted (id : string) (total0 timerSeconds0 : Z)
    (markup : Dom) (q : Question) (qs : list Question) (evs : list Event) :
  truthy id = true -> total0 <> 0 ->
  let p0 := opened id total0 timerSeconds0 markup
              (FetchJson (Some (QArray (q :: qs)))) in
  let p := run evs p0 in
  List.length (requests (env p)) = (deliveredSubmits p0 evs + expired p)%nat
  /\ (interval (env p) = false ->
      step p Tick = p
      /\ forall later, interval (env (run later p)) = false
                       /\ List.length (requests (env (run later p)))
                          = (List.length (requests (env p))
                             + deliveredSubmits p later)%nat).
Proof.
  intros Hid Htot p0 p.
  destruct (opened_Active id total0 timerSeconds0 markup q qs Hid Htot)
    as (HA & _ & _ & _ & Hiv & Hreq & _).
  fold p0 in HA, Hiv, Hreq.
  assert (HAp : Active (q :: qs) p) by (apply Active_run, HA).
  split.
  - pose proof (run_requests (q :: qs) evs p0 HA) as H. fold p in H.
    unfold expired at 1 in H. rewrite Hiv, Hreq in H. cbn [List.length] in H. lia.
  - intros Hoff. split.
    + unfold step, deliverable. rewrite Hoff. now destruct (location (env p)).
    + intros later.
      pose proof (run_interval_off (q :: qs) later p HAp Hoff) as Hoff'.
      split; [exact Hoff' |].
      pose proof (run_requests (q :: qs) later p HAp) as H.
      unfold expired in H. rewrite Hoff, Hoff' in H. lia.
Qed.

(** C1, the claim as stated fails: in a one-question session two Submit
    clicks send two requests, and so do a Submit click and the tick on which
    the timer expires. *)
Lemma submitted_twice :
  let p0 := opened "7" 1 1 markupSubmitHidden (FetchJson (Some (QArray [capital]))) in
  deliverable p0 ClickSubmit = true
  /\ List.length (requests (env (run [ClickSubmit; ClickSubmit] p0))) = 2%nat
  /\ List.length (requests (env (run [ClickSubmit; Tick] p0))) = 2%nat.
Proof. vm_compute. auto. Qed.

(** *** A failed load *)










(** After a value that is not an array but has a length and elements (an
    object with the properties [length], [0] and [1]), the placeholder does
    not stay: a Next click passes the guard of line 87 and renders the
    element at index 1.  The timer is still not started and a Submit click
    sends nothing. *)
Example placeholder_replaced :
  let v := arrayLike [EQuestion capital; EQuestion planet] in
  let p0 := opened "7" 2 60 markupSubmitHidden (FetchJson (Some (QOther v))) in
  failing (FetchJson (Some (QOther v))) = true
  /\ questionArea (dom p0) = AreaMessage "No questions could be loaded."
  /\ deliverable p0 ClickNext = true
  /\ (exists radios,
        questionArea (dom (step p0 ClickNext)) = AreaQuestion planet 2 radios)
  /\ progressText (dom (step p0 ClickNext)) = "Question 2 of 2"
  /\ interval (env (step p0 ClickNext)) = false
  /\ deliverable (step p0 ClickNext) ClickSubmit = true
  /\ requests (env (run [ClickNext; ClickSubmit] p0)) = [].
Proof. vm_compute. repeat split; eauto. Qed.

(** ** Escaping and reading back *)

Lemma append_cons (c : ascii) (s1 s2 : string) :
  String c s1 +:+ s2 = String c (s1 +:+ s2).
Proof. reflexivity. Qed.

Lemma append_assoc (s1 s2 s3 : string) :
  (s1 +:+ s2) +:+ s3 = s1 +:+ (s2 +:+ s3).
Proof.
  induction s1 as [| c s1 IH]; [reflexivity |].
  now rewrite !append_cons, IH.
Qed.

Lemma replaceAll_app (c : ascii) (by_ s1 s2 : string) :
  replaceAll c by_ (s1 +:+ s2) = replaceAll c by_ s1 +:+ replaceAll c by_ s2.
Proof.
  induction s1 as [| x s1 IH]; [reflexivity |].
  rewrite append_cons. cbn [replaceAll]. rewrite IH.
  destruct (Ascii.eqb x c); [now rewrite append_assoc | reflexivity].
Qed.

Lemma replaceAll_other (c x : ascii) (by_ s : string) :
  Ascii.eqb x c = false ->
  replaceAll c by_ (String x s) = String x (replaceAll c by_ s).
Proof. intros H. cbn [replaceAll]. now rewrite H. Qed.

Lemma escapeHtml_cons (c : ascii) (r : string) :
  escapeHtml (String c r) = escapeChar c +:+ escapeHtml r.
Proof.
  unfold escapeHtml, escapeChar. cbn [replaceAll].
  destruct (Ascii.eqb_spec c "&") as [-> | Hamp].
  { now rewrite !replaceAll_app. }
  destruct (Ascii.eqb_spec c "<") as [-> | Hlt].
  { cbn [replaceAll Ascii.eqb Bool.eqb]. now rewrite !replaceAll_app. }
  rewrite (replaceAll_other "<") by now apply Ascii.eqb_neq.
  destruct (Ascii.eqb_spec c ">") as [-> | Hgt].
  { cbn [replaceAll Ascii.eqb Bool.eqb]. now rewrite !replaceAll_app. }
  rewrite (replaceAll_other ">") by now apply Ascii.eqb_neq.
  destruct (Ascii.eqb_spec c dquote) as [-> | Hq].
  { cbn [replaceAll Ascii.eqb Bool.eqb]. reflexivity. }
  rewrite (replaceAll_other dquote) by now apply Ascii.eqb_neq.
  reflexivity.
Qed.

Lemma append_empty (s : string) : s +:+ "" = s.
Proof.
  induction s as [| c s IH]; [reflexivity |]. now rewrite append_cons, IH.
Qed.

Lemma occurs_app (c : ascii) (s1 s2 : string) :
  occurs c (s1 +:+ s2) = occurs c s1 || occurs c s2.
Proof.
  induction s1 as [| x s1 IH]; [reflexivity |].
  rewrite append_cons. cbn [occurs]. now rewrite IH, orb_assoc.
Qed.

(** The cases of a character for escaping and reading. *)
Ltac char_cases c :=
  destruct (Ascii.eqb_spec c "&") as [-> | ?Hamp];
  [| destruct (Ascii.eqb_spec c "<") as [-> | ?Hlt];
     [| destruct (Ascii.eqb_spec c ">") as [-> | ?Hgt];
        [| destruct (Ascii.eqb_spec c dquote) as [-> | ?Hquote]]]].

Lemma beforeQuote_escapeChar (c : ascii) (rest : string) :
  beforeQuote (escapeChar c +:+ rest) = escapeChar c +:+ beforeQuote rest.
Proof.
  unfold escapeChar. char_cases c; try reflexivity.
  rewrite append_cons. cbn [beforeQuote String.append].
  apply Ascii.eqb_neq in Hquote. now rewrite Hquote.
Qed.

Lemma beforeQuote_escapeHtml (s : string) :
  beforeQuote (escapeHtml s) = escapeHtml s.
Proof.
  induction s as [| c r IH]; [reflexivity |].
  now rewrite escapeHtml_cons, beforeQuote_escapeChar, IH.
Qed.

(** *** Line breaks *)

Lemma normalizeGo_escapeChar (c : ascii) (b : bool) (rest : string) :
  c <> CR -> c <> LF ->
  normalizeGo b (escapeChar c +:+ rest) = escapeChar c +:+ normalizeGo false rest.
Proof.
  intros HCR HLF. unfold escapeChar. char_cases c; try reflexivity.
  rewrite append_cons. cbn [normalizeGo].
  apply Ascii.eqb_neq in HCR, HLF. now rewrite HCR, HLF.
Qed.

Lemma normalize_escapeHtml (s : string) : forall b,
  normalizeGo b (escapeHtml s) = escapeHtml (normalizeGo b s).
Proof.
  induction s as [| c r IH]; intros b; [reflexivity |].
  rewrite escapeHtml_cons. cbn [normalizeGo].
  destruct (Ascii.eqb_spec c CR) as [-> | HCR].
  { change (escapeChar CR +:+ escapeHtml r) with (String CR (escapeHtml r)).
    cbn [normalizeGo]. change (Ascii.eqb CR CR) with true. cbv iota.
    rewrite IH, escapeHtml_cons. reflexivity. }
  destruct (Ascii.eqb_spec c LF) as [-> | HLF].
  { change (escapeChar LF +:+ escapeHtml r) with (String LF (escapeHtml r)).
    cbn [normalizeGo]. change (Ascii.eqb LF CR) with false.
    change (Ascii.eqb LF LF) with true. cbv iota.
    destruct b; cbn [andb]; rewrite IH; [reflexivity |].
    rewrite escapeHtml_cons. reflexivity. }
  cbn [andb]. rewrite normalizeGo_escapeChar, IH, escapeHtml_cons by assumption.
  reflexivity.
Qed.

Lemma normalizeGo_noCR (s : string) :
  occurs CR s = false -> normalizeGo false s = s.
Proof.
  induction s as [| c r IH]; [reflexivity |].
  cbn [occurs normalizeGo]. intros H. apply orb_false_iff in H as [Hc Hr].
  rewrite Hc, andb_false_r, IH by exact Hr. reflexivity.
Qed.

Lemma normalizeGo_clean (s : string) : forall b,
  occurs CR (normalizeGo b s) = false.
Proof.
  induction s as [| c r IH]; intros b; [reflexivity |].
  cbn [normalizeGo].
  destruct (Ascii.eqb_spec c CR) as [-> | HCR]; [cbn [occurs]; now rewrite IH |].
  destruct (Ascii.eqb c LF && b); [apply IH |].
  cbn [occurs]. apply Ascii.eqb_neq in HCR. now rewrite HCR, IH.
Qed.

Lemma normalize_fixed (s : string) :
  normalizeNewlines s = s <-> occurs CR s = false.
Proof.
  split; [| apply normalizeGo_noCR].
  intros H. rewrite <- H. apply normalizeGo_clean.
Qed.

Lemma normalizeGo_NUL (s : string) : forall b,
  occurs NUL (normalizeGo b s) = occurs NUL s.
Proof.
  induction s as [| c r IH]; intros b; [reflexivity |].
  cbn [normalizeGo occurs].
  destruct (Ascii.eqb_spec c CR) as [-> | HCR]; [cbn [occurs]; now rewrite IH |].
  destruct (Ascii.eqb_spec c LF) as [-> | HLF].
  - destruct b; cbn [andb occurs]; now rewrite IH.
  - cbn [andb occurs]. now rewrite IH.
Qed.

Lemma normalizeGo_truthy (s : string) :
  truthy (normalizeGo false s) = truthy s.
Proof.
  destruct s as [| c r]; [reflexivity |]. cbn [normalizeGo].
  destruct (Ascii.eqb c CR); [reflexivity |]. now rewrite andb_false_r.
Qed.

(** *** Attribute values and text *)

Lemma decodeGo_escapeChar (c : ascii) (rest : string) :
  c <> NUL ->
  decodeGo 0 (escapeChar c +:+ rest) = prepend c (decodeGo 0 rest).
Proof.
  intros HNUL. unfold escapeChar. char_cases c; try reflexivity.
  rewrite append_cons. cbn [decodeGo String.append].
  apply Ascii.eqb_neq in HNUL, Hamp. now rewrite HNUL, Hamp.
Qed.

Lemma decodeGo_escapeHtml (s : string) :
  decodeGo 0 (escapeHtml s) = if occurs NUL s then None else Some s.
Proof.
  induction s as [| c r IH]; [reflexivity |].
  rewrite escapeHtml_cons. cbn [occurs].
  destruct (Ascii.eqb_spec c NUL) as [-> | HNUL]; [reflexivity |].
  rewrite decodeGo_escapeChar, IH by exact HNUL. cbn [orb].
  now destruct (occurs NUL r).
Qed.

(** The value the browser reads from [value="..."] written with
    [escapeHtml]: the text with its line breaks normalised, and no string of
    the model when the text holds a NUL. *)
Lemma attrValue_escapeHtml (s : string) :
  attrValue (escapeHtml s)
  = if occurs NUL s then None else Some (normalizeNewlines s).
Proof.
  unfold attrValue, normalizeNewlines.
  rewrite normalize_escapeHtml, beforeQuote_escapeHtml, decodeGo_escapeHtml.
  now rewrite normalizeGo_NUL.
Qed.

Lemma attrValue_truthy (o v : string) :
  attrValue (escapeHtml o) = Some v -> truthy v = truthy o.
Proof.
  rewrite attrValue_escapeHtml. destruct (occurs NUL o); [discriminate |].
  intros [= <-]. apply normalizeGo_truthy.
Qed.

Lemma readBack_spec (o : string) :
  readBack o = true <-> occurs CR o = false /\ occurs NUL o = false.
Proof.
  unfold readBack. rewrite attrValue_escapeHtml.
  destruct (occurs NUL o).
  - split; [discriminate | intros [_ H]; discriminate].
  - rewrite String.eqb_eq, normalize_fixed. tauto.
Qed.

Lemma readBack_value (o : string) :
  readBack o = true -> attrValue (escapeHtml o) = Some o.
Proof.
  unfold readBack. destruct (attrValue (escapeHtml o)) as [v |]; [| discriminate].
  intros H. apply String.eqb_eq in H. now subst.
Qed.

Lemma textGo_escapeChar (c : ascii) (rest : string) :
  c <> NUL ->
  textGo 0 (escapeChar c +:+ rest) = prepend c (textGo 0 rest).
Proof.
  intros HNUL. unfold escapeChar. char_cases c; try reflexivity.
  rewrite append_cons. cbn [textGo String.append].
  apply Ascii.eqb_neq in HNUL, Hamp, Hlt. now rewrite HNUL, Hamp, Hlt.
Qed.

Lemma textGo_escapeHtml (s rest : string) :
  textGo 0 (escapeHtml s +:+ rest) = String.append (withoutNUL s) <$> textGo 0 rest.
Proof.
  induction s as [| c r IH].
  - cbn [escapeHtml]. change (escapeHtml "" +:+ rest) with rest.
    cbn [withoutNUL]. now destruct (textGo 0 rest).
  - rewrite escapeHtml_cons, append_assoc. cbn [withoutNUL].
    destruct (Ascii.eqb_spec c NUL) as [-> | HNUL].
    + change (escapeChar NUL +:+ ?x) with (String NUL x).
      cbn [textGo]. change (Ascii.eqb NUL NUL) with true. cbv iota. exact IH.
    + rewrite textGo_escapeChar, IH by exact HNUL.
      unfold prepend. now destruct (textGo 0 rest).
Qed.

(** The text the browser shows for an element written with
    [escapeHtml]. *)
Lemma textContent_escapeHtml (s : string) :
  textContent (escapeHtml s) = Some (shownText s).
Proof.
  unfold textContent, shownText, normalizeNewlines.
  rewrite normalize_escapeHtml, <- (append_empty (escapeHtml _)), textGo_escapeHtml.
  cbn [textGo fmap option_fmap option_map]. now rewrite append_empty.
Qed.

Lemma shownText_fixed (s : string) :
  occurs CR s = false -> occurs NUL s = false -> shownText s = s.
Proof.
  intros HCR HNUL. unfold shownText, normalizeNewlines.
  rewrite normalizeGo_noCR by exact HCR.
  induction s as [| c r IH]; [reflexivity |].
  cbn [occurs] in HCR, HNUL.
  apply orb_false_iff in HCR as [_ HCR]. apply orb_false_iff in HNUL as [Hc HNUL].
  cbn [withoutNUL]. now rewrite Hc, IH.
Qed.

(** ** Recorded selections *)

(** A radio as the browser holds it. *)
Lemma renderRadio_read (sel : option string) (opt : string) (i : Z) :
  renderRadio sel opt i
  = mkRadio (letterAt i)
      (if occurs NUL opt then None else Some (normalizeNewlines opt))
      (strictEq sel opt) (Some (shownText opt)).
Proof.
  unfold renderRadio. now rewrite attrValue_escapeHtml, textContent_escapeHtml.
Qed.

Lemma mapi_from_ext {A B} (f g : A -> Z -> B) (xs : list A) : forall i,
  (forall x j, f x j = g x j) -> mapi_from i f xs = mapi_from i g xs.
Proof.
  induction xs as [| x xs IH]; intros i H; [reflexivity |].
  cbn [mapi_from]. now rewrite H, (IH (i + 1) H).
Qed.

Lemma mapi_from_lookup {A B} (f : A -> Z -> B) (xs : list A) : forall i n,
  mapi_from i f xs !! n = (fun x => f x (i + Z.of_nat n)) <$> xs !! n.
Proof.
  induction xs as [| x xs IH]; intros i n; [reflexivity |].
  destruct n as [| n]; cbn [mapi_from].
  - cbn. now rewrite Z.add_0_r.
  - cbn [lookup list_lookup]. rewrite IH. destruct (xs !! n); cbn; [| reflexivity].
    do 2 f_equal. lia.
Qed.

Lemma renderQuestion_area (qs : list Question) (q : Question) (p : Page) :
  questions p = QArray qs ->
  questionAt qs (currentIndex p) = Some q ->
  questionArea (dom (renderQuestion p))
  = AreaQuestion q (currentIndex p + 1)
      (mapi (renderRadio (selectedFor (answers p) q)) (q_options q)).
Proof.
  intros Hq Hat. unfold renderQuestion. now rewrite Hq, Hat.
Qed.

Lemma selectedFor_truthy (a : gmap string string) (q : Question) (o : string) :
  a !! q_id q = Some o -> truthy o = true -> selectedFor a q = Some o.
Proof. intros Ha Ht. unfold selectedFor. now rewrite Ha, Ht. Qed.

Lemma preselected_render (q : Question) (o : string) (num : Z) :
  preselected q o
    (AreaQuestion q num (mapi (renderRadio (Some o)) (q_options q))).
Proof.
  exists num, (mapi (renderRadio (Some o)) (q_options q)).
  split; [reflexivity |]. unfold mapi. generalize 0.
  induction (q_options q) as [| opt opts IH]; intros j; [reflexivity |].
  cbn [mapi_from List.map]. now rewrite IH.
Qed.

(** An event changes the [answers] entry it writes, and no other. *)
Lemma step_answers (p : Page) (ev : Event) (k : string) :
  written p ev <> Some k -> answers (step p ev) !! k = answers p !! k.
Proof.
  intros Hw. unfold step.
  destruct (deliverable p ev) eqn:Hd; [| reflexivity].
  destruct ev as [r | | | | i | | r]; cbn [handle].
  - unfold onFetched. destruct r as [| v]; [reflexivity |].
    cbn [questions setQuestions].
    destruct (default (QArray []) v) as [[| q qs] | w]; try reflexivity.
    destruct (startTimer_frame
                (renderQuestion
                   (setQuestions (QArray (q :: qs))
                      (setEnv (setFetching false (env p)) p))))
      as (_ & -> & _).
    now destruct (renderQuestion_frame
                    (setQuestions (QArray (q :: qs))
                       (setEnv (setFetching false (env p)) p)))
      as (_ & _ & _ & _ & _ & -> & _).
  - now destruct (nav_frame p (onPrev p)) as (_ & _ & _ & _ & -> & _); auto.
  - now destruct (nav_frame p (onNext p)) as (_ & _ & _ & _ & -> & _); auto.
  - unfold submitQuiz. now destruct (questions p).
  - unfold written in Hw. rewrite Hd in Hw. unfold onChange.
    destruct (questionArea (dom p)) as [| | q num radios]; try reflexivity.
    destruct (radios !! i) as [r |]; [| reflexivity].
    cbn [mbind option_bind].
    destruct (r_value r); [| reflexivity].
    cbn [answers setAnswers]. apply lookup_insert_ne. congruence.
  - unfold onTick, submitQuiz, updateTimerDisplay.
    cbn [timerSeconds setTimerSeconds questions setEnv].
    destruct (timerSeconds p - 1 <=? 0).
    + now destruct (questions p).
    + now destruct (timerSeconds p - 1 <? 30).
  - unfold onSubmitSettled. destruct r as [ok redirect error |]; [| reflexivity].
    now destruct (ok && truthy redirect).
Qed.

Lemma run_answers (k : string) (evs : list Event) : forall p : Page,
  touched k p evs = false -> answers (run evs p) !! k = answers p !! k.
Proof.
  induction evs as [| ev evs IH]; intros p Ht; [reflexivity |].
  change (run (ev :: evs) p) with (run evs (step p ev)).
  cbn [touched] in Ht.
  destruct (written p ev) as [k' |] eqn:Hw.
  - apply orb_false_iff in Ht as [Hk Ht].
    rewrite (IH _ Ht). apply step_answers. rewrite Hw.
    apply String.eqb_neq in Hk. congruence.
  - rewrite (IH _ Ht). apply step_answers. rewrite Hw. discriminate.
Qed.

(** Choosing the [i]-th radio of the question on display records the
    value of that radio. *)
Lemma step_Change (qs : list Question) (p : Page) (q : Question) (i : nat)
    (o v : string) :
  Active qs p -> location (env p) = None ->
  questionAt qs (currentIndex p) = Some q ->
  q_options q !! i = Some o ->
  attrValue (escapeHtml o) = Some v ->
  step p (Change i) = setAnswers (<[q_id q := v]> (answers p)) p.
Proof.
  intros HA Hloc Hat Ho Hv.
  destruct HA as (_ & _ & _ & _ & _ & _ & _ & q' & sel & Hat' & Har).
  assert (q' = q) by congruence. subst q'.
  unfold step, deliverable, onChange. rewrite Hloc, Har. unfold mapi.
  rewrite mapi_from_lookup, Ho. cbn [fmap option_fmap option_map].
  unfold hasValue, renderRadio at 1. cbn [r_value]. rewrite Hv.
  cbn [handle]. unfold onChange. rewrite Har. unfold mapi.
  rewrite mapi_from_lookup, Ho. cbn [fmap option_fmap option_map mbind option_bind].
  unfold renderRadio. cbn [r_value]. now rewrite Hv.
Qed.

(** A navigation click that moves the index renders the question it lands
    on, with the selection recorded for it. *)
Lemma step_nav_area (qs : list Question) (p : Page) (nav : Event) (q : Question) :
  Active qs p -> nav = ClickPrev \/ nav = ClickNext ->
  currentIndex (step p nav) <> currentIndex p ->
  questionAt qs (currentIndex (step p nav)) = Some q ->
  questionArea (dom (step p nav))
  = AreaQuestion q (currentIndex (step p nav) + 1)
      (mapi (renderRadio (selectedFor (answers p) q)) (q_options q)).
Proof.
  intros HA Hnav Hmove Hat.
  pose proof HA as (Hq & _).
  unfold step in *.
  destruct (deliverable p nav); [| contradiction].
  destruct Hnav as [-> | ->]; cbn [handle] in *.
  - unfold onPrev in *. destruct (0 <? currentIndex p); [| contradiction].
    set (p' := setCurrentIndex (currentIndex p - 1) p) in *.
    destruct (renderQuestion_frame p') as (_ & _ & _ & _ & Hi & _).
    rewrite Hi in Hat |- *.
    now rewrite (renderQuestion_area qs q p' Hq Hat).
  - unfold onNext in *. rewrite Hq in *.
    destruct (currentIndex p <? Z.of_nat (List.length qs) - 1); [| contradiction].
    set (p' := setCurrentIndex (currentIndex p + 1) p) in *.
    destruct (renderQuestion_frame p') as (_ & _ & _ & _ & Hi & _).
    rewrite Hi in Hat |- *.
    now rewrite (renderQuestion_area qs q p' Hq Hat).
Qed.

(** In a running session showing question [q], what choosing its option
    [o] records, and what a later return to [q] shows. *)
Lemma Active_selection (qs : list Question) (p : Page) (q : Question)
    (i : nat) (o v : string) :
  Active qs p -> location (env p) = None ->
  questionAt qs (currentIndex p) = Some q ->
  q_options q !! i = Some o ->
  attrValue (escapeHtml o) = Some v ->
  let p1 := step p (Change i) in
  answers p1 = <[q_id q := v]> (answers p)
  /\ answers p1 !! q_id q = Some v
  /\ (forall k, k <> q_id q -> answers p1 !! k = answers p !! k)
  /\ (forall (p' : Page) (ev : Event) (k : string),
        written p' ev <> Some k -> answers (step p' ev) !! k = answers p' !! k)
  /\ (truthy v = true ->
      forall evs, touched (q_id q) p1 evs = false ->
        let p2 := run evs p1 in
        answers p2 !! q_id q = Some v
        /\ forall nav, nav = ClickPrev \/ nav = ClickNext ->
             let p3 := step p2 nav in
             currentIndex p3 <> currentIndex p2 ->
             questionAt qs (currentIndex p3) = Some q ->
             preselected q v (questionArea (dom p3))).
Proof.
  intros HA Hloc Hat Ho Hv p1.
  assert (Hp1 : p1 = setAnswers (<[q_id q := v]> (answers p)) p)
    by now apply (step_Change qs p q i o v).
  assert (Ha1 : answers p1 = <[q_id q := v]> (answers p)) by now rewrite Hp1.
  split; [exact Ha1 |].
  split; [rewrite Ha1; apply lookup_insert_eq |].
  split; [intros k Hk; rewrite Ha1; now apply lookup_insert_ne |].
  split; [intros p' ev k; apply step_answers |].
  intros Ht evs Htouch p2.
  assert (Ha2 : answers p2 !! q_id q = Some v).
  { unfold p2. rewrite (run_answers _ _ _ Htouch), Ha1. apply lookup_insert_eq. }
  split; [exact Ha2 |].
  intros nav Hnav p3 Hmove Hat3.
  assert (HA2 : Active qs p2) by (unfold p2, p1; auto with session).
  unfold p3. rewrite (step_nav_area qs p2 nav q HA2 Hnav Hmove Hat3).
  rewrite (selectedFor_truthy _ _ _ Ha2 Ht).
  apply preselected_render.
Qed.

(** C4, as amended.  In a running session showing question [q], choosing
    its option [o] records for [q] the value [v] of the radio of [o],
    whatever was recorded before, and leaves every other entry as it was; an
    entry changes only through a change event of a radio rendered for its
    question.  The value [v] is [o] with its line breaks normalised, so it is
    [o] itself exactly when [o] holds no carriage return.  If [v] is not the
    empty string then, after any events that do not write [q]'s entry, a
    Previous or Next click that lands on [q] shows [q] with exactly the
    options equal to [v] checked: the radio of [o] is checked on return when
    [o] is not empty and holds no carriage return. *)
Theorem selection_restored (id : string) (total0 timerSeconds0 : Z)
    (markup : Dom) (q0 : Question) (qs : list Question) (before : list Event)
    (q : Question) (i : nat) (o v : string) :
  truthy id = true -> total0 <> 0 ->
  let p := run before (opened id total0 timerSeconds0 markup
                         (FetchJson (Some (QArray (q0 :: qs))))) in
  location (env p) = None ->
  questionAt (q0 :: qs) (currentIndex p) = Some q ->
  q_options q !! i = Some o ->
  attrValue (escapeHtml o) = Some v ->
  let p1 := step p (Change i) in
  answers p1 = <[q_id q := v]> (answers p)
  /\ answers p1 !! q_id q = Some v
  /\ (forall k, k <> q_id q -> answers p1 !! k = answers p !! k)
  /\ (forall (p' : Page) (ev : Event) (k : string),
        written p' ev <> Some k -> answers (step p' ev) !! k = answers p' !! k)
  /\ v = normalizeNewlines o
  /\ (v = o <-> occurs CR o = false)
  /\ (truthy v = true ->
      forall evs, touched (q_id q) p1 evs = false ->
        let p2 := run evs p1 in
        answers p2 !! q_id q = Some v
        /\ forall nav, nav = ClickPrev \/ nav = ClickNext ->
             let p3 := step p2 nav in
             currentIndex p3 <> currentIndex p2 ->
             questionAt (q0 :: qs) (currentIndex p3) = Some q ->
             preselected q v (questionArea (dom p3))
             /\ (v = o ->
                 exists num radios r,
                   questionArea (dom p3) = AreaQuestion q num radios
                   /\ radios !! i = Some r /\ r_checked r = true)).
Proof.
  intros Hid Htot p Hloc Hat Ho Hv p1.
  assert (HA : Active (q0 :: qs) p).
  { apply Active_run.
    now destruct (opened_Active id total0 timerSeconds0 markup q0 qs Hid Htot). }
  destruct (Active_selection (q0 :: qs) p q i o v HA Hloc Hat Ho Hv)
    as (H1 & H2 & H3 & H4 & H5).
  assert (Hn : v = normalizeNewlines o).
  { rewrite attrValue_escapeHtml in Hv.
    destruct (occurs NUL o); [discriminate | now injection Hv]. }
  split; [exact H1 |]. split; [exact H2 |]. split; [exact H3 |].
  split; [exact H4 |]. split; [exact Hn |].
  split; [rewrite Hn; apply normalize_fixed |].
  intros Ht evs Htouch p2.
  destruct (H5 Ht evs Htouch) as [Ha2 Hnav].
  split; [exact Ha2 |].
  intros nav Hn' p3 Hmove Hat3.
  pose proof (Hnav nav Hn' Hmove Hat3) as Hpre.
  split; [exact Hpre |].
  intros Hvo. destruct Hpre as (num & radios & Har & Hch).
  fold p3 in Har.
  assert (Hlen : List.length radios = List.length (q_options q)).
  { rewrite <- (length_map r_checked radios), Hch. apply length_map. }
  destruct (lookup_lt_is_Some_2 radios i) as [r Hr].
  { rewrite Hlen. apply lookup_lt_is_Some. eauto. }
  exists num, radios, r. split; [exact Har |]. split; [exact Hr |].
  assert (Hci : List.map r_checked radios !! i = Some (r_checked r))
    by (rewrite list_lookup_fmap, Hr; reflexivity).
  rewrite Hch, list_lookup_fmap, Ho in Hci. cbn in Hci.
  injection Hci as <-. rewrite Hvo. apply String.eqb_refl.
Qed.

(** ** The submission payload *)

Section Collect.

(** The recorded selections at the time of the submission. *)
Variable a : gmap string string.

Lemma collect_kept (acc : gmap string string) (q : Question) :
  collect a acc q
  = match kept a (q_id q) with
    | Some v => <[q_id q := v]> acc
    | None => acc
    end.
Proof.
  unfold collect, kept. destruct (a !! q_id q) as [v |]; [| reflexivity].
  now destruct (truthy v).
Qed.

Lemma foldl_collect_lookup (qs : list Question) (k : string) :
  forall acc : gmap string string,
  foldl (collect a) acc qs !! k
  = if bool_decide (k ∈ q_id <$> qs)
    then match kept a k with Some v => Some v | None => acc !! k end
    else acc !! k.
Proof.
  induction qs as [| q qs IH]; intros acc; [reflexivity |].
  cbn [foldl]. rewrite fmap_cons, IH, collect_kept.
  destruct (decide (k = q_id q)) as [-> | Hne].
  - rewrite (bool_decide_eq_true_2 (q_id q ∈ q_id q :: _)) by apply list_elem_of_here.
    destruct (kept a (q_id q)) as [v |] eqn:Hk.
    + rewrite lookup_insert_eq. now destruct (bool_decide _).
    + now destruct (bool_decide _).
  - assert (Hin : k ∈ q_id q :: (q_id <$> qs) <-> k ∈ q_id <$> qs).
    { rewrite elem_of_cons. tauto. }
    rewrite (bool_decide_ext _ _ Hin).
    destruct (kept a (q_id q)) as [v |]; [| reflexivity].
    now rewrite lookup_insert_ne by congruence.
Qed.

Lemma foldl_collect_size (qs : list Question) :
  NoDup (q_id <$> qs) ->
  forall acc : gmap string string,
    (forall q, q ∈ qs -> acc !! q_id q = None) ->
    size (foldl (collect a) acc qs)
    = (size acc + List.length (List.filter (answered a) qs))%nat.
Proof.
  induction qs as [| q qs IH]; intros Hnd acc Hfresh.
  - cbn. lia.
  - rewrite fmap_cons in Hnd. apply NoDup_cons in Hnd as [Hnotin Hnd].
    cbn [foldl List.filter]. rewrite collect_kept. unfold answered at 1.
    destruct (kept a (q_id q)) as [v |].
    + rewrite IH; [| exact Hnd |].
      * rewrite map_size_insert_None by (apply Hfresh, list_elem_of_here).
        cbn [List.length]. lia.
      * intros q' Hq'. rewrite lookup_insert_ne.
        -- apply Hfresh. now apply list_elem_of_further.
        -- intros Heq. apply Hnotin. rewrite Heq.
           apply list_elem_of_fmap. now exists q'.
    + apply IH; [exact Hnd |].
      intros q' Hq'. apply Hfresh. now apply list_elem_of_further.
Qed.

End Collect.

(** No event changes the quiz identifier. *)
Lemma step_quizId (p : Page) (ev : Event) : quizId (step p ev) = quizId p.
Proof.
  unfold step. destruct (deliverable p ev); [| reflexivity].
  destruct ev as [r | | | | i | | r]; cbn [handle].
  - unfold onFetched. destruct r as [| v]; [reflexivity |].
    cbn [questions setQuestions].
    destruct (default (QArray []) v) as [[| q qs] | w]; try reflexivity.
    unfold startTimer. cbn [quizId setEnv].
    destruct (updateTimerDisplay_frame
                (renderQuestion
                   (setQuestions (QArray (q :: qs))
                      (setEnv (setFetching false (env p)) p))))
      as (_ & _ & _ & _ & _ & -> & _).
    now destruct (renderQuestion_frame
                    (setQuestions (QArray (q :: qs))
                       (setEnv (setFetching false (env p)) p)))
      as (-> & _).
  - now destruct (nav_frame p (onPrev p)) as (-> & _); auto.
  - now destruct (nav_frame p (onNext p)) as (-> & _); auto.
  - unfold submitQuiz. now destruct (questions p).
  - unfold onChange. destruct (questionArea (dom p)); try reflexivity.
    now destruct (radios !! i ≫= r_value).
  - unfold onTick, submitQuiz, updateTimerDisplay.
    cbn [timerSeconds setTimerSeconds questions setEnv].
    destruct (timerSeconds p - 1 <=? 0).
    + now destruct (questions p).
    + now destruct (timerSeconds p - 1 <? 30).
  - unfold onSubmitSettled. destruct r as [ok redirect error |]; [| reflexivity].
    now destruct (ok && truthy redirect).
Qed.

Lemma run_quizId (evs : list Event) : forall p : Page,
  quizId (run evs p) = quizId p.
Proof.
  induction evs as [| ev evs IH]; intros p; [reflexivity |].
  change (run (ev :: evs) p) with (run evs (step p ev)).
  now rewrite IH, step_quizId.
Qed.

Lemma opened_quizId (id : string) (total0 timerSeconds0 : Z) (markup : Dom)
    (r : FetchResult) :
  quizId (opened id total0 timerSeconds0 markup r) = Some id.
Proof.
  unfold opened. rewrite step_quizId. unfold initQuizPage, loaded.
  cbn [quizId total]. now destruct (absent (Some id) || (total0 =? 0)).
Qed.

(** The body a running session sends, entry by entry. *)
Lemma Active_payload (qs : list Question) (p : Page) :
  Active qs p ->
  let body := buildPayload p qs in
  (deliverable p ClickSubmit = true ->
   requests (env (step p ClickSubmit)) = body :: requests (env p))
  /\ (deliverable p Tick = true -> timerSeconds p - 1 <= 0 ->
      requests (env (step p Tick)) = body :: requests (env p))
  /\ quiz_id body = quizId p
  /\ (forall q, q ∈ qs -> p_answers body !! q_id q = kept (answers p) (q_id q))
  /\ (forall q v, q ∈ qs -> answers p !! q_id q = Some v -> truthy v = true ->
      p_answers body !! q_id q = Some v)
  /\ (forall q, q ∈ qs -> answers p !! q_id q = None ->
      p_answers body !! q_id q = None)
  /\ (forall k, k ∉ q_id <$> qs -> p_answers body !! k = None)
  /\ (NoDup (q_id <$> qs) ->
      size (p_answers body) = List.length (List.filter (answered (answers p)) qs))
  /\ (NoDup (q_id <$> qs) -> List.length qs = 5%nat ->
      List.length (List.filter (answered (answers p)) qs) = 2%nat ->
      size (p_answers body) = 2%nat).
Proof.
  intros HA body. pose proof HA as (Hq & _).
  assert (Hlook : forall k,
             p_answers body !! k
             = if bool_decide (k ∈ q_id <$> qs) then kept (answers p) k
               else None).
  { intros k. unfold body, buildPayload. cbn [p_answers].
    rewrite foldl_collect_lookup, lookup_empty.
    destruct (bool_decide _); [| reflexivity]. now destruct (kept _ _). }
  assert (Hin : forall q, q ∈ qs ->
             p_answers body !! q_id q = kept (answers p) (q_id q)).
  { intros q Hq'. rewrite Hlook, bool_decide_eq_true_2; [reflexivity |].
    apply list_elem_of_fmap. now exists q. }
  assert (Hsize : NoDup (q_id <$> qs) ->
             size (p_answers body)
             = List.length (List.filter (answered (answers p)) qs)).
  { intros Hnd. unfold body, buildPayload. cbn [p_answers].
    rewrite foldl_collect_size; [now rewrite map_size_empty | exact Hnd |].
    intros q _. apply lookup_empty. }
  split.
  { intros Hd. unfold step. rewrite Hd. cbn [handle].
    unfold submitQuiz. now rewrite Hq. }
  split.
  { intros Hd Hle. unfold step. rewrite Hd. cbn [handle].
    destruct (onTick_expiry p Hle) as [_ ->]. now rewrite Hq. }
  split; [reflexivity |].
  split; [exact Hin |].
  split.
  { intros q v Hq' Hv Ht. rewrite (Hin q Hq'). unfold kept. now rewrite Hv, Ht. }
  split.
  { intros q Hq' Hv. rewrite (Hin q Hq'). unfold kept. now rewrite Hv. }
  split.
  { intros k Hk. rewrite Hlook, bool_decide_eq_false_2; auto. }
  split; [exact Hsize |].
  intros Hnd _ H2. now rewrite Hsize.
Qed.

(** C5, as amended.  The body sent by a Submit click that reaches the
    handler, and by the tick on which the timer expires, carries the quiz
    identifier and an [answers] mapping that holds, under the identifier of
    each question whose recorded selection is a string that is not empty,
    that selection; it has no entry for a question without a recorded
    selection and none under any other name (an entry is there exactly when
    [kept] finds one).  When the questions have distinct identifiers the
    mapping has one entry per question with such a selection; so with five
    questions of which two have one it has two entries. *)
Theorem payload_has_answered_only (id : string) (total0 timerSeconds0 : Z)
    (markup : Dom) (q0 : Question) (qs : list Question) (evs : list Event) :
  truthy id = true -> total0 <> 0 ->
  let p := run evs (opened id total0 timerSeconds0 markup
                      (FetchJson (Some (QArray (q0 :: qs))))) in
  let body := buildPayload p (q0 :: qs) in
  (deliverable p ClickSubmit = true ->
   requests (env (step p ClickSubmit)) = body :: requests (env p))
  /\ (deliverable p Tick = true -> timerSeconds p - 1 <= 0 ->
      requests (env (step p Tick)) = body :: requests (env p))
  /\ quiz_id body = Some id
  /\ (forall q, q ∈ q0 :: qs -> p_answers body !! q_id q = kept (answers p) (q_id q))
  /\ (forall q v, q ∈ q0 :: qs -> answers p !! q_id q = Some v -> truthy v = true ->
      p_answers body !! q_id q = Some v)
  /\ (forall q, q ∈ q0 :: qs -> answers p !! q_id q = None ->
      p_answers body !! q_id q = None)
  /\ (forall k, k ∉ q_id <$> q0 :: qs -> p_answers body !! k = None)
  /\ (NoDup (q_id <$> q0 :: qs) ->
      size (p_answers body) = List.length (List.filter (answered (answers p)) (q0 :: qs)))
  /\ (NoDup (q_id <$> q0 :: qs) -> List.length (q0 :: qs) = 5%nat ->
      List.length (List.filter (answered (answers p)) (q0 :: qs)) = 2%nat ->
      size (p_answers body) = 2%nat).
Proof.
  intros Hid Htot p body.
  assert (HA : Active (q0 :: qs) p).
  { apply Active_run.
    now destruct (opened_Active id total0 timerSeconds0 markup q0 qs Hid Htot). }
  destruct (Active_payload (q0 :: qs) p HA)
    as (H1 & H2 & H3 & H4 & H5 & H6 & H7 & H8 & H9).
  fold body in H1, H2, H3, H4, H5, H6, H7, H8, H9.
  assert (Hqid : quiz_id body = Some id).
  { rewrite H3. unfold p. now rewrite run_quizId, opened_quizId. }
  auto 12.
Qed.

(** C5, the claim as stated fails: a question whose recorded selection is
    the empty string has a recorded selection but no entry in the body. *)
Lemma empty_selection_not_sent :
  let p0 := opened "7" 1 60 markupSubmitHidden (FetchJson (Some (QArray [blank]))) in
  let p := run [Change 0; ClickSubmit] p0 in
  answers p !! "1" = Some ""
  /\ requests (env p) = [mkPayload (Some "7") ∅].
Proof. vm_compute. auto. Qed.

(** C4, the claim as stated fails: after choosing the empty option of a
    question, leaving it and coming back, no radio is checked. *)
Lemma empty_selection_not_restored :
  let p0 := opened "7" 2 60 markupSubmitHidden
              (FetchJson (Some (QArray [blank; capital]))) in
  let p := run [Change 0; ClickNext; ClickPrev] p0 in
  q_options blank !! 0%nat = Some ""
  /\ answers p !! "1" = Some ""
  /\ questionArea (dom p)
     = AreaQuestion blank 1
         [mkRadio "A" (Some "") false (Some "");
          mkRadio "B" (Some "yes") false (Some "yes")].
Proof. vm_compute. auto. Qed.

(** C4, further: an option that holds a carriage return is recorded with a
    line feed in its place, which is not the option, so its radio is not
    checked on return either. *)
Example carriage_return_not_restored :
  let twoLines := String "a" (String CR (String "b" "")) in
  let p0 := opened "7" 2 60 markupSubmitHidden
              (FetchJson (Some (QArray [mkQuestion "1" "Pick one" [twoLines; "yes"];
                                        capital]))) in
  let p := run [Change 0; ClickNext; ClickPrev] p0 in
  answers p !! "1" = Some (String "a" (String LF (String "b" "")))
  /\ List.map r_checked (shownRadios (questionArea (dom p))) = [false; false].
Proof. vm_compute. auto. Qed.

(** ** Saving an edited row *)

Lemma sortByIdx_fourInputs (a b c d : string) :
  sortByIdx (fourInputs a b c d) = fourInputs a b c d.
Proof. reflexivity. Qed.

Lemma forallb_existsb_negb {A} (f : A -> bool) (l : list A) :
  existsb (fun x => negb (f x)) l = negb (forallb f l).
Proof.
  induction l as [| x l IH]; [reflexivity |].
  cbn [existsb forallb]. rewrite IH. now destruct (f x), (forallb f l).
Qed.

Lemma trim_empty : trim "" = "".
Proof. reflexivity. Qed.

(** C6, as amended.  Save works on the values of the controls with
    surrounding white space removed from the question and from the four
    options (white space includes the no-break space).  When one of these four
    options is empty, or the question is empty, or the chosen answer is not
    equal to one of these four options, it shows a message, sends nothing and
    does not touch the row, which stays in edit mode; in particular so when a
    control holds the empty string.  Otherwise it sends one update request
    carrying these values (the controls' own values when they have no
    surrounding white space) and shows nothing. *)
Theorem save_validates (id : Z) (subject question a b c d answer diff expl : string)
    (shown_alerts : list string) (sent : list UpdateRequest) :
  let row := mkEditRow id subject question (fourInputs a b c d) answer diff expl in
  let t := mkTable row shown_alerts sent in
  let opts := [trim a; trim b; trim c; trim d] in
  (acceptable (trim question) opts answer = false ->
   t_updates (onSave t) = sent
   /\ t_row (onSave t) = row
   /\ exists msg, t_alerts (onSave t) = msg :: shown_alerts)
  /\ (forallb truthy opts = false ->
      t_alerts (onSave t) = "Please provide four options." :: shown_alerts)
  /\ (forallb truthy opts = true -> truthy (trim question) = false ->
      t_alerts (onSave t) = "Question cannot be empty." :: shown_alerts)
  /\ (forallb truthy opts = true -> truthy (trim question) = true ->
      includes opts answer = false ->
      t_alerts (onSave t) = "Correct answer must match an option." :: shown_alerts)
  /\ (acceptable (trim question) opts answer = true ->
      t_updates (onSave t)
      = mkUpdate id subject (trim question) opts answer diff expl :: sent
      /\ t_alerts (onSave t) = shown_alerts)
  /\ (a = "" \/ b = "" \/ c = "" \/ d = "" \/ question = "" ->
      acceptable (trim question) opts answer = false)
  /\ (trim question = question -> trim a = a -> trim b = b -> trim c = c ->
      trim d = d ->
      acceptable question [a; b; c; d] answer = true ->
      t_updates (onSave t)
      = mkUpdate id subject question [a; b; c; d] answer diff expl :: sent).
Proof.
  intros row t opts.
  assert (Hsave : onSave t
                  = if negb (forallb truthy opts)
                    then mkTable row ("Please provide four options." :: shown_alerts) sent
                    else if negb (truthy (trim question))
                    then mkTable row ("Question cannot be empty." :: shown_alerts) sent
                    else if negb (includes opts answer)
                    then mkTable row ("Correct answer must match an option."
                                        :: shown_alerts) sent
                    else mkTable row shown_alerts
                           (mkUpdate id subject (trim question) opts answer diff expl
                              :: sent)).
  { unfold onSave, t, row.
    cbn [t_row t_alerts t_updates e_id e_subject e_question e_opts e_answer
         e_difficulty e_expl].
    rewrite sortByIdx_fourInputs.
    cbn [fourInputs List.map i_value List.length Nat.eqb negb orb].
    fold opts. now rewrite forallb_existsb_negb. }
  assert (Hraw : a = "" \/ b = "" \/ c = "" \/ d = "" \/ question = "" ->
                 acceptable (trim question) opts answer = false).
  { unfold acceptable, opts. cbn [forallb].
    intros [-> | [-> | [-> | [-> | ->]]]]; rewrite trim_empty; cbn [truthy andb];
      rewrite ?andb_false_r; reflexivity. }
  assert (Hown : trim question = question -> trim a = a -> trim b = b ->
                 trim c = c -> trim d = d ->
                 acceptable question [a; b; c; d] answer = true ->
                 t_updates (onSave t)
                 = mkUpdate id subject question [a; b; c; d] answer diff expl :: sent).
  { intros Eq Ea Eb Ec Ed. rewrite Hsave. unfold opts.
    rewrite Eq, Ea, Eb, Ec, Ed. unfold acceptable.
    intros Hacc. apply andb_true_iff in Hacc as [Hacc Hi].
    apply andb_true_iff in Hacc as [Ho Hq].
    now rewrite Ho, Hq, Hi. }
  split; [| split; [| split; [| split; [| split; [| split]]]]];
    [| | | | | exact Hraw | exact Hown];
    rewrite Hsave; unfold acceptable;
    destruct (forallb truthy opts) eqn:Ho;
    destruct (truthy (trim question)) eqn:Hq;
    destruct (includes opts answer) eqn:Hi;
    cbn [negb andb t_row t_alerts t_updates];
    try reflexivity; try discriminate;
    intros; try discriminate; try reflexivity;
    try (split; [reflexivity | split; [reflexivity | eauto]]);
    try (split; reflexivity).
Qed.

(** C6, the claim as stated fails: with four option strings that are not
    empty, a question text that is not empty and an answer equal to one of
    the options, Save sends nothing when an option holds only white space;
    and what it sends is not the option as typed when that has white space
    around it. *)
Lemma save_trims :
  let blanked := mkTable (mkEditRow 7 "Physics" "Capital of France?"
                            (fourInputs " " "London" "Rome" "Berlin")
                            "London" "Easy" "") [] [] in
  let padded := mkTable (mkEditRow 7 "Physics" "Capital of France?"
                           (fourInputs " Paris" "London" "Rome" "Berlin")
                           "Paris" "Easy" "") [] [] in
  acceptable "Capital of France?" [" "; "London"; "Rome"; "Berlin"] "London" = true
  /\ t_updates (onSave blanked) = []
  /\ t_alerts (onSave blanked) = ["Please provide four options."]
  /\ includes [" Paris"; "London"; "Rome"; "Berlin"] "Paris" = false
  /\ t_updates (onSave padded)
     = [mkUpdate 7 "Physics" "Capital of France?"
          ["Paris"; "London"; "Rome"; "Berlin"] "Paris" "Easy" ""].
Proof. vm_compute. auto 10. Qed.

(** A no-break space is white space for [trim]: an option that holds
    nothing else is rejected. *)
Example save_rejects_no_break_space :
  let t := mkTable (mkEditRow 7 "Physics" "Capital of France?"
                      (fourInputs (String NBSP "") "London" "Rome" "Berlin")
                      "London" "Easy" "") [] [] in
  trim (String NBSP "") = ""
  /\ t_updates (onSave t) = []
  /\ t_alerts (onSave t) = ["Please provide four options."].
Proof. vm_compute. auto. Qed.

(** ** Editing a rendered row *)

Lemma escapeAttr_cons (c : ascii) (r : string) :
  escapeAttr (String c r) = escapeAttrChar c +:+ escapeAttr r.
Proof.
  unfold escapeAttr, escapeAttrChar. rewrite escapeHtml_cons, replaceAll_app.
  f_equal. unfold escapeChar.
  destruct (Ascii.eqb_spec c "'") as [-> | Hne]; [reflexivity |].
  destruct (Ascii.eqb c "&"); [reflexivity |].
  destruct (Ascii.eqb c "<"); [reflexivity |].
  destruct (Ascii.eqb c ">"); [reflexivity |].
  destruct (Ascii.eqb c dquote); [reflexivity |].
  apply Ascii.eqb_neq in Hne. cbn [replaceAll]. now rewrite Hne.
Qed.

Lemma length_app (s1 s2 : string) :
  String.length (s1 +:+ s2) = (String.length s1 + String.length s2)%nat.
Proof.
  induction s1 as [| c s1 IH]; [reflexivity |].
  rewrite append_cons. cbn [String.length]. now rewrite IH.
Qed.

(** *** Text of everyday characters *)

Lemma plainChar_cases (c : ascii) :
  plainChar c = true ->
  Ascii.eqb c NUL = false /\ Ascii.eqb c LF = false /\ Ascii.eqb c CR = false
  /\ Ascii.eqb c "&" = false /\ Ascii.eqb c "<" = false /\ Ascii.eqb c ">" = false
  /\ Ascii.eqb c dquote = false /\ Ascii.eqb c "'" = false
  /\ Ascii.eqb c NBSP = false /\ Ascii.eqb c "_" = false.
Proof. unfold plainChar. rewrite negb_true_iff, !orb_false_iff. tauto. Qed.

Lemma plainText_cons (c : ascii) (s : string) :
  plainText (String c s) = true -> plainChar c = true /\ plainText s = true.
Proof. cbn [plainText]. intros H. now apply andb_true_iff in H. Qed.

Lemma plainText_app (s1 s2 : string) :
  plainText (s1 +:+ s2) = plainText s1 && plainText s2.
Proof.
  induction s1 as [| c s1 IH]; [reflexivity |].
  rewrite append_cons. cbn [plainText]. now rewrite IH, andb_assoc.
Qed.

Lemma plainText_occurs (x : ascii) (s : string) :
  plainChar x = false -> plainText s = true -> occurs x s = false.
Proof.
  intros Hx. induction s as [| c s IH]; intros Hs; [reflexivity |].
  apply plainText_cons in Hs as [Hc Hs]. cbn [occurs].
  rewrite (IH Hs), orb_false_r. apply Ascii.eqb_neq. intros ->. congruence.
Qed.

Lemma replaceAll_absent (c : ascii) (by_ s : string) :
  occurs c s = false -> replaceAll c by_ s = s.
Proof.
  induction s as [| x s IH]; intros H; [reflexivity |].
  cbn [occurs] in H. apply orb_false_iff in H as [Hx Hs].
  cbn [replaceAll]. now rewrite Hx, (IH Hs).
Qed.

Lemma escapeHtml_plain (s : string) : plainText s = true -> escapeHtml s = s.
Proof.
  intros H. unfold escapeHtml.
  rewrite (replaceAll_absent "&" _ s) by now apply plainText_occurs.
  rewrite (replaceAll_absent "<" _ s) by now apply plainText_occurs.
  rewrite (replaceAll_absent ">" _ s) by now apply plainText_occurs.
  now rewrite (replaceAll_absent dquote _ s) by now apply plainText_occurs.
Qed.

Lemma escapeAttr_plain (s : string) : plainText s = true -> escapeAttr s = s.
Proof.
  intros H. unfold escapeAttr. rewrite (escapeHtml_plain s H).
  now rewrite replaceAll_absent by now apply plainText_occurs.
Qed.

Lemma escapeTextarea_plain (s : string) : plainText s = true -> escapeTextarea s = s.
Proof.
  intros H. unfold escapeTextarea.
  rewrite (replaceAll_absent "<" _ s) by now apply plainText_occurs.
  now rewrite replaceAll_absent by now apply plainText_occurs.
Qed.

Lemma normalize_plain (s : string) : plainText s = true -> normalizeNewlines s = s.
Proof. intros H. apply normalize_fixed. now apply plainText_occurs. Qed.

Lemma decodeGo_plain (s : string) : plainText s = true -> decodeGo 0 s = Some s.
Proof.
  induction s as [| c s IH]; intros H; [reflexivity |].
  apply plainText_cons in H as [Hc Hs].
  apply plainChar_cases in Hc as (Hnul & _ & _ & Hamp & _).
  cbn [decodeGo]. now rewrite Hnul, Hamp, (IH Hs).
Qed.

Lemma beforeQuote_plain (s : string) : plainText s = true -> beforeQuote s = s.
Proof.
  induction s as [| c s IH]; intros H; [reflexivity |].
  apply plainText_cons in H as [Hc Hs].
  apply plainChar_cases in Hc as (_ & _ & _ & _ & _ & _ & Hq & _).
  cbn [beforeQuote]. now rewrite Hq, (IH Hs).
Qed.

Lemma stripNewlines_plain (s : string) : plainText s = true -> stripNewlines s = s.
Proof.
  induction s as [| c s IH]; intros H; [reflexivity |].
  apply plainText_cons in H as [Hc Hs].
  apply plainChar_cases in Hc as (_ & Hlf & Hcr & _).
  cbn [stripNewlines]. now rewrite Hlf, Hcr, (IH Hs).
Qed.

Lemma rcdataGo_plain (s : string) : plainText s = true -> rcdataGo 0 s = Some s.
Proof.
  induction s as [| c s IH]; intros H; [reflexivity |].
  apply plainText_cons in H as [Hc Hs].
  apply plainChar_cases in Hc as (Hnul & _ & _ & Hamp & Hlt & _).
  cbn [rcdataGo]. now rewrite Hnul, Hlt, Hamp, (IH Hs).
Qed.

Lemma dropLeadingLF_plain (s : string) : plainText s = true -> dropLeadingLF s = s.
Proof.
  destruct s as [| c s]; intros H; [reflexivity |].
  apply plainText_cons in H as [Hc _].
  apply plainChar_cases in Hc as (_ & Hlf & _).
  cbn [dropLeadingLF]. now rewrite Hlf.
Qed.

(** What the browser reads from the controls that [onEdit] fills with plain
    text: the text. *)
Lemma attrValue_plain (s : string) :
  plainText s = true -> attrValue (escapeAttr s) = Some s.
Proof.
  intros H. unfold attrValue.
  now rewrite (escapeAttr_plain s H), (normalize_plain s H), (beforeQuote_plain s H),
    (decodeGo_plain s H).
Qed.

Lemma inputValue_plain (s : string) :
  plainText s = true -> inputValue (escapeAttr s) = Some s.
Proof.
  intros H. unfold inputValue. rewrite (attrValue_plain s H).
  cbn [fmap option_fmap option_map]. now rewrite (stripNewlines_plain s H).
Qed.

Lemma textareaValue_plain (s : string) :
  plainText s = true -> textareaValue (escapeTextarea s) = Some s.
Proof.
  intros H. unfold textareaValue.
  rewrite (escapeTextarea_plain s H), (normalize_plain s H), (rcdataGo_plain s H).
  cbn [fmap option_fmap option_map]. now rewrite (dropLeadingLF_plain s H).
Qed.

Lemma plainText_trimStart (s : string) :
  plainText s = true -> plainText (trimStart s) = true.
Proof.
  induction s as [| c s IH]; intros H; [reflexivity |].
  cbn [trimStart]. destruct (isSpace c); [| exact H].
  apply plainText_cons in H as [_ Hs]. exact (IH Hs).
Qed.

Lemma plainText_trimEnd (s : string) :
  plainText s = true -> plainText (trimEnd s) = true.
Proof.
  induction s as [| c s IH]; intros H; [reflexivity |].
  apply plainText_cons in H as [Hc Hs]. specialize (IH Hs).
  cbn [trimEnd]. destruct (trimEnd s) as [| c' s'].
  - destruct (isSpace c); [reflexivity |]. cbn [plainText]. now rewrite Hc.
  - cbn [plainText] in *. now rewrite Hc.
Qed.

Lemma plainText_trim (s : string) : plainText s = true -> plainText (trim s) = true.
Proof. intros H. unfold trim. now apply plainText_trimEnd, plainText_trimStart. Qed.

(** *** The options cell as the browser reads it *)

Lemma emit_cons (c : ascii) (t : string) (x : option string) :
  emit (String c "") (emit t x) = emit (String c t) x.
Proof. now destruct x. Qed.

Lemma textGo_plain (t rest : string) :
  plainText t = true -> textGo 0 (t +:+ rest) = emit t (textGo 0 rest).
Proof.
  induction t as [| c t IH]; intros H.
  - change ("" +:+ rest) with rest. now destruct (textGo 0 rest).
  - apply plainText_cons in H as [Hc Ht].
    apply plainChar_cases in Hc as (Hnul & _ & _ & Hamp & Hlt & _).
    rewrite append_cons. cbn [textGo]. rewrite Hnul, Hlt, Hamp, (IH Ht).
    unfold prepend. now destruct (textGo 0 rest).
Qed.

Lemma reserialize_plain (t rest : string) :
  plainText t = true -> reserialize 0 (t +:+ rest) = emit t (reserialize 0 rest).
Proof.
  induction t as [| c t IH]; intros H.
  - change ("" +:+ rest) with rest. now destruct (reserialize 0 rest).
  - apply plainText_cons in H as [Hc Ht].
    apply plainChar_cases in Hc as (Hnul & _ & _ & Hamp & Hlt & Hgt & _ & _ & Hnb & _).
    rewrite append_cons. cbn [reserialize]. rewrite Hnul, Hlt, Hamp, (IH Ht).
    unfold serializeChar. rewrite Hamp, Hlt, Hgt, Hnb. apply emit_cons.
Qed.

Lemma textGo_break (rest : string) : textGo 0 ("<br>" +:+ rest) = textGo 0 rest.
Proof. reflexivity. Qed.

Lemma reserialize_break (rest : string) :
  reserialize 0 ("<br>" +:+ rest) = emit "<br>" (reserialize 0 rest).
Proof. reflexivity. Qed.

(** Plain parts joined by [<br>]: the serialisation is the markup again,
    the text is the parts run together, and there is no carriage return to
    normalise. *)
Lemma join_read (parts : list string) :
  forallb plainText parts = true ->
  reserialize 0 (join "<br>" parts) = Some (join "<br>" parts)
  /\ textGo 0 (join "<br>" parts) = Some (join "" parts)
  /\ plainText (join "" parts) = true
  /\ occurs CR (join "<br>" parts) = false.
Proof.
  induction parts as [| p rest IH]; intros H; [now repeat split |].
  cbn [forallb] in H. apply andb_true_iff in H as [Hp Hrest].
  destruct (IH Hrest) as (Hser & Htext & Hplain & Hcr).
  destruct rest as [| p' rest].
  - cbn [join]. rewrite <- (append_empty p) at 1 3.
    rewrite (reserialize_plain p "" Hp), (textGo_plain p "" Hp).
    cbn [reserialize textGo emit fmap option_fmap option_map].
    rewrite append_empty. repeat split; try exact Hp.
    now apply plainText_occurs.
  - change (join "<br>" (p :: p' :: rest))
      with (p +:+ "<br>" +:+ join "<br>" (p' :: rest)).
    change (join "" (p :: p' :: rest)) with (p +:+ join "" (p' :: rest)).
    rewrite (reserialize_plain p _ Hp), (textGo_plain p _ Hp).
    rewrite reserialize_break, textGo_break, Hser, Htext.
    rewrite plainText_app, Hp, Hplain, !occurs_app, Hcr.
    rewrite (plainText_occurs CR p) by (reflexivity || exact Hp).
    now repeat split.
Qed.

Lemma letterOf_plain (i : Z) : plainText (letterOf i) = true.
Proof.
  unfold letterOf. destruct (i <? 0); [reflexivity |].
  now destruct (Z.to_nat i) as [| [| [| [| n]]]].
Qed.

Lemma mapi_plain (opts : list string) : forall i : Z,
  forallb plainText opts = true ->
  mapi_from i (fun opt i => letterOf i +:+ ") " +:+ escapeHtml opt) opts
  = mapi_from i (fun opt i => letterOf i +:+ ") " +:+ opt) opts
  /\ forallb plainText (mapi_from i (fun opt i => letterOf i +:+ ") " +:+ opt) opts)
     = true.
Proof.
  induction opts as [| o opts IH]; intros i H; [now split |].
  cbn [forallb] in H. apply andb_true_iff in H as [Ho Hopts].
  destruct (IH (i + 1) Hopts) as [Heq Hall].
  cbn [mapi_from forallb]. rewrite Heq, Hall, (escapeHtml_plain o Ho).
  now rewrite !plainText_app, letterOf_plain, Ho.
Qed.

Lemma optionsCell_read (opts : list string) :
  forallb plainText opts = true ->
  innerHTML (optionsCell opts) = Some (optionsCell opts)
  /\ textContent (optionsCell opts) = Some (labelled opts)
  /\ plainText (labelled opts) = true.
Proof.
  intros H. unfold innerHTML, textContent, optionsCell, labelled, mapi.
  destruct (mapi_plain opts 0 H) as [-> Hall].
  destruct (join_read _ Hall) as (Hser & Htext & Hplain & Hcr).
  now rewrite (proj2 (normalize_fixed _) Hcr).
Qed.

Lemma labelled_longer (o : string) (rest : list string) :
  (String.length o < String.length (labelled (o :: rest)))%nat.
Proof.
  unfold labelled, mapi. cbn [mapi_from]. change (letterOf 0) with "A".
  destruct (mapi_from (0 + 1) _ rest) as [| p ps].
  - cbn [join]. rewrite !length_app. cbn [String.length]. lia.
  - change (join "" (?x :: p :: ps)) with (x +:+ join "" (p :: ps)).
    rewrite !length_app. cbn [String.length]. lia.
Qed.

Lemma labelled_truthy (opts : list string) :
  opts <> [] -> truthy (labelled opts) = true.
Proof.
  destruct opts as [| o rest]; [contradiction |]. intros _.
  pose proof (labelled_longer o rest) as H.
  destruct (labelled (o :: rest)); [cbn in H; lia | reflexivity].
Qed.

Lemma labelled_not_first (opts : list string) :
  [labelled opts; ""; ""; ""] <> opts.
Proof.
  intros H. destruct opts as [| o rest]; [discriminate |].
  pose proof (labelled_longer o rest) as Hlen.
  injection H as Ho _. rewrite Ho in Hlen. lia.
Qed.

(** *** The pattern of lines 398 and 400 on plain text *)

Lemma startsWith_app (p s : string) :
  startsWith p s = true -> exists t, s = p +:+ t.
Proof.
  revert s. induction p as [| a p IH]; intros s H; [now exists s |].
  destruct s as [| b s]; [discriminate |].
  cbn [startsWith] in H. apply andb_true_iff in H as [Hab Hp].
  apply Ascii.eqb_eq in Hab as ->. destruct (IH s Hp) as [t ->].
  exists t. now rewrite append_cons.
Qed.

Lemma marker_absent (r : string) :
  occurs "_" r = false -> startsWith markerText r = false.
Proof.
  intros H. destruct (startsWith markerText r) eqn:Hs; [| reflexivity].
  apply startsWith_app in Hs as [t ->]. rewrite occurs_app in H.
  discriminate H.
Qed.

Lemma occurs_drop (c : ascii) (s : string) : forall n : nat,
  occurs c s = false -> occurs c (drop n s) = false.
Proof.
  induction s as [| x s IH]; intros n H; [now destruct n |].
  destruct n as [| n]; [exact H |].
  cbn [occurs] in H. apply orb_false_iff in H as [_ H].
  cbn [drop]. now apply IH.
Qed.

Lemma matchMarker_plain (s : string) : plainText s = true -> matchMarker s = None.
Proof.
  intros H. unfold matchMarker.
  pose proof (occurs_drop "_" s (spaces s) (plainText_occurs "_" s eq_refl H)) as Hd.
  destruct (drop (spaces s) s) as [| c r]; [reflexivity |].
  cbn [occurs] in Hd. apply orb_false_iff in Hd as [_ Hr].
  now rewrite (marker_absent r Hr), andb_false_r.
Qed.

Lemma plain_not_break (c : ascii) : plainChar c = true -> isLineBreak c = false.
Proof.
  intros H. apply plainChar_cases in H as (_ & Hlf & Hcr & _).
  apply Ascii.eqb_neq in Hlf, Hcr.
  destruct (isLineBreak c) eqn:Hb; [| reflexivity]. exfalso.
  unfold isLineBreak in Hb. apply orb_true_iff in Hb as [Hb | Hb];
    apply Nat.eqb_eq in Hb; apply (f_equal ascii_of_nat) in Hb;
    rewrite ascii_nat_embedding in Hb; auto.
Qed.

Lemma matchBreak_plain (s : string) : plainText s = true -> matchBreak s = None.
Proof.
  induction s as [| c s IH]; intros H; [reflexivity |].
  apply plainText_cons in H as [Hc Hs].
  cbn [matchBreak]. rewrite (IH Hs), (plain_not_break c Hc).
  now destruct (isSpace c).
Qed.

(** A pattern that matches nowhere leaves the text in one part. *)
Lemma splitGo_plain (m : string -> option nat) (s : string) :
  (forall t, plainText t = true -> m t = None) ->
  forall part, plainText s = true -> splitGo m 0 part s = [part +:+ s].
Proof.
  intros Hm. induction s as [| c s IH]; intros part H.
  - now rewrite append_empty.
  - cbn [splitGo]. rewrite (Hm _ H).
    apply plainText_cons in H as [_ Hs].
    rewrite (IH _ Hs), append_assoc. reflexivity.
Qed.

Lemma stripMarker_plain (s : string) : plainText s = true -> stripMarker s = s.
Proof.
  destruct s as [| c r]; intros H; [reflexivity |].
  apply plainText_cons in H as [_ Hr]. cbn [stripMarker].
  now rewrite (marker_absent r (plainText_occurs "_" r eq_refl Hr)), andb_false_r.
Qed.

(** On plain text the first strategy finds one part, not four, and the
    fallback finds no line break: the text comes back whole. *)
Lemma optionsOfText_plain (text : string) :
  plainText text = true -> truthy text = true -> optionsOfText text = [text].
Proof.
  intros Hp Ht. unfold optionsOfText, split.
  rewrite (splitGo_plain matchMarker text matchMarker_plain "" Hp).
  rewrite (splitGo_plain matchBreak text matchBreak_plain "" Hp).
  change ("" +:+ text) with text.
  cbn [List.filter List.map]. rewrite Ht. cbn [List.length Nat.eqb].
  rewrite (stripMarker_plain text Hp).
  cbn [List.filter]. now rewrite Ht.
Qed.

Lemma extract_plain (opts : list string) :
  opts <> [] -> forallb plainText opts = true ->
  extractOptionsFromHtml (optionsCell opts) = Some [labelled opts].
Proof.
  intros Hne H. destruct (optionsCell_read opts H) as (_ & Htext & Hplain).
  unfold extractOptionsFromHtml. rewrite Htext.
  cbn [fmap option_fmap option_map].
  now rewrite (optionsOfText_plain _ Hplain (labelled_truthy opts Hne)).
Qed.

(** *** The row in edit mode *)

Lemma onEdit_rendered (q : Row) (row : EditRow) :
  row_options q <> [] -> forallb plainText (row_options q) = true ->
  onEdit (renderRow q) = Some row ->
  e_id row = row_id q
  /\ e_opts row = fourInputs (labelled (row_options q)) "" "" "".
Proof.
  intros Hne Hp H. unfold onEdit, renderRow in H.
  cbn [c_id c_subject c_question c_options c_answer c_difficulty c_explanation] in H.
  rewrite !textContent_escapeHtml in H.
  rewrite (proj1 (optionsCell_read _ Hp)) in H.
  cbn [fmap option_fmap option_map mbind option_bind] in H.
  rewrite (extract_plain _ Hne Hp) in H.
  pose proof (proj2 (proj2 (optionsCell_read _ Hp))) as Hplain.
  cbn [optAt lookup list_lookup default from_option id mapM mbind option_bind] in H.
  rewrite (inputValue_plain _ Hplain), (attrValue_plain _ Hplain) in H.
  change (inputValue (escapeAttr "")) with (Some "") in H.
  change (attrValue (escapeAttr "")) with (Some "") in H.
  cbn [fmap option_fmap option_map mbind option_bind mret option_ret] in H.
  destruct (textareaValue (escapeTextarea (trim (shownText (row_question q)))));
    [| discriminate H].
  destruct (textareaValue (escapeTextarea (trim (shownText (row_explanation q)))));
    [| discriminate H].
  cbn [mbind option_bind] in H. injection H as <-. now split.
Qed.

Lemma onEdit_defined (q : Row) :
  row_options q <> [] -> forallb plainText (row_options q) = true ->
  plainText (row_question q) = true -> plainText (row_explanation q) = true ->
  exists row, onEdit (renderRow q) = Some row
    /\ e_question row = trim (row_question q)
    /\ e_expl row = trim (row_explanation q).
Proof.
  intros Hne Hp Hq He. unfold onEdit, renderRow.
  cbn [c_id c_subject c_question c_options c_answer c_difficulty c_explanation].
  rewrite !textContent_escapeHtml.
  rewrite (proj1 (optionsCell_read _ Hp)).
  cbn [fmap option_fmap option_map mbind option_bind].
  rewrite (extract_plain _ Hne Hp).
  pose proof (proj2 (proj2 (optionsCell_read _ Hp))) as Hplain.
  cbn [optAt lookup list_lookup default from_option id mapM mbind option_bind].
  rewrite (inputValue_plain _ Hplain), (attrValue_plain _ Hplain).
  change (inputValue (escapeAttr "")) with (Some "").
  change (attrValue (escapeAttr "")) with (Some "").
  cbn [fmap option_fmap option_map mbind option_bind mret option_ret].
  rewrite (shownText_fixed (row_question q)), (shownText_fixed (row_explanation q))
    by now apply plainText_occurs.
  rewrite !textareaValue_plain by now apply plainText_trim.
  cbn [mbind option_bind]. eexists. split; [reflexivity |]. now split.
Qed.

(** C7, the code on ordinary rows: the pattern of lines 398 and 400 looks
    for the text [KATEX_INLINE_CLOSE] after the letter, which no rendered
    cell holds.  For every row whose options are plain text (no markup
    characters, line breaks or underscore) the first strategy finds one part,
    the fallback finds no line break ([textContent] drops [<br>]), and Edit
    fills the first input with the whole text of the cell, letters included,
    and leaves the other three empty: the inputs never hold the options of the
    row.  Edit does produce the controls when the question text and the
    explanation are plain text too. *)
Theorem edit_loses_options (q : Row) :
  row_options q <> [] ->
  forallb plainText (row_options q) = true ->
  extractOptionsFromHtml (optionsCell (row_options q))
  = Some [labelled (row_options q)]
  /\ (forall row, onEdit (renderRow q) = Some row ->
      List.map i_value (e_opts row) = [labelled (row_options q); ""; ""; ""]
      /\ List.map i_value (e_opts row) <> row_options q)
  /\ (plainText (row_question q) = true -> plainText (row_explanation q) = true ->
      exists row, onEdit (renderRow q) = Some row).
Proof.
  intros Hne Hp. split; [exact (extract_plain _ Hne Hp) |]. split.
  - intros row H. destruct (onEdit_rendered q row Hne Hp H) as [_ ->].
    split; [reflexivity |]. apply labelled_not_first.
  - intros Hq He. destruct (onEdit_defined q Hne Hp Hq He) as (row & H & _).
    now exists row.
Qed.

(** The row of the capitals, and the row whose third option holds
    parentheses, in edit mode. *)
Example edit_loses_capitals :
  List.map i_value <$> (e_opts <$> onEdit (renderRow capitalRow))
  = Some ["A) ParisB) LondonC) RomeD) Berlin"; ""; ""; ""]
  /\ List.map i_value <$> (e_opts <$> onEdit (renderRow organelleRow))
     = Some ["A) MitochondriaB) ChloroplastC) Both (A) and (B)D) None of these";
             ""; ""; ""].
Proof. vm_compute. now split. Qed.

Lemma edit_loses_options_witness :
  exists row,
    onEdit (renderRow capitalRow) = Some row
    /\ List.map i_value (e_opts row) = ["A) ParisB) LondonC) RomeD) Berlin"; ""; ""; ""].
Proof.
  assert (Hne : row_options capitalRow <> []) by discriminate.
  assert (Hp : forallb plainText (row_options capitalRow) = true) by reflexivity.
  destruct (edit_loses_options capitalRow Hne Hp) as (_ & Hin & Hdef).
  destruct (Hdef eq_refl eq_refl) as [row Hrow].
  exists row. split; [exact Hrow |]. exact (proj1 (Hin row Hrow)).
Defined.

(** ** The statements at sample sessions *)

(** Five questions, two steps forward and one back: the index is in range
    and a further Previous click lowers it by one. *)
Lemma navigation_in_range_witness :
  let p := run [ClickNext; ClickNext; ClickPrev]
             (opened "7" 5 600 markupSubmitHidden
                (FetchJson (Some (QArray fiveQuestions)))) in
  truthy "7" = true /\ 5 <> 0
  /\ location (env p) = None /\ 0 < currentIndex p
  /\ 0 <= currentIndex p < 5
  /\ currentIndex (step p ClickPrev) = currentIndex p - 1.
Proof.
  intros p.
  assert (Hid : truthy "7" = true) by reflexivity.
  assert (Htot : 5 <> 0) by discriminate.
  assert (Hloc : location (env p) = None) by (vm_compute; reflexivity).
  assert (Hpos : 0 < currentIndex p) by (vm_compute; reflexivity).
  repeat (split; [assumption |]).
  destruct (navigation_in_range "7" 5 600 markupSubmitHidden capital
              [planet; organelle; element; unit]
              [ClickNext; ClickNext; ClickPrev] Hid Htot)
    as (_ & Hrange & _ & _ & _ & _ & _ & Hprev & _).
  split; [exact Hrange | exact (Hprev Hloc Hpos)].
Defined.

(** Thirty-one seconds: after one tick the timer still looks as shipped,
    after two the style is applied, and later events keep it. *)
Lemma urgent_style_permanent_witness :
  let p0 := opened "7" 5 31 markupSubmitHidden
              (FetchJson (Some (QArray fiveQuestions))) in
  let p := run [Tick; Tick] p0 in
  truthy "7" = true /\ 5 <> 0 /\ - maxExact < 31 <= maxExact
  /\ 30 <= timerSeconds (run [Tick] p0)
  /\ timerSeconds p < 30
  /\ timerStyle (dom (run [Tick] p0)) = mkStyle "" "" ""
  /\ timerStyle (dom p) = mkStyle "#fee2e2" "#991b1b" "#fecaca"
  /\ timerStyle (dom (run [ClickNext; Tick] p))
     = mkStyle "#fee2e2" "#991b1b" "#fecaca".
Proof.
  intros p0 p.
  assert (Hid : truthy "7" = true) by reflexivity.
  assert (Htot : 5 <> 0) by discriminate.
  assert (Hrange : - maxExact < 31 <= maxExact) by (unfold maxExact; lia).
  assert (Hge : 30 <= timerSeconds (run [Tick] p0)) by (vm_compute; discriminate).
  assert (Hlt : timerSeconds p < 30) by (vm_compute; reflexivity).
  split; [exact Hid |]. split; [exact Htot |]. split; [exact Hrange |].
  split; [exact Hge |]. split; [exact Hlt |].
  split.
  - destruct (urgent_style_permanent "7" 5 31 markupSubmitHidden capital
                [planet; organelle; element; unit] [Tick] Hid Htot Hrange)
      as (Hcalm & _).
    exact (Hcalm Hge).
  - destruct (urgent_style_permanent "7" 5 31 markupSubmitHidden capital
                [planet; organelle; element; unit] [Tick; Tick] Hid Htot Hrange)
      as (_ & Happlied & Hkept & _).
    split; [exact (Happlied Hlt) | exact (Hkept (Happlied Hlt) [ClickNext; Tick])].
Defined.

(** Two seconds and one tick: the next tick is the one of expiry and leaves
    the display alone. *)
Lemma display_stays_positive_witness :
  let p := run [Tick]
             (opened "7" 5 2 markupSubmitHidden
                (FetchJson (Some (QArray fiveQuestions)))) in
  truthy "7" = true /\ 5 <> 0 /\ 0 < 2
  /\ deliverable p Tick = true /\ timerSeconds p - 1 <= 0
  /\ timerText (dom p) <> "0:00"
  /\ interval (env (step p Tick)) = false
  /\ timerText (dom (step p Tick)) = timerText (dom p).
Proof.
  intros p.
  assert (Hid : truthy "7" = true) by reflexivity.
  assert (Htot : 5 <> 0) by discriminate.
  assert (Hpos : 0 < 2) by reflexivity.
  assert (Hd : deliverable p Tick = true) by (vm_compute; reflexivity).
  assert (Hle : timerSeconds p - 1 <= 0) by (vm_compute; discriminate).
  repeat (split; [assumption |]).
  destruct (display_stays_positive "7" 5 2 markupSubmitHidden capital
              [planet; organelle; element; unit] [Tick] Hid Htot Hpos)
    as (Hnz & _ & _ & Hexp).
  destruct (Hexp Hd Hle) as (Hoff & Hsame & _).
  split; [exact Hnz |]. split; [exact Hoff | exact Hsame].
Defined.

(** One question, two seconds, two Submit clicks around the expiry: three
    requests, and a tick after expiry changes nothing. *)
Lemma submissions_counted_witness :
  let p0 := opened "7" 1 2 markupSubmitHidden (FetchJson (Some (QArray [capital]))) in
  let evs := [ClickSubmit; Tick; ClickSubmit; Tick; Tick] in
  truthy "7" = true /\ 1 <> 0
  /\ interval (env (run evs p0)) = false
  /\ List.length (requests (env (run evs p0)))
     = (deliveredSubmits p0 evs + expired (run evs p0))%nat
  /\ step (run evs p0) Tick = run evs p0.
Proof.
  intros p0 evs.
  assert (Hid : truthy "7" = true) by reflexivity.
  assert (Htot : 1 <> 0) by discriminate.
  assert (Hoff : interval (env (run evs p0)) = false) by (vm_compute; reflexivity).
  repeat (split; [assumption |]).
  destruct (submissions_counted "7" 1 2 markupSubmitHidden capital []
              [ClickSubmit; Tick; ClickSubmit; Tick; Tick] Hid Htot)
    as (Hcount & Hafter).
  split; [exact Hcount | exact (proj1 (Hafter Hoff))].
Defined.


(** Choosing Paris, going to the next question and back shows Paris
    checked. *)
Lemma selection_restored_witness :
  let p0 := opened "7" 2 60 markupSubmitHidden
              (FetchJson (Some (QArray [capital; planet]))) in
  truthy "7" = true /\ 2 <> 0
  /\ location (env (run [] p0)) = None
  /\ questionAt [capital; planet] (currentIndex (run [] p0)) = Some capital
  /\ q_options capital !! 0%nat = Some "Paris"
  /\ attrValue (escapeHtml "Paris") = Some "Paris"
  /\ truthy "Paris" = true
  /\ preselected capital "Paris"
       (questionArea
          (dom (step (run [ClickNext] (step (run [] p0) (Change 0))) ClickPrev))).
Proof.
  intros p0.
  assert (Hid : truthy "7" = true) by reflexivity.
  assert (Htot : 2 <> 0) by discriminate.
  assert (Hloc : location (env (run [] p0)) = None) by reflexivity.
  assert (Hat : questionAt [capital; planet] (currentIndex (run [] p0))
                = Some capital) by reflexivity.
  assert (Ho : q_options capital !! 0%nat = Some "Paris") by reflexivity.
  assert (Hread : attrValue (escapeHtml "Paris") = Some "Paris") by reflexivity.
  assert (Ht : truthy "Paris" = true) by reflexivity.
  split; [exact Hid |]. split; [exact Htot |]. split; [exact Hloc |].
  split; [exact Hat |]. split; [exact Ho |]. split; [exact Hread |].
  split; [exact Ht |].
  destruct (selection_restored "7" 2 60 markupSubmitHidden capital [planet] []
              capital 0 "Paris" "Paris" Hid Htot Hloc Hat Ho Hread)
    as (_ & _ & _ & _ & _ & _ & H).
  assert (Htouch : touched (q_id capital) (step (run [] p0) (Change 0)) [ClickNext]
                   = false)
    by (vm_compute; reflexivity).
  destruct (H Ht [ClickNext] Htouch) as [_ H'].
  assert (Hmove : currentIndex
                    (step (run [ClickNext] (step (run [] p0) (Change 0))) ClickPrev)
                  <> currentIndex (run [ClickNext] (step (run [] p0) (Change 0))))
    by (vm_compute; discriminate).
  assert (Hback : questionAt [capital; planet]
                    (currentIndex
                       (step (run [ClickNext] (step (run [] p0) (Change 0)))
                          ClickPrev))
                  = Some capital)
    by (vm_compute; reflexivity).
  exact (proj1 (H' ClickPrev (or_introl eq_refl) Hmove Hback)).
Defined.

(** Five questions of which the first and the third are answered: the body
    has two entries. *)
Lemma payload_has_answered_only_witness :
  let p := run [Change 0; ClickNext; ClickNext; Change 2; ClickNext; ClickNext]
             (opened "7" 5 600 markupSubmitHidden
                (FetchJson (Some (QArray fiveQuestions)))) in
  truthy "7" = true /\ 5 <> 0
  /\ deliverable p ClickSubmit = true
  /\ NoDup (q_id <$> fiveQuestions)
  /\ List.length fiveQuestions = 5%nat
  /\ List.length (List.filter (answered (answers p)) fiveQuestions) = 2%nat
  /\ requests (env (step p ClickSubmit)) = buildPayload p fiveQuestions :: requests (env p)
  /\ size (p_answers (buildPayload p fiveQuestions)) = 2%nat.
Proof.
  intros p.
  assert (Hid : truthy "7" = true) by reflexivity.
  assert (Htot : 5 <> 0) by discriminate.
  assert (Hd : deliverable p ClickSubmit = true) by (vm_compute; reflexivity).
  assert (Hnd : NoDup (q_id <$> fiveQuestions)).
  { refine (bool_decide_unpack (NoDup (q_id <$> fiveQuestions)) _).
    vm_compute. exact I. }
  assert (H5 : List.length fiveQuestions = 5%nat) by reflexivity.
  assert (H2 : List.length (List.filter (answered (answers p)) fiveQuestions) = 2%nat)
    by (vm_compute; reflexivity).
  repeat (split; [assumption |]).
  destruct (payload_has_answered_only "7" 5 600 markupSubmitHidden capital
              [planet; organelle; element; unit]
              [Change 0; ClickNext; ClickNext; Change 2; ClickNext; ClickNext]
              Hid Htot)
    as (Hs & _ & _ & _ & _ & _ & _ & _ & Hn).
  split; [exact (Hs Hd) | exact (Hn Hnd H5 H2)].
Defined.

(** The sample row is sent as typed; with an empty second option it is
    rejected. *)
Lemma save_validates_witness :
  let row := mkEditRow 7 "Physics" "Capital of France?"
               (fourInputs "Paris" "London" "Rome" "Berlin") "Paris" "Easy" "" in
  acceptable "Capital of France?" ["Paris"; "London"; "Rome"; "Berlin"] "Paris" = true
  /\ t_updates (onSave (mkTable row [] []))
     = [mkUpdate 7 "Physics" "Capital of France?"
          ["Paris"; "London"; "Rome"; "Berlin"] "Paris" "Easy" ""]
  /\ acceptable (trim "Capital of France?")
       [trim "Paris"; trim ""; trim "London"; trim "Rome"] "Paris" = false
  /\ t_updates (onSave (mkTable
                          (mkEditRow 7 "Physics" "Capital of France?"
                             (fourInputs "Paris" "" "London" "Rome") "Paris" "Easy" "")
                          [] [])) = [].
Proof.
  intros row.
  assert (Hacc : acceptable "Capital of France?"
                   ["Paris"; "London"; "Rome"; "Berlin"] "Paris" = true)
    by reflexivity.
  split; [exact Hacc |]. split.
  - destruct (save_validates 7 "Physics" "Capital of France?" "Paris" "London" "Rome"
                "Berlin" "Paris" "Easy" "" [] [])
      as (_ & _ & _ & _ & _ & _ & H).
    apply H; reflexivity.
  - destruct (save_validates 7 "Physics" "Capital of France?" "Paris" "" "London"
                "Rome" "Paris" "Easy" "" [] [])
      as (Hrej & _ & _ & _ & _ & Hraw & _).
    assert (Hno : acceptable (trim "Capital of France?")
                    [trim "Paris"; trim ""; trim "London"; trim "Rome"] "Paris"
                  = false)
      by (apply Hraw; right; left; reflexivity).
    split; [exact Hno |]. exact (proj1 (Hrej Hno)).
Defined.

(** * Further properties of the script *)

(** ** The escaping utilities (lines 374-387) *)

Lemma mapChars_app (f : ascii -> string) (s1 s2 : string) :
  mapChars f (s1 +:+ s2) = mapChars f s1 +:+ mapChars f s2.
Proof.
  induction s1 as [| c s1 IH]; [reflexivity |].
  rewrite append_cons. cbn [mapChars]. now rewrite IH, append_assoc.
Qed.

Lemma replaceAll_mapChars (c : ascii) (by_ s : string) :
  replaceAll c by_ s = mapChars (fun x => if Ascii.eqb x c then by_ else String x "") s.
Proof.
  induction s as [| x s IH]; [reflexivity |].
  cbn [replaceAll mapChars]. rewrite IH. now destruct (Ascii.eqb x c).
Qed.

Lemma escapeHtml_mapChars (s : string) : escapeHtml s = mapChars escapeChar s.
Proof.
  induction s as [| c s IH]; [reflexivity |].
  rewrite escapeHtml_cons. cbn [mapChars]. now rewrite IH.
Qed.

Lemma escapeAttr_mapChars (s : string) : escapeAttr s = mapChars escapeAttrChar s.
Proof.
  induction s as [| c s IH]; [reflexivity |].
  rewrite escapeAttr_cons. cbn [mapChars]. now rewrite IH.
Qed.

Lemma escapeTextarea_cons (c : ascii) (r : string) :
  escapeTextarea (String c r) = escapeTextareaChar c +:+ escapeTextarea r.
Proof.
  unfold escapeTextarea, escapeTextareaChar. cbn [replaceAll].
  destruct (Ascii.eqb_spec c "<") as [-> | Hlt].
  { now rewrite replaceAll_app. }
  destruct (Ascii.eqb_spec c ">") as [-> | Hgt].
  { cbn [replaceAll Ascii.eqb Bool.eqb]. reflexivity. }
  rewrite (replaceAll_other ">") by now apply Ascii.eqb_neq.
  reflexivity.
Qed.

Lemma escapeTextarea_mapChars (s : string) :
  escapeTextarea s = mapChars escapeTextareaChar s.
Proof.
  induction s as [| c s IH]; [reflexivity |].
  rewrite escapeTextarea_cons. cbn [mapChars]. now rewrite IH.
Qed.

(** X1.  The passes of the three escaping functions do not disturb one
    another: each function is one simultaneous replacement, character by
    character, so a character reference written by an earlier pass is never
    escaped again by a later one. *)
Theorem escaping_is_one_pass (s : string) :
  escapeHtml s = mapChars escapeChar s
  /\ escapeAttr s = mapChars escapeAttrChar s
  /\ escapeTextarea s = mapChars escapeTextareaChar s.
Proof.
  auto using escapeHtml_mapChars, escapeAttr_mapChars, escapeTextarea_mapChars.
Qed.

Lemma occurs_mapChars (c : ascii) (f : ascii -> string) (s : string) :
  (forall x, occurs c (f x) = false) -> occurs c (mapChars f s) = false.
Proof.
  intros Hf. induction s as [| x s IH]; [reflexivity |].
  cbn [mapChars]. now rewrite occurs_app, Hf, IH.
Qed.

Lemma escapeChar_clean (c x : ascii) :
  x = "<"%char \/ x = ">"%char \/ x = dquote -> occurs x (escapeChar c) = false.
Proof.
  intros Hx. unfold escapeChar.
  destruct (Ascii.eqb_spec c "&");
    [destruct Hx as [-> | [-> | ->]]; reflexivity |].
  destruct (Ascii.eqb_spec c "<");
    [destruct Hx as [-> | [-> | ->]]; reflexivity |].
  destruct (Ascii.eqb_spec c ">");
    [destruct Hx as [-> | [-> | ->]]; reflexivity |].
  destruct (Ascii.eqb_spec c dquote);
    [destruct Hx as [-> | [-> | ->]]; reflexivity |].
  cbn [occurs]. rewrite orb_false_r. apply Ascii.eqb_neq.
  destruct Hx as [-> | [-> | ->]]; assumption.
Qed.

Lemma escapeAttrChar_clean (c x : ascii) :
  x = "<"%char \/ x = ">"%char \/ x = dquote \/ x = "'"%char ->
  occurs x (escapeAttrChar c) = false.
Proof.
  intros Hx. unfold escapeAttrChar.
  destruct (Ascii.eqb_spec c "'") as [-> | Hq].
  - destruct Hx as [-> | [-> | [-> | ->]]]; reflexivity.
  - destruct Hx as [Hx | [Hx | [Hx | ->]]];
      try (apply escapeChar_clean; auto; fail).
    unfold escapeChar.
    destruct (Ascii.eqb c "&"); [reflexivity |].
    destruct (Ascii.eqb c "<"); [reflexivity |].
    destruct (Ascii.eqb c ">"); [reflexivity |].
    destruct (Ascii.eqb c dquote); [reflexivity |].
    cbn [occurs]. rewrite orb_false_r. now apply Ascii.eqb_neq.
Qed.

Lemma escapeTextareaChar_clean (c x : ascii) :
  x = "<"%char \/ x = ">"%char -> occurs x (escapeTextareaChar c) = false.
Proof.
  intros Hx. unfold escapeTextareaChar.
  destruct (Ascii.eqb_spec c "<"); [destruct Hx as [-> | ->]; reflexivity |].
  destruct (Ascii.eqb_spec c ">"); [destruct Hx as [-> | ->]; reflexivity |].
  cbn [occurs]. rewrite orb_false_r. apply Ascii.eqb_neq.
  destruct Hx as [-> | ->]; assumption.
Qed.

(** X2.  Escaped text holds no character that could open or close markup:
    [escapeHtml] leaves no [<], [>] or double quote, [escapeAttr] in addition
    no single quote, [escapeTextarea] no [<] and no [>]. *)
Theorem escaped_text_has_no_markup (s : string) :
  (occurs "<" (escapeHtml s) = false
   /\ occurs ">" (escapeHtml s) = false
   /\ occurs dquote (escapeHtml s) = false)
  /\ (occurs "<" (escapeAttr s) = false
      /\ occurs ">" (escapeAttr s) = false
      /\ occurs dquote (escapeAttr s) = false
      /\ occurs "'" (escapeAttr s) = false)
  /\ (occurs "<" (escapeTextarea s) = false
      /\ occurs ">" (escapeTextarea s) = false).
Proof.
  rewrite escapeHtml_mapChars, escapeAttr_mapChars, escapeTextarea_mapChars.
  repeat split; apply occurs_mapChars; intros x;
    first [ apply escapeChar_clean; tauto
          | apply escapeAttrChar_clean; tauto
          | apply escapeTextareaChar_clean; tauto ].
Qed.

(** Reading the character references back undoes the escaping. *)
Lemma unescape_escapeChar (c : ascii) (rest : string) :
  unescape 0 (escapeChar c +:+ rest) = String c (unescape 0 rest).
Proof.
  unfold escapeChar. char_cases c; try reflexivity.
  rewrite append_cons. cbn [unescape].
  apply Ascii.eqb_neq in Hamp. now rewrite Hamp.
Qed.

Lemma unescape_escapeHtml (s : string) : unescape 0 (escapeHtml s) = s.
Proof.
  induction s as [| c s IH]; [reflexivity |].
  now rewrite escapeHtml_cons, unescape_escapeChar, IH.
Qed.

Lemma unescape_escapeAttr (s : string) : unescape 0 (escapeAttr s) = s.
Proof.
  induction s as [| c s IH]; [reflexivity |].
  rewrite escapeAttr_cons. unfold escapeAttrChar.
  destruct (Ascii.eqb_spec c "'") as [-> | _].
  - change (unescape 0 ("&#39;" +:+ escapeAttr s))
      with (String "'" (unescape 0 (escapeAttr s))).
    now rewrite IH.
  - now rewrite unescape_escapeChar, IH.
Qed.

(** X3.  Escaping loses nothing: two texts with the same [escapeHtml], or
    with the same [escapeAttr], are the same text. *)
Theorem escaping_is_injective (s1 s2 : string) :
  escapeHtml s1 = escapeHtml s2 \/ escapeAttr s1 = escapeAttr s2 -> s1 = s2.
Proof.
  intros [H | H].
  - rewrite <- (unescape_escapeHtml s1), <- (unescape_escapeHtml s2).
    now rewrite H.
  - rewrite <- (unescape_escapeAttr s1), <- (unescape_escapeAttr s2).
    now rewrite H.
Qed.

(** Two texts with an equal escaped form. *)
Lemma escaping_is_injective_witness :
  escapeHtml "a<b" = escapeHtml "a<b" /\ "a<b" = "a<b".
Proof.
  assert (H : escapeHtml "a<b" = escapeHtml "a<b") by reflexivity.
  split; [exact H |].
  exact (escaping_is_injective "a<b" "a<b" (or_introl H)).
Defined.

Lemma escapeChar_length (c : ascii) :
  (1 <= String.length (escapeChar c))%nat
  /\ (String.length (escapeChar c) = 1%nat -> escapeChar c = String c "").
Proof.
  unfold escapeChar.
  destruct (Ascii.eqb c "&"); [cbn; split; [lia | discriminate] |].
  destruct (Ascii.eqb c "<"); [cbn; split; [lia | discriminate] |].
  destruct (Ascii.eqb c ">"); [cbn; split; [lia | discriminate] |].
  destruct (Ascii.eqb c dquote); [cbn; split; [lia | discriminate] |].
  cbn. split; [lia | reflexivity].
Qed.

Lemma escapeHtml_length (s : string) :
  (String.length s <= String.length (escapeHtml s))%nat.
Proof.
  induction s as [| c s IH]; [cbn; lia |].
  rewrite escapeHtml_cons, length_app. cbn [String.length].
  destruct (escapeChar_length c) as [H1 _]. lia.
Qed.

Lemma escapeChar_plain (c : ascii) :
  escapeChar c = String c ""
  <-> Ascii.eqb c "&" = false /\ Ascii.eqb c "<" = false
      /\ Ascii.eqb c ">" = false /\ Ascii.eqb c dquote = false.
Proof.
  unfold escapeChar.
  destruct (Ascii.eqb_spec c "&") as [-> | _]; [split; [discriminate | intros (H & _); discriminate] |].
  destruct (Ascii.eqb_spec c "<") as [-> | _]; [split; [discriminate | intros (_ & H & _); discriminate] |].
  destruct (Ascii.eqb_spec c ">") as [-> | _]; [split; [discriminate | intros (_ & _ & H & _); discriminate] |].
  destruct (Ascii.eqb_spec c dquote) as [-> | _]; [split; [discriminate | intros (_ & _ & _ & H); discriminate] |].
  tauto.
Qed.

(** X4.  [escapeHtml] returns its argument unchanged exactly when the
    argument holds none of the four characters it escapes. *)
Theorem escapeHtml_fixes_plain_text (s : string) :
  escapeHtml s = s
  <-> occurs "&" s = false /\ occurs "<" s = false
      /\ occurs ">" s = false /\ occurs dquote s = false.
Proof.
  induction s as [| c s IH]; [cbn; tauto |].
  rewrite escapeHtml_cons. cbn [occurs].
  rewrite !orb_false_iff. split.
  - intros Heq.
    assert (Hlen : String.length (escapeChar c) = 1%nat).
    { apply (f_equal String.length) in Heq.
      rewrite length_app in Heq. cbn [String.length] in Heq.
      pose proof (escapeHtml_length s). destruct (escapeChar_length c) as [H1 _].
      lia. }
    destruct (escapeChar_length c) as [_ Hone]. specialize (Hone Hlen).
    rewrite Hone, append_cons in Heq. injection Heq as Heq.
    change ("" +:+ escapeHtml s) with (escapeHtml s) in Heq.
    apply IH in Heq. apply escapeChar_plain in Hone. tauto.
  - intros ((Ha & Ha') & (Hl & Hl') & (Hg & Hg') & (Hq & Hq')).
    assert (Hone : escapeChar c = String c "") by (apply escapeChar_plain; tauto).
    rewrite Hone, append_cons.
    change ("" +:+ escapeHtml s) with (escapeHtml s).
    f_equal. apply IH. tauto.
Qed.

(** ** The recorded selections (lines 28, 72-76) *)

Lemma step_answers_grow (p : Page) (ev : Event) (k : string) :
  is_Some (answers p !! k) -> is_Some (answers (step p ev) !! k).
Proof.
  intros Hk.
  destruct (decide (written p ev = Some k)) as [Hw | Hw].
  - destruct ev as [r | | | | i | | r]; try discriminate.
    unfold step. unfold written in Hw.
    destruct (deliverable p (Change i)) eqn:Hd; [| discriminate].
    cbn [handle]. unfold onChange.
    unfold deliverable in Hd. destruct (location (env p)); [discriminate |].
    destruct (questionArea (dom p)) as [| | q num radios]; try discriminate.
    destruct (radios !! i) as [r |]; [| discriminate].
    cbn [mbind option_bind]. unfold hasValue in Hd.
    destruct (r_value r); [| discriminate].
    injection Hw as <-. cbn [answers setAnswers].
    rewrite lookup_insert_eq. eauto.
  - now rewrite step_answers.
Qed.

(** X5.  The recorded selections only grow: an entry of [answers], once
    there, is there after every further event (its value may change). *)
Theorem answers_never_shrink (p : Page) (evs : list Event) (k : string) :
  is_Some (answers p !! k) -> is_Some (answers (run evs p) !! k).
Proof.
  revert p. induction evs as [| ev evs IH]; intros p Hk; [exact Hk |].
  change (run (ev :: evs) p) with (run evs (step p ev)).
  apply IH, step_answers_grow, Hk.
Qed.

Lemma FromOptions_step (qs : list Question) (p : Page) (ev : Event) :
  Active qs p -> FromOptions qs (answers p) ->
  FromOptions qs (answers (step p ev)).
Proof.
  intros HA HF k v Hkv.
  destruct (decide (written p ev = Some k)) as [Hw | Hw].
  - destruct ev as [r | | | | i | | r]; try discriminate.
    destruct HA as (_ & _ & _ & Hi & _ & _ & _ & q & sel & Hat & Har).
    revert Hkv. unfold step. unfold written in Hw.
    destruct (deliverable p (Change i)); [| discriminate].
    cbn [handle]. unfold onChange. rewrite Har in Hw |- *.
    unfold mapi in *. rewrite mapi_from_lookup in Hw |- *.
    destruct (q_options q !! i) as [o |] eqn:Ho; [| discriminate].
    cbn [fmap option_fmap option_map mbind option_bind] in Hw |- *.
    injection Hw as <-. unfold renderRadio. cbn [r_value].
    destruct (attrValue (escapeHtml o)) as [v' |] eqn:Hv'; [| now apply HF].
    cbn [answers setAnswers]. rewrite lookup_insert_eq.
    intros [= <-]. exists q, o. split; [| split; [reflexivity | split; [| exact Hv']]].
    + unfold questionAt in Hat. destruct (currentIndex p <? 0); [discriminate |].
      eapply list_elem_of_lookup_2; eauto.
    + eapply list_elem_of_lookup_2; eauto.
  - rewrite step_answers in Hkv by exact Hw. eauto.
Qed.

Lemma FromOptions_run (qs : list Question) (evs : list Event) : forall p : Page,
  Active qs p -> FromOptions qs (answers p) ->
  FromOptions qs (answers (run evs p)).
Proof.
  induction evs as [| ev evs IH]; intros p HA HF; [exact HF |].
  change (run (ev :: evs) p) with (run evs (step p ev)).
  apply IH; [auto with session | now apply FromOptions_step].
Qed.

(** X6.  In a session opened on a non-empty list of questions, whatever is
    recorded in [answers] is recorded under the identifier of a question of
    the session and is the value the browser reads from the radio of one of
    that question's options: the option with its line breaks normalised (a
    carriage return, alone or before a line feed, becomes a line feed).  It is
    the option itself when the option holds no carriage return. *)
Theorem selections_are_options (id : string) (total0 timerSeconds0 : Z)
    (markup : Dom) (q0 : Question) (qs : list Question) (evs : list Event)
    (k v : string) :
  truthy id = true -> total0 <> 0 ->
  let p := run evs (opened id total0 timerSeconds0 markup
                      (FetchJson (Some (QArray (q0 :: qs))))) in
  answers p !! k = Some v ->
  exists q o,
    q ∈ q0 :: qs /\ q_id q = k /\ o ∈ q_options q
    /\ attrValue (escapeHtml o) = Some v
    /\ v = normalizeNewlines o
    /\ (occurs CR o = false -> v ∈ q_options q).
Proof.
  intros Hid Htot p Hkv.
  destruct (opened_Active id total0 timerSeconds0 markup q0 qs Hid Htot)
    as (HA & _ & Hans & _).
  assert (HF : FromOptions (q0 :: qs) (answers p)).
  { apply (FromOptions_run (q0 :: qs) evs _ HA).
    intros k' v' Hk'. rewrite Hans, lookup_empty in Hk'. discriminate. }
  destruct (HF k v Hkv) as (q & o & Hq & Hk & Ho & Hv).
  exists q, o. repeat (split; [assumption |]).
  rewrite attrValue_escapeHtml in Hv.
  destruct (occurs NUL o); [discriminate |]. injection Hv as <-.
  split; [reflexivity |].
  intros Hcr. now rewrite (proj2 (normalize_fixed o) Hcr).
Qed.

(** Paris is recorded for the first question. *)
Lemma selections_are_options_witness :
  let p := run [Change 0]
             (opened "7" 2 60 markupSubmitHidden
                (FetchJson (Some (QArray [capital; planet])))) in
  truthy "7" = true /\ 2 <> 0 /\ answers p !! "1" = Some "Paris"
  /\ exists q o, q ∈ [capital; planet] /\ q_id q = "1" /\ o ∈ q_options q
       /\ attrValue (escapeHtml o) = Some "Paris".
Proof.
  intros p.
  assert (Hid : truthy "7" = true) by reflexivity.
  assert (Htot : 2 <> 0) by discriminate.
  assert (Hp : answers p !! "1" = Some "Paris") by (vm_compute; reflexivity).
  split; [exact Hid |]. split; [exact Htot |]. split; [exact Hp |].
  destruct (selections_are_options "7" 2 60 markupSubmitHidden capital [planet]
              [Change 0] "1" "Paris" Hid Htot Hp)
    as (q & o & Hq & Hk & Ho & Hv & _).
  exists q, o. auto.
Defined.

(** An entry is recorded. *)
Lemma answers_never_shrink_witness :
  let p := run [Change 0]
             (opened "7" 2 60 markupSubmitHidden
                (FetchJson (Some (QArray [capital; planet])))) in
  is_Some (answers p !! "1")
  /\ is_Some (answers (run [ClickNext; Change 1; Tick] p) !! "1").
Proof.
  intros p.
  assert (Hp : is_Some (answers p !! "1")) by (vm_compute; eauto).
  split; [exact Hp |].
  exact (answers_never_shrink p [ClickNext; Change 1; Tick] "1" Hp).
Defined.

(** X7.  In such a session the [answers] mapping of the body that a
    submission builds is the recorded selections without the entries that
    hold the empty string, name for name; when no question has an empty
    option it is the recorded selections themselves. *)
Theorem payload_is_recorded_selections (id : string) (total0 timerSeconds0 : Z)
    (markup : Dom) (q0 : Question) (qs : list Question) (evs : list Event) :
  truthy id = true -> total0 <> 0 ->
  let p := run evs (opened id total0 timerSeconds0 markup
                      (FetchJson (Some (QArray (q0 :: qs))))) in
  let body := buildPayload p (q0 :: qs) in
  (forall k, p_answers body !! k = kept (answers p) k)
  /\ ((forall q, q ∈ q0 :: qs -> "" ∉ q_options q) -> p_answers body = answers p).
Proof.
  intros Hid Htot p body.
  destruct (opened_Active id total0 timerSeconds0 markup q0 qs Hid Htot)
    as (HA & _ & Hans & _).
  assert (HF : FromOptions (q0 :: qs) (answers p)).
  { apply (FromOptions_run (q0 :: qs) evs _ HA).
    intros k' v' Hk'. rewrite Hans, lookup_empty in Hk'. discriminate. }
  assert (Hall : forall k, p_answers body !! k = kept (answers p) k).
  { intros k. unfold body, buildPayload. cbn [p_answers].
    rewrite foldl_collect_lookup, lookup_empty.
    destruct (bool_decide (k ∈ q_id <$> q0 :: qs)) eqn:Hin.
    - now destruct (kept (answers p) k).
    - apply bool_decide_eq_false_1 in Hin. unfold kept.
      destruct (answers p !! k) as [v |] eqn:Hk; [| reflexivity].
      destruct (HF k v Hk) as (q & o & Hq & <- & _).
      exfalso. apply Hin, list_elem_of_fmap. now exists q. }
  split; [exact Hall |].
  intros Hne. apply map_eq. intros k. rewrite Hall. unfold kept.
  destruct (answers p !! k) as [v |] eqn:Hk; [| reflexivity].
  destruct (HF k v Hk) as (q & o & Hq & _ & Ho & Hv).
  destruct v as [| c v]; [| reflexivity].
  exfalso. apply (Hne q Hq).
  apply attrValue_truthy in Hv. now destruct o.
Qed.

(** Two questions without an empty option. *)
Lemma payload_is_recorded_selections_witness :
  let p := run [Change 0; ClickNext; Change 1]
             (opened "7" 2 60 markupSubmitHidden
                (FetchJson (Some (QArray [capital; planet])))) in
  truthy "7" = true /\ 2 <> 0
  /\ (forall q, q ∈ [capital; planet] -> "" ∉ q_options q)
  /\ p_answers (buildPayload p [capital; planet]) = answers p.
Proof.
  intros p.
  assert (Hid : truthy "7" = true) by reflexivity.
  assert (Htot : 2 <> 0) by discriminate.
  assert (Hne : forall q, q ∈ [capital; planet] -> "" ∉ q_options q).
  { intros q Hq Hin.
    apply elem_of_cons in Hq as [-> | Hq];
      [| apply elem_of_cons in Hq as [-> | Hq]; [| inversion Hq]];
      cbn in Hin;
      repeat (apply elem_of_cons in Hin as [Hin | Hin]; [discriminate |]);
      inversion Hin. }
  repeat (split; [assumption |]).
  exact (proj2 (payload_is_recorded_selections "7" 2 60 markupSubmitHidden capital
                  [planet] [Change 0; ClickNext; Change 1] Hid Htot) Hne).
Defined.

(** ** The countdown (lines 115-126) *)

Lemma Ticked_step (t0 : Z) (n : nat) (p : Page) (ev : Event) :
  Ticked t0 n p ->
  Ticked t0 (n + (if isTick ev && deliverable p ev then 1 else 0)) (step p ev).
Proof.
  intros (Hf & Hts & Hon & Hoff).
  destruct ev as [r | | | | i | | r];
    try (cbn [isTick andb]; rewrite Nat.add_0_r;
         split; [now apply step_fetching |];
         other_event p; rewrite Hsec, Hint; exact (conj Hts (conj Hon Hoff))).
  - cbn [isTick andb]. rewrite Nat.add_0_r.
    unfold step, deliverable. rewrite Hf.
    destruct (location (env p)); exact (conj Hf (conj Hts (conj Hon Hoff))).
  - cbn [isTick andb]. split; [now apply step_fetching |].
    unfold step. destruct (deliverable p Tick) eqn:Hd; cbv iota.
    2: { rewrite Nat.add_0_r. exact (conj Hts (conj Hon Hoff)). }
    cbn [handle].
    assert (Hiv : interval (env p) = true).
    { unfold deliverable in Hd. now destruct (location (env p)). }
    specialize (Hon Hiv).
    destruct (Z_le_gt_dec (timerSeconds p - 1) 0) as [Hle | Hgt].
    + destruct (onTick_expiry p Hle) as [Hv _].
      apply (timerView_style
               (setTimerSeconds (timerSeconds p - 1)
                  (setEnv (setInterval false (env p)) p))) in Hv.
      destruct Hv as (H1 & _ & _ & H4). cbn in H1, H4.
      rewrite H1, H4. split; [lia |]. split; [discriminate |].
      intros _. lia.
    + destruct (onTick_running p) as (H1 & _ & H3); [lia |].
      rewrite H1, H3, Hiv. split; [lia |]. split; [intros _; lia | discriminate].
Qed.

Lemma Ticked_run (t0 : Z) (evs : list Event) : forall (n : nat) (p : Page),
  Ticked t0 n p -> Ticked t0 (n + deliveredTicks p evs) (run evs p).
Proof.
  induction evs as [| ev evs IH]; intros n p HT.
  - cbn [deliveredTicks]. now rewrite Nat.add_0_r.
  - change (run (ev :: evs) p) with (run evs (step p ev)).
    cbn [deliveredTicks]. rewrite Nat.add_assoc.
    apply IH, Ticked_step, HT.
Qed.

(** X8.  In a session opened with [timerSeconds0] seconds, a number in
    the range of exact integers (above -2^53, at most 2^53, so that every
    decrement is exact), the remaining seconds are the configured seconds
    minus the ticks that reached the callback, whatever other events came in
    between.  With at least one second configured the interval is cleared
    exactly when as many ticks as configured seconds have been delivered, so
    no more than that are ever delivered; with zero seconds or fewer it is
    cleared by the first tick. *)
Theorem countdown_counts_ticks (id : string) (total0 timerSeconds0 : Z)
    (markup : Dom) (q0 : Question) (qs : list Question) (evs : list Event) :
  truthy id = true -> total0 <> 0 ->
  - maxExact < timerSeconds0 <= maxExact ->
  let p0 := opened id total0 timerSeconds0 markup
              (FetchJson (Some (QArray (q0 :: qs)))) in
  let p := run evs p0 in
  let ticks := Z.of_nat (deliveredTicks p0 evs) in
  timerSeconds p = timerSeconds0 - ticks
  /\ (1 <= timerSeconds0 ->
      ticks <= timerSeconds0
      /\ (interval (env p) = false <-> ticks = timerSeconds0))
  /\ (timerSeconds0 <= 0 ->
      ticks <= 1 /\ (interval (env p) = false <-> ticks = 1)).
Proof.
  intros Hid Htot _ p0 p ticks.
  destruct (opened_Active id total0 timerSeconds0 markup q0 qs Hid Htot)
    as (HA & _ & _ & Hts & Hiv & _).
  fold p0 in HA, Hts, Hiv.
  assert (H0 : Ticked timerSeconds0 0 p0).
  { destruct HA as (_ & _ & Hf & _).
    split; [exact Hf |]. split; [rewrite Hts; lia |].
    split; [auto | rewrite Hiv; discriminate]. }
  apply (Ticked_run timerSeconds0 evs) in H0.
  cbn [Nat.add] in H0. fold p in H0.
  destruct H0 as (_ & Hsec & Hon & Hoff). fold ticks in Hsec.
  split; [exact Hsec |].
  destruct (interval (env p)).
  - specialize (Hon eq_refl). split; intros HT; (split; [lia |]);
      (split; [discriminate | lia]).
  - specialize (Hoff eq_refl). split; intros HT; (split; [lia |]);
      (split; [lia | reflexivity]).
Qed.

(** Three seconds, with clicks between the ticks. *)
Lemma countdown_counts_ticks_witness :
  let p0 := opened "7" 2 3 markupSubmitHidden
              (FetchJson (Some (QArray [capital; planet]))) in
  let evs := [Tick; ClickNext; Tick; Change 0; Tick; Tick] in
  truthy "7" = true /\ 2 <> 0 /\ - maxExact < 3 <= maxExact /\ 1 <= 3
  /\ timerSeconds (run evs p0) = 3 - Z.of_nat (deliveredTicks p0 evs)
  /\ Z.of_nat (deliveredTicks p0 evs) <= 3.
Proof.
  intros p0 evs.
  assert (Hid : truthy "7" = true) by reflexivity.
  assert (Htot : 2 <> 0) by discriminate.
  assert (Hrange : - maxExact < 3 <= maxExact) by (unfold maxExact; lia).
  assert (H3 : 1 <= 3) by discriminate.
  split; [exact Hid |]. split; [exact Htot |]. split; [exact Hrange |].
  split; [exact H3 |].
  destruct (countdown_counts_ticks "7" 2 3 markupSubmitHidden capital [planet]
              [Tick; ClickNext; Tick; Change 0; Tick; Tick] Hid Htot Hrange)
    as (Hsec & Hpos & _).
  split; [exact Hsec | exact (proj1 (Hpos H3))].
Defined.

(** ** Submissions and their responses (lines 95-113) *)










(** ** The rendered question (lines 45-70) *)

Lemma checkedCount_render (sel : option string) (opts : list string) : forall i,
  checkedCount (mapi_from i (renderRadio sel) opts)
  = List.length (List.filter (strictEq sel) opts).
Proof.
  unfold checkedCount.
  induction opts as [| o opts IH]; intros i; [reflexivity |].
  cbn [mapi_from List.filter].
  change (r_checked (renderRadio sel o i)) with (strictEq sel o).
  destruct (strictEq sel o); cbn [List.length]; now rewrite IH.
Qed.

Lemma filter_eqb_absent (v : string) (l : list string) :
  v ∉ l -> List.filter (String.eqb v) l = [].
Proof.
  induction l as [| x l IH]; intros Hn; [reflexivity |].
  cbn [List.filter]. destruct (String.eqb_spec v x) as [-> | _].
  - exfalso. apply Hn. left.
  - apply IH. intros H. apply Hn. now right.
Qed.

Lemma filter_eqb_NoDup (v : string) (l : list string) :
  NoDup l -> (List.length (List.filter (String.eqb v) l) <= 1)%nat.
Proof.
  induction 1 as [| x l Hx _ IH]; [cbn; lia |].
  cbn [List.filter]. destruct (String.eqb_spec v x) as [-> | _]; [| exact IH].
  rewrite filter_eqb_absent by exact Hx. cbn. lia.
Qed.

Lemma filter_eqb_present (v : string) (l : list string) :
  NoDup l -> v ∈ l -> List.length (List.filter (String.eqb v) l) = 1%nat.
Proof.
  induction 1 as [| x l Hx _ IH]; intros Hin; [inversion Hin |].
  cbn [List.filter]. destruct (String.eqb_spec v x) as [-> | Hne].
  - now rewrite filter_eqb_absent by exact Hx.
  - apply IH. apply elem_of_cons in Hin as [? | ?]; [contradiction | assumption].
Qed.

Lemma Active_checked (qs : list Question) (p : Page) (q : Question) :
  Active qs p ->
  questionAt qs (currentIndex p) = Some q ->
  NoDup (q_options q) ->
  (checkedCount (shownRadios (questionArea (dom p))) <= 1)%nat
  /\ (forall o, answers p !! q_id q = Some o -> truthy o = true ->
        o ∈ q_options q ->
        checkedCount (shownRadios (questionArea (dom (renderQuestion p)))) = 1%nat).
Proof.
  intros HA Hat Hnd.
  pose proof HA as (Hq & _ & _ & _ & _ & _ & _ & q' & sel & Hat' & Har).
  rewrite Hat in Hat'. injection Hat' as <-.
  split.
  - rewrite Har. cbn [shownRadios]. unfold mapi. rewrite checkedCount_render.
    destruct sel as [v |]; cbn [strictEq].
    + now apply filter_eqb_NoDup.
    + clear. induction (q_options q) as [| x l IH]; [cbn; lia | exact IH].
  - intros o Ho Ht Hin.
    rewrite (renderQuestion_area qs q p Hq Hat). cbn [shownRadios].
    unfold mapi. rewrite checkedCount_render.
    rewrite (selectedFor_truthy _ _ _ Ho Ht). cbn [strictEq].
    now apply filter_eqb_present.
Qed.

(** X10.  In a session that loaded its questions, after any events, the
    question on display never has more than one radio marked [checked],
    provided its options are pairwise different; and rendering it when its
    recorded selection is not the empty string and is one of its options
    marks exactly one. *)
Theorem one_radio_checked (id : string) (total0 timerSeconds0 : Z)
    (markup : Dom) (q0 : Question) (qs : list Question) (evs : list Event)
    (q : Question) :
  truthy id = true -> total0 <> 0 ->
  let p := run evs (opened id total0 timerSeconds0 markup
                      (FetchJson (Some (QArray (q0 :: qs))))) in
  questionAt (q0 :: qs) (currentIndex p) = Some q ->
  NoDup (q_options q) ->
  (checkedCount (shownRadios (questionArea (dom p))) <= 1)%nat
  /\ (forall o, answers p !! q_id q = Some o -> truthy o = true ->
        o ∈ q_options q ->
        checkedCount (shownRadios (questionArea (dom (renderQuestion p)))) = 1%nat).
Proof.
  intros Hid Htot p Hat Hnd.
  apply (Active_checked (q0 :: qs)); [| exact Hat | exact Hnd].
  apply Active_run.
  exact (proj1 (opened_Active id total0 timerSeconds0 markup q0 qs Hid Htot)).
Qed.

Lemma one_radio_checked_witness :
  let p := run [Change 1; ClickNext; Change 0; ClickPrev; Change 2]
             (opened "7" 2 60 markupSubmitHidden
                (FetchJson (Some (QArray [capital; planet])))) in
  truthy "7" = true /\ 2 <> 0
  /\ questionAt [capital; planet] (currentIndex p) = Some capital
  /\ NoDup (q_options capital)
  /\ (checkedCount (shownRadios (questionArea (dom p))) <= 1)%nat.
Proof.
  intros p.
  assert (Hid : truthy "7" = true) by reflexivity.
  assert (Htot : 2 <> 0) by discriminate.
  assert (Hat : questionAt [capital; planet] (currentIndex p) = Some capital)
    by (vm_compute; reflexivity).
  assert (Hnd : NoDup (q_options capital)).
  { refine (bool_decide_unpack (NoDup (q_options capital)) _). vm_compute. exact I. }
  repeat (split; [assumption |]).
  exact (proj1 (one_radio_checked "7" 2 60 markupSubmitHidden capital [planet]
                  [Change 1; ClickNext; Change 0; ClickPrev; Change 2] capital
                  Hid Htot Hat Hnd)).
Defined.

Lemma mapi_from_length {A B} (f : A -> Z -> B) (xs : list A) (i : Z) :
  List.length (mapi_from i f xs) = List.length xs.
Proof.
  revert i. induction xs as [| x xs IH]; intros i; [reflexivity |].
  cbn [mapi_from]. cbn [List.length]. f_equal. apply IH.
Qed.

Lemma renderQuestion_Labelled (qs : list Question) (p : Page) :
  questions p = QArray qs ->
  0 <= currentIndex p < Z.of_nat (List.length qs) ->
  Labelled qs (renderQuestion p).
Proof.
  intros Hq Hi. destruct (questionAt_in_range qs _ Hi) as [q Hat].
  unfold renderQuestion. rewrite Hq, Hat. reflexivity.
Qed.

Lemma Labelled_step (qs : list Question) (p : Page) (ev : Event) :
  Active qs p -> Labelled qs p -> Labelled qs (step p ev).
Proof.
  intros HA HL. unfold step.
  destruct (deliverable p ev) eqn:Hd; [| exact HL].
  pose proof HA as (Hq & Hl & Hf & Hi & _).
  destruct ev as [r | | | | i | | r]; cbn [handle].
  - unfold deliverable in Hd. rewrite Hf in Hd.
    destruct (location (env p)); discriminate.
  - unfold onPrev. destruct (Z.ltb_spec 0 (currentIndex p)); [| exact HL].
    apply renderQuestion_Labelled; [exact Hq | cbn [currentIndex setCurrentIndex]; lia].
  - unfold onNext. rewrite Hq.
    destruct (Z.ltb_spec (currentIndex p) (Z.of_nat (List.length qs) - 1));
      [| exact HL].
    apply renderQuestion_Labelled; [exact Hq | cbn [currentIndex setCurrentIndex]; lia].
  - unfold submitQuiz. rewrite Hq. exact HL.
  - unfold onChange. destruct (questionArea (dom p)); try exact HL.
    destruct (radios !! i ≫= r_value); exact HL.
  - unfold onTick, updateTimerDisplay, submitQuiz.
    cbn [timerSeconds setTimerSeconds questions setEnv]. rewrite Hq.
    destruct (timerSeconds p - 1 <=? 0); [exact HL |].
    destruct (timerSeconds p - 1 <? 30); exact HL.
  - unfold onSubmitSettled.
    destruct r as [ok redirect error |]; [destruct (ok && truthy redirect) |];
      exact HL.
Qed.

Lemma Labelled_run (qs : list Question) (evs : list Event) : forall p,
  Active qs p -> Labelled qs p -> Labelled qs (run evs p).
Proof.
  induction evs as [| ev evs IH]; intros p HA HL; [exact HL |].
  change (run (ev :: evs) p) with (run evs (step p ev)).
  apply IH; [now apply Active_step | now apply Labelled_step].
Qed.

(** X11.  In a session that loaded its questions, after any events, the
    progress line and the number in front of the question both name the
    question on display, which is the one at the current index: the line
    reads "Question i+1 of n" and the question is numbered i+1. *)
Theorem progress_names_display (id : string) (total0 timerSeconds0 : Z)
    (markup : Dom) (q0 : Question) (qs : list Question) (evs : list Event) :
  truthy id = true -> total0 <> 0 ->
  let p := run evs (opened id total0 timerSeconds0 markup
                      (FetchJson (Some (QArray (q0 :: qs))))) in
  progressText (dom p)
  = "Question " +:+ toString (currentIndex p + 1) +:+ " of "
      +:+ toString (Z.of_nat (List.length (q0 :: qs)))
  /\ exists q radios,
       questionAt (q0 :: qs) (currentIndex p) = Some q
       /\ questionArea (dom p) = AreaQuestion q (currentIndex p + 1) radios
       /\ List.length radios = List.length (q_options q).
Proof.
  intros Hid Htot p.
  pose proof (opened_Active id total0 timerSeconds0 markup q0 qs Hid Htot)
    as (HA0 & Hi0 & _).
  assert (HA : Active (q0 :: qs) p) by (apply Active_run; exact HA0).
  split.
  - apply (Labelled_run (q0 :: qs)); [exact HA0 |].
    unfold opened. rewrite initQuizPage_started by assumption.
    set (p1 := mkPage (Some id) total0 timerSeconds0 (QArray (q0 :: qs)) 0 ∅
                 (setQuestionArea AreaMarkup markup)
                 (mkEnv true false false [] 0 [] None)).
    change (step _ _) with (startTimer (renderQuestion p1)).
    unfold startTimer, updateTimerDisplay.
    destruct (timerSeconds (renderQuestion p1) <? 30); reflexivity.
  - destruct HA as (_ & _ & _ & _ & _ & _ & _ & q & sel & Hat & Har).
    exists q, (mapi (renderRadio sel) (q_options q)).
    split; [exact Hat |]. split; [exact Har |].
    apply mapi_from_length.
Qed.

Lemma progress_names_display_witness :
  let p := run [ClickNext; ClickNext; Change 1; ClickPrev]
             (opened "7" 5 600 markupSubmitHidden
                (FetchJson (Some (QArray fiveQuestions)))) in
  truthy "7" = true /\ 5 <> 0
  /\ progressText (dom p)
     = "Question " +:+ toString (currentIndex p + 1) +:+ " of "
         +:+ toString (Z.of_nat (List.length fiveQuestions)).
Proof.
  intros p.
  assert (Hid : truthy "7" = true) by reflexivity.
  assert (Htot : 5 <> 0) by discriminate.
  split; [exact Hid | split; [exact Htot |]].
  exact (proj1 (progress_names_display "7" 5 600 markupSubmitHidden capital
                  [planet; organelle; element; unit]
                  [ClickNext; ClickNext; Change 1; ClickPrev] Hid Htot)).
Defined.

(** ** Navigation back and forth (lines 79-91) *)

Lemma render_again (qs : list Question) (p : Page) (i j : Z) (qi qj : Question) :
  questions p = QArray qs ->
  currentIndex p = i ->
  questionAt qs i = Some qi ->
  questionAt qs j = Some qj ->
  renderQuestion (setCurrentIndex i (renderQuestion (setCurrentIndex j p)))
  = renderQuestion p.
Proof.
  intros Hq Hi Hati Hatj.
  destruct p as [qid tot ts qns ci ans d e]. cbn in Hq, Hi. subst qns ci.
  unfold renderQuestion, setCurrentIndex.
  cbn [questions currentIndex quizId total timerSeconds answers dom env setDom].
  rewrite Hatj.
  cbn [questions currentIndex quizId total timerSeconds answers dom env setDom
       timerText timerStyle].
  rewrite Hati. reflexivity.
Qed.

Lemma Active_back_and_forth (qs : list Question) (p : Page) :
  Active qs p -> location (env p) = None ->
  (currentIndex p < Z.of_nat (List.length qs) - 1 ->
   step (step p ClickNext) ClickPrev = renderQuestion p)
  /\ (0 < currentIndex p ->
      step (step p ClickPrev) ClickNext = renderQuestion p).
Proof.
  intros HA Hloc.
  pose proof HA as (Hq & Hl & Hf & Hi & Hp & Hn & Hs & q & sel & Hat & Har).
  split; intros Hmove.
  - destruct (questionAt_in_range qs (currentIndex p + 1)) as [q1 Hat1]; [lia |].
    assert (H1 : step p ClickNext
                 = renderQuestion (setCurrentIndex (currentIndex p + 1) p)).
    { unfold step, deliverable. rewrite Hloc, Hl, Hn.
      destruct (Z.ltb_spec (currentIndex p) (Z.of_nat (List.length qs) - 1));
        [| lia].
      cbn [handle andb shown]. unfold onNext. rewrite Hq.
      destruct (Z.ltb_spec (currentIndex p) (Z.of_nat (List.length qs) - 1));
        [reflexivity | lia]. }
    rewrite H1.
    set (p' := setCurrentIndex (currentIndex p + 1) p).
    destruct (renderQuestion_Active qs p') as (HA1 & Hci & _ & Henv & _);
      [exact Hq | exact Hl | exact Hf | cbn [p' currentIndex setCurrentIndex]; lia |].
    pose proof HA1 as (_ & Hl1 & _ & _ & Hp1 & _).
    unfold step, deliverable. rewrite Henv.
    change (env p') with (env p). rewrite Hloc, Hl, Hp1, Hci.
    change (currentIndex p') with (currentIndex p + 1).
    destruct (Z.eqb_spec (currentIndex p + 1) 0); [lia |].
    cbn [handle andb negb]. unfold onPrev. rewrite Hci.
    change (currentIndex p') with (currentIndex p + 1).
    destruct (Z.ltb_spec 0 (currentIndex p + 1)); [| lia].
    replace (currentIndex p + 1 - 1) with (currentIndex p) by lia.
    exact (render_again qs p (currentIndex p) (currentIndex p + 1) q q1
             Hq eq_refl Hat Hat1).
  - destruct (questionAt_in_range qs (currentIndex p - 1)) as [q1 Hat1]; [lia |].
    assert (H1 : step p ClickPrev
                 = renderQuestion (setCurrentIndex (currentIndex p - 1) p)).
    { unfold step, deliverable. rewrite Hloc, Hl, Hp.
      destruct (Z.eqb_spec (currentIndex p) 0); [lia |].
      cbn [handle andb negb]. unfold onPrev.
      destruct (Z.ltb_spec 0 (currentIndex p)); [reflexivity | lia]. }
    rewrite H1.
    set (p' := setCurrentIndex (currentIndex p - 1) p).
    destruct (renderQuestion_Active qs p') as (HA1 & Hci & _ & Henv & _);
      [exact Hq | exact Hl | exact Hf | cbn [p' currentIndex setCurrentIndex]; lia |].
    pose proof HA1 as (Hq1 & _ & _ & _ & _ & Hn1 & _).
    unfold step, deliverable. rewrite Henv.
    change (env p') with (env p). rewrite Hloc, Hl, Hn1, Hci.
    change (currentIndex p') with (currentIndex p - 1).
    destruct (Z.ltb_spec (currentIndex p - 1) (Z.of_nat (List.length qs) - 1));
      [| lia].
    cbn [handle andb shown]. unfold onNext. rewrite Hq1, Hci.
    change (currentIndex p') with (currentIndex p - 1).
    destruct (Z.ltb_spec (currentIndex p - 1) (Z.of_nat (List.length qs) - 1));
      [| lia].
    replace (currentIndex p - 1 + 1) with (currentIndex p) by lia.
    exact (render_again qs p (currentIndex p) (currentIndex p - 1) q q1
             Hq eq_refl Hat Hat1).
Qed.

(** X12.  In a session that loaded its questions and has not left the page,
    Next followed by Previous, and Previous followed by Next, where the first
    click moves, come back to the same question: the page is the one
    [renderQuestion] gives at the current index, with every variable, the
    timer and the requests as they were. *)
Theorem back_and_forth (id : string) (total0 timerSeconds0 : Z)
    (markup : Dom) (q0 : Question) (qs : list Question) (evs : list Event) :
  truthy id = true -> total0 <> 0 ->
  let p := run evs (opened id total0 timerSeconds0 markup
                      (FetchJson (Some (QArray (q0 :: qs))))) in
  location (env p) = None ->
  (currentIndex p < Z.of_nat (List.length (q0 :: qs)) - 1 ->
   step (step p ClickNext) ClickPrev = renderQuestion p)
  /\ (0 < currentIndex p ->
      step (step p ClickPrev) ClickNext = renderQuestion p).
Proof.
  intros Hid Htot p Hloc.
  apply Active_back_and_forth; [| exact Hloc].
  apply Active_run.
  exact (proj1 (opened_Active id total0 timerSeconds0 markup q0 qs Hid Htot)).
Qed.

Lemma back_and_forth_witness :
  let p := run [ClickNext; Change 1]
             (opened "7" 5 600 markupSubmitHidden
                (FetchJson (Some (QArray fiveQuestions)))) in
  truthy "7" = true /\ 5 <> 0 /\ location (env p) = None
  /\ 0 < currentIndex p
  /\ step (step p ClickPrev) ClickNext = renderQuestion p.
Proof.
  intros p.
  assert (Hid : truthy "7" = true) by reflexivity.
  assert (Htot : 5 <> 0) by discriminate.
  assert (Hloc : location (env p) = None) by (vm_compute; reflexivity).
  assert (Hpos : 0 < currentIndex p) by (vm_compute; reflexivity).
  split; [exact Hid | split; [exact Htot | split; [exact Hloc | split; [exact Hpos |]]]].
  exact (proj2 (back_and_forth "7" 5 600 markupSubmitHidden capital
                  [planet; organelle; element; unit] [ClickNext; Change 1]
                  Hid Htot Hloc) Hpos).
Defined.

(** ** The add-question form (lines 301-325) *)


(** ** The controls of a row in edit mode (lines 219-251) *)

Lemma select_subject (subject : string) :
  selectValue
    (List.map (fun name => (String.eqb subject name, name))
       ["Physics"; "Chemistry"; "Botany"; "Zoology"; "Mental Agility Test"])
  = (if includes subjects subject then subject else "Physics").
Proof.
  unfold selectValue, includes, subjects.
  cbn [List.map rev List.app existsb].
  destruct (String.eqb_spec subject "Physics") as [-> | _]; [reflexivity |].
  destruct (String.eqb_spec subject "Chemistry") as [-> | _]; [reflexivity |].
  destruct (String.eqb_spec subject "Botany") as [-> | _]; [reflexivity |].
  destruct (String.eqb_spec subject "Zoology") as [-> | _]; [reflexivity |].
  destruct (String.eqb_spec subject "Mental Agility Test") as [-> | _];
    reflexivity.
Qed.

Lemma select_difficulty (difficulty : string) :
  selectValue
    (List.map (fun name => (String.eqb difficulty name, name))
       ["Easy"; "Medium"; "Hard"])
  = (if includes difficulties difficulty then difficulty else "Easy").
Proof.
  unfold selectValue, includes, difficulties.
  cbn [List.map rev List.app existsb].
  destruct (String.eqb_spec difficulty "Easy") as [-> | _]; [reflexivity |].
  destruct (String.eqb_spec difficulty "Medium") as [-> | _]; [reflexivity |].
  destruct (String.eqb_spec difficulty "Hard") as [-> | _]; reflexivity.
Qed.

Lemma select_flagged (b0 b1 b2 b3 : bool) (v0 v1 v2 v3 : string) :
  selectValue [(b0, v0); (b1, v1); (b2, v2); (b3, v3)]
  = if b3 then v3 else if b2 then v2 else if b1 then v1 else v0.
Proof. now destruct b0, b1, b2, b3. Qed.

Lemma mapM_four {A B} (f : A -> option B) (a b c d : A) (l : list B) :
  mapM f [a; b; c; d] = Some l ->
  exists x y z w,
    f a = Some x /\ f b = Some y /\ f c = Some z /\ f d = Some w
    /\ l = [x; y; z; w].
Proof.
  cbn [mapM]. destruct (f a), (f b), (f c), (f d); cbn; intros H;
    try discriminate H.
  injection H as <-. eauto 10.
Qed.

Lemma fmap_Some_inv {A B} (g : A -> B) (m : option A) (y : B) :
  g <$> m = Some y -> exists x, m = Some x /\ y = g x.
Proof. destruct m; cbn; intros H; [injection H as <-; eauto | discriminate]. Qed.

(** Taking a chain of binds that returned a value apart. *)
Ltac bind_inv H :=
  repeat match type of H with
         | (?m ≫= _) = Some _ =>
             let x := fresh "x" in
             let E := fresh "E" in
             destruct m as [x |] eqn:E; cbn [mbind option_bind] in H;
             [| discriminate H]
         end.

(** X14.  When Edit produces the controls of a row, the selects never show
    a value of their own making: the subject select holds the cell's trimmed
    subject when it is one of the five subjects and "Physics" otherwise, the
    difficulty select holds the cell's trimmed difficulty when it is one of
    the three and "Easy" otherwise, and the answer select holds the value of
    an option that equals the cell's trimmed answer, or else of the first of
    the four.  The inputs are numbered 0 to 3 in document order and hold the
    recovered options as a text input reads them, the empty string where
    fewer than four were recovered. *)
Theorem edit_selects_fall_back (tds : Cells) (row : EditRow) :
  onEdit tds = Some row ->
  exists subject answer difficulty opts,
    trim <$> textContent (c_subject tds) = Some subject
    /\ trim <$> textContent (c_answer tds) = Some answer
    /\ trim <$> textContent (c_difficulty tds) = Some difficulty
    /\ innerHTML (c_options tds) ≫= extractOptionsFromHtml = Some opts
    /\ e_id row = c_id tds
    /\ e_subject row = (if includes subjects subject then subject else "Physics")
    /\ e_difficulty row
       = (if includes difficulties difficulty then difficulty else "Easy")
    /\ List.map i_idx (e_opts row) = [0; 1; 2; 3]
    /\ Some (List.map i_value (e_opts row))
       = mapM (fun i => inputValue (escapeAttr (optAt opts i))) [0; 1; 2; 3]%nat
    /\ exists i, (i < 4)%nat
         /\ attrValue (escapeAttr (optAt opts i)) = Some (e_answer row)
         /\ (optAt opts i = answer
             \/ i = 0%nat /\ forall j, (j < 4)%nat -> optAt opts j <> answer).
Proof.
  intros H. unfold onEdit in H. bind_inv H.
  injection H as <-. exists x, x2, x3, x5.
  cbn [e_id e_subject e_difficulty e_opts e_answer mbind option_bind].
  split; [reflexivity |]. split; [reflexivity |]. split; [reflexivity |].
  split; [exact E5 |]. split; [reflexivity |].
  split; [exact (select_subject x) |]. split; [exact (select_difficulty x3) |].
  apply mapM_four in E7 as (i0 & i1 & i2 & i3 & I0 & I1 & I2 & I3 & ->).
  apply mapM_four in E8 as (a0 & a1 & a2 & a3 & A0 & A1 & A2 & A3 & ->).
  apply fmap_Some_inv in I0 as (v0 & I0 & ->), I1 as (v1 & I1 & ->),
    I2 as (v2 & I2 & ->), I3 as (v3 & I3 & ->).
  apply fmap_Some_inv in A0 as (w0 & A0 & ->), A1 as (w1 & A1 & ->),
    A2 as (w2 & A2 & ->), A3 as (w3 & A3 & ->).
  split; [reflexivity |].
  split; [cbn [mapM]; now rewrite I0, I1, I2, I3 |].
  rewrite select_flagged.
  destruct (String.eqb_spec (optAt x5 3) x2) as [H3 | H3];
    [exists 3%nat; split; [lia | auto] |].
  destruct (String.eqb_spec (optAt x5 2) x2) as [H2 | H2];
    [exists 2%nat; split; [lia | auto] |].
  destruct (String.eqb_spec (optAt x5 1) x2) as [H1 | H1];
    [exists 1%nat; split; [lia | auto] |].
  exists 0%nat. split; [lia |]. split; [assumption |].
  destruct (String.eqb_spec (optAt x5 0) x2) as [H0 | H0]; [now left | right].
  split; [reflexivity |].
  intros [| [| [| [| j]]]] Hj; try assumption. lia.
Qed.

Lemma edit_selects_fall_back_witness :
  exists row,
    onEdit (renderRow (mkRow 7 "History" "Capital of France?"
                         ["Paris"; "London"; "Rome"; "Berlin"] "Paris" "" ""))
    = Some row
    /\ e_subject row = "Physics" /\ e_difficulty row = "Medium"
    /\ List.map i_idx (e_opts row) = [0; 1; 2; 3].
Proof.
  eexists. split; [vm_compute; reflexivity |].
  destruct (edit_selects_fall_back
              (renderRow (mkRow 7 "History" "Capital of France?"
                            ["Paris"; "London"; "Rome"; "Berlin"] "Paris" "" ""))
              _ eq_refl)
    as (subject & answer & difficulty & opts & Hs & _ & Hd & _ & _ & Hes & Hed & Hidx & _).
  injection Hs as <-. injection Hd as <-.
  split; [exact Hes |]. split; [exact Hed | exact Hidx].
Defined.

(** ** From the table to the Save handler (lines 160-175, 206-298) *)

(** X15.  Render, Edit, Save.  Take a row with at least one option whose
    options are plain text (no markup characters, line breaks or underscore).
    When Edit has produced the controls of the rendered row, its first option
    input holds the whole text of the options cell and the other three are
    empty; pressing Save with no change to the controls shows "Please provide
    four options.", sends no update and leaves the row in edit mode. *)
Theorem edit_then_save_is_refused (q : Row) (row : EditRow)
    (shown_alerts : list string) (sent : list UpdateRequest) :
  row_options q <> [] ->
  forallb plainText (row_options q) = true ->
  onEdit (renderRow q) = Some row ->
  e_opts row = fourInputs (labelled (row_options q)) "" "" ""
  /\ onSave (mkTable row shown_alerts sent)
     = mkTable row ("Please provide four options." :: shown_alerts) sent.
Proof.
  intros Hne Hp H. destruct (onEdit_rendered q row Hne Hp H) as [_ Hopts].
  split; [exact Hopts |].
  unfold onSave. cbn [t_row t_alerts t_updates]. rewrite Hopts.
  rewrite sortByIdx_fourInputs.
  cbn [fourInputs List.map i_value List.length Nat.eqb negb orb existsb].
  change (trim "") with "". cbn [truthy negb orb].
  now rewrite orb_true_r.
Qed.

Lemma edit_then_save_is_refused_witness :
  let row := mkEditRow 7 "Physics" "Capital of France?"
               (fourInputs "A) ParisB) LondonC) RomeD) Berlin" "" "" "")
               "A) ParisB) LondonC) RomeD) Berlin" "Medium" "" in
  row_options capitalRow <> []
  /\ forallb plainText (row_options capitalRow) = true
  /\ onEdit (renderRow capitalRow) = Some row
  /\ t_alerts (onSave (mkTable row [] [])) = ["Please provide four options."]
  /\ t_updates (onSave (mkTable row [] [])) = [].
Proof.
  intros row.
  assert (Hne : row_options capitalRow <> []) by discriminate.
  assert (Hp : forallb plainText (row_options capitalRow) = true) by reflexivity.
  assert (Hrow : onEdit (renderRow capitalRow) = Some row)
    by (vm_compute; reflexivity).
  split; [exact Hne |]. split; [exact Hp |]. split; [exact Hrow |].
  destruct (edit_then_save_is_refused capitalRow row [] [] Hne Hp Hrow)
    as [_ Hsave].
  split; [exact (f_equal t_alerts Hsave) | exact (f_equal t_updates Hsave)].
Defined.

(** ** The options recovered from a cell (lines 394-401) *)

Lemma filter_truthy (l : list string) :
  Forall (fun o => truthy o = true) (List.filter truthy l).
Proof.
  induction l as [| x l IH]; [constructor |].
  cbn [List.filter]. destruct (truthy x) eqn:Hx; [constructor |]; assumption.
Qed.

(** X16.  [extractOptionsFromHtml] never returns more than four strings,
    and when it returns fewer than four none of them is empty (they come
    from the split at line breaks, which drops empty parts). *)
Theorem extract_at_most_four (html : string) (opts : list string) :
  extractOptionsFromHtml html = Some opts ->
  (List.length opts <= 4)%nat
  /\ ((List.length opts < 4)%nat -> Forall (fun o => truthy o = true) opts).
Proof.
  unfold extractOptionsFromHtml. intros H.
  apply fmap_Some_inv in H as (text & _ & ->). unfold optionsOfText.
  destruct (Nat.eqb_spec
              (List.length (List.filter truthy (split matchMarker text)))
              4) as [H4 | _].
  - rewrite length_map, H4. split; [lia | intros H; lia].
  - split.
    + rewrite length_take. lia.
    + intros _. apply Forall_take, filter_truthy.
Qed.

Lemma extract_at_most_four_witness :
  extractOptionsFromHtml "A) Paris<br>B) London" = Some ["A) ParisB) London"]
  /\ (List.length ["A) ParisB) London"] <= 4)%nat.
Proof.
  assert (H : extractOptionsFromHtml "A) Paris<br>B) London"
              = Some ["A) ParisB) London"]) by reflexivity.
  split; [exact H |].
  exact (proj1 (extract_at_most_four _ _ H)).
Defined.

(** ** The order of the option inputs (line 262) *)

Lemma insertByIdx_perm (x : OptInput) (l : list OptInput) :
  insertByIdx x l ≡ₚ x :: l.
Proof.
  induction l as [| y l IH]; [reflexivity |].
  cbn [insertByIdx]. destruct (i_idx x <? i_idx y); [reflexivity |].
  rewrite IH. apply perm_swap.
Qed.

Lemma insertByIdx_sorted (x : OptInput) (l : list OptInput) :
  StronglySorted byIdx l -> StronglySorted byIdx (insertByIdx x l).
Proof.
  induction l as [| y l IH]; intros Hs.
  - repeat constructor.
  - apply StronglySorted_cons in Hs as [Hy Hs].
    cbn [insertByIdx]. destruct (Z.ltb_spec (i_idx x) (i_idx y)) as [Hlt | Hge].
    + apply StronglySorted_cons. split.
      * constructor; [unfold byIdx; lia |].
        eapply Forall_impl; [exact Hy |]. unfold byIdx. intros z Hz. lia.
      * apply StronglySorted_cons. now split.
    + apply StronglySorted_cons. split; [| now apply IH].
      rewrite insertByIdx_perm. constructor; [exact Hge | exact Hy].
Qed.

Lemma sortGo_spec (l : list OptInput) : forall acc,
  StronglySorted byIdx acc ->
  foldl (fun acc x => insertByIdx x acc) acc l ≡ₚ acc ++ l
  /\ StronglySorted byIdx (foldl (fun acc x => insertByIdx x acc) acc l).
Proof.
  induction l as [| x l IH]; intros acc Hs.
  - cbn [foldl]. now rewrite app_nil_r.
  - cbn [foldl].
    destruct (IH (insertByIdx x acc) (insertByIdx_sorted x acc Hs)) as [Hp Hs'].
    split; [| exact Hs'].
    rewrite Hp, insertByIdx_perm. cbn [List.app]. apply Permutation_middle.
Qed.

Lemma idx_determines (l : list OptInput) (x y : OptInput) :
  NoDup (i_idx <$> l) -> x ∈ l -> y ∈ l -> i_idx x = i_idx y -> x = y.
Proof.
  induction l as [| z l IH]; intros Hnd Hx Hy Heq; [inversion Hx |].
  rewrite fmap_cons in Hnd. apply NoDup_cons in Hnd as [Hz Hnd].
  apply elem_of_cons in Hx as [-> | Hx]; apply elem_of_cons in Hy as [-> | Hy].
  - reflexivity.
  - exfalso. apply Hz. rewrite Heq. apply list_elem_of_fmap. now exists y.
  - exfalso. apply Hz. rewrite <- Heq. apply list_elem_of_fmap. now exists x.
  - now apply IH.
Qed.

Lemma sortByIdx_perm (l l' : list OptInput) :
  l ≡ₚ l' -> NoDup (i_idx <$> l) -> sortByIdx l = sortByIdx l'.
Proof.
  intros Hp Hnd. unfold sortByIdx.
  destruct (sortGo_spec l [] (SSorted_nil _)) as [Hl Hsl].
  destruct (sortGo_spec l' [] (SSorted_nil _)) as [Hl' Hsl'].
  cbn [List.app] in Hl, Hl'.
  apply (StronglySorted_unique_strong byIdx); [| exact Hsl | exact Hsl' |].
  - intros x y Hx Hy Hxy Hyx. rewrite Hl in Hx. rewrite Hl', <- Hp in Hy.
    apply (idx_determines l); [exact Hnd | exact Hx | exact Hy |].
    unfold byIdx in *. lia.
  - now rewrite Hl, Hl', Hp.
Qed.

(** X17.  Save reads the option inputs in the order of their [data-idx],
    whatever their order in the document: two rows in edit mode whose option
    inputs are rearrangements of each other, with pairwise different
    [data-idx], and whose other controls agree, get the same message or send
    the same update. *)
Theorem save_reads_inputs_by_index (id : Z)
    (subject question answer diff expl : string) (l l' : list OptInput)
    (shown_alerts : list string) (sent : list UpdateRequest) :
  l ≡ₚ l' -> NoDup (i_idx <$> l) ->
  let t := onSave (mkTable (mkEditRow id subject question l answer diff expl)
                     shown_alerts sent) in
  let t' := onSave (mkTable (mkEditRow id subject question l' answer diff expl)
                      shown_alerts sent) in
  sortByIdx l = sortByIdx l'
  /\ t_alerts t = t_alerts t' /\ t_updates t = t_updates t'.
Proof.
  intros Hp Hnd t t'.
  pose proof (sortByIdx_perm l l' Hp Hnd) as Hs.
  split; [exact Hs |].
  unfold t, t', onSave.
  cbn [t_row t_alerts t_updates e_id e_subject e_question e_opts e_answer
       e_difficulty e_expl].
  rewrite Hs.
  destruct (negb _ || existsb _ _); [split; reflexivity |].
  destruct (negb (truthy (trim question))); [split; reflexivity |].
  destruct (negb (includes _ answer)); split; reflexivity.
Qed.

Lemma save_reads_inputs_by_index_witness :
  let l := [mkOptInput 2 "Rome"; mkOptInput 0 "Paris"; mkOptInput 3 "Berlin";
            mkOptInput 1 "London"] in
  l ≡ₚ fourInputs "Paris" "London" "Rome" "Berlin"
  /\ NoDup (i_idx <$> l)
  /\ sortByIdx l = sortByIdx (fourInputs "Paris" "London" "Rome" "Berlin").
Proof.
  intros l.
  assert (Hp : l ≡ₚ fourInputs "Paris" "London" "Rome" "Berlin").
  { unfold l, fourInputs.
    etransitivity; [apply perm_swap |]. apply perm_skip.
    etransitivity; [apply perm_skip, perm_swap |]. apply perm_swap. }
  assert (Hnd : NoDup (i_idx <$> l)).
  { refine (bool_decide_unpack (NoDup (i_idx <$> l)) _). vm_compute. exact I. }
  split; [exact Hp | split; [exact Hnd |]].
  exact (proj1 (save_reads_inputs_by_index 7 "Physics" "Capital of France?"
                  "Paris" "Easy" "" l
                  (fourInputs "Paris" "London" "Rome" "Berlin") [] [] Hp Hnd)).
Defined.

(** ** Reading the timer text back (lines 388-393) *)

Lemma digitValue_digitChar (d : Z) :
  0 <= d < 10 -> digitValue (digitChar d) = d.
Proof.
  intros Hd. apply Z.eqb_eq.
  apply (checkBelow_sound (fun d => digitValue (digitChar d) =? d) 10);
    [vm_compute; reflexivity | lia].
Qed.

Lemma allDigits_app (s1 s2 : string) :
  allDigits (s1 +:+ s2) = allDigits s1 && allDigits s2.
Proof.
  induction s1 as [| c s1 IH]; [reflexivity |].
  rewrite append_cons. cbn [allDigits]. now rewrite IH, andb_assoc.
Qed.

Lemma numGo_snoc (s : string) (c : ascii) : forall cur,
  numGo cur (s +:+ String c "") = 10 * numGo cur s + digitValue c.
Proof.
  induction s as [| x s IH]; intros cur; [reflexivity |].
  rewrite append_cons. cbn [numGo]. apply IH.
Qed.

Lemma digitsGo_value (fuel : nat) : forall (n : Z) (acc : string),
  0 <= n < 10 ^ Z.of_nat (S fuel) ->
  exists s, digitsGo fuel n acc = s +:+ acc
            /\ allDigits s = true /\ numGo 0 s = n.
Proof.
  assert (Hone : forall n acc, 0 <= n < 10 ->
            exists s, String (digitChar (n mod 10)) acc = s +:+ acc
                      /\ allDigits s = true /\ numGo 0 s = n).
  { intros n acc Hn. rewrite Z.mod_small by lia.
    exists (String (digitChar n) ""). split; [reflexivity |].
    split; [cbn [allDigits]; now rewrite digitChar_digit |].
    cbn [numGo]. rewrite digitValue_digitChar by lia. lia. }
  induction fuel as [| f IH]; intros n acc Hn.
  - change (10 ^ Z.of_nat 1) with 10 in Hn. cbn [digitsGo]. now apply Hone.
  - cbn [digitsGo].
    assert (Hmod : 0 <= n mod 10 < 10) by (apply Z.mod_pos_bound; lia).
    destruct (Z.eqb_spec (n / 10) 0) as [Hq | Hq].
    + apply Hone. apply Z.div_small_iff in Hq; lia.
    + destruct (IH (n / 10) (String (digitChar (n mod 10)) acc))
        as (s & Hs & Hd & Hv).
      { split; [apply Z.div_pos; lia |].
        apply Z.div_lt_upper_bound; [lia |].
        rewrite <- Z.pow_succ_r by lia.
        replace (Z.succ (Z.of_nat (S f))) with (Z.of_nat (S (S f))) by lia.
        lia. }
      exists (s +:+ String (digitChar (n mod 10)) "").
      split; [rewrite Hs, append_assoc; reflexivity |].
      split.
      * rewrite allDigits_app, Hd. cbn [allDigits].
        now rewrite digitChar_digit.
      * rewrite numGo_snoc, Hv, digitValue_digitChar by lia.
        pose proof (Z.div_mod n 10). lia.
Qed.

Lemma toString_value (n : Z) :
  0 <= n -> allDigits (toString n) = true /\ numGo 0 (toString n) = n.
Proof.
  intros Hn. unfold toString. destruct (Z.ltb_spec n 0); [lia |].
  unfold digits.
  destruct (digitsGo_value (Z.to_nat (Z.log2 n)) n "") as (s & Hs & Hd & Hv).
  { split; [exact Hn |].
    destruct (Z.eq_dec n 0) as [-> | Hne]; [reflexivity |].
    pose proof (Z.log2_nonneg n) as Hl.
    destruct (Z.log2_spec n) as [_ Hup]; [lia |].
    rewrite Nat2Z.inj_succ, Z2Nat.id by lia.
    eapply Z.lt_le_trans; [exact Hup |].
    apply Z.pow_le_mono_l; lia. }
  rewrite Hs, append_empty. now split.
Qed.

Lemma twoDigits_value (d : Z) :
  0 <= d < 100 -> allDigits (twoDigits d) = true /\ numGo 0 (twoDigits d) = d.
Proof.
  intros Hd.
  assert (H1 : 0 <= d / 10 < 10).
  { split; [apply Z.div_pos; lia | apply Z.div_lt_upper_bound; lia]. }
  assert (H2 : 0 <= d mod 10 < 10) by (apply Z.mod_pos_bound; lia).
  unfold twoDigits. cbn [allDigits numGo].
  rewrite !digitChar_digit, !digitValue_digitChar by lia.
  split; [reflexivity |]. pose proof (Z.div_mod d 10). lia.
Qed.

Lemma isDigit_not_colon (c : ascii) : isDigit c = true -> Ascii.eqb c ":" = false.
Proof.
  intros H. destruct (Ascii.eqb_spec c ":") as [-> | _]; [discriminate H | reflexivity].
Qed.

Lemma clockGo_digits (s rest : string) : forall total0 cur,
  allDigits s = true ->
  clockGo total0 cur (s +:+ rest) = clockGo total0 (numGo cur s) rest.
Proof.
  induction s as [| c s IH]; intros total0 cur Hs; [reflexivity |].
  cbn [allDigits] in Hs. apply andb_true_iff in Hs as [Hc Hs].
  rewrite append_cons. cbn [clockGo numGo].
  rewrite (isDigit_not_colon c Hc). now apply IH.
Qed.

Lemma clockGo_colon (rest : string) (total0 cur : Z) :
  clockGo total0 cur (":" +:+ rest) = clockGo (60 * total0 + cur) 0 rest.
Proof. reflexivity. Qed.

Lemma formatDuration_fields (t : Z) :
  0 <= t ->
  formatDuration t
  = if 0 <? t / 3600
    then toString (t / 3600) +:+ ":" +:+ twoDigits (t mod 3600 / 60) +:+ ":"
           +:+ twoDigits (t mod 60)
    else toString (t mod 3600 / 60) +:+ ":" +:+ twoDigits (t mod 60).
Proof.
  intros Ht. unfold formatDuration.
  rewrite !Z.rem_mod_nonneg by lia.
  assert (0 <= t mod 3600 < 3600) by (apply Z.mod_pos_bound; lia).
  assert (0 <= t mod 60 < 60) by (apply Z.mod_pos_bound; lia).
  assert (0 <= t mod 3600 / 60 < 60).
  { split; [apply Z.div_pos; lia | apply Z.div_lt_upper_bound; lia]. }
  rewrite !padStart_twoDigits by lia. reflexivity.
Qed.

Lemma readClock_formatDuration (t : Z) :
  0 <= t -> readClock (formatDuration t) = t.
Proof.
  intros Ht. rewrite formatDuration_fields by exact Ht.
  assert (Hh : 0 <= t / 3600) by (apply Z.div_pos; lia).
  assert (Hr : 0 <= t mod 3600 < 3600) by (apply Z.mod_pos_bound; lia).
  assert (Hs : 0 <= t mod 60 < 60) by (apply Z.mod_pos_bound; lia).
  assert (Hm : 0 <= t mod 3600 / 60 < 60).
  { split; [apply Z.div_pos; lia | apply Z.div_lt_upper_bound; lia]. }
  destruct (toString_value (t / 3600) Hh) as [Hhd Hhv].
  destruct (toString_value (t mod 3600 / 60)) as [Hmd Hmv]; [lia |].
  destruct (twoDigits_value (t mod 3600 / 60)) as [Hmd2 Hmv2]; [lia |].
  destruct (twoDigits_value (t mod 60)) as [Hsd Hsv]; [lia |].
  assert (Hsplit : t = 3600 * (t / 3600) + 60 * (t mod 3600 / 60) + t mod 60).
  { Z.div_mod_to_equations. lia. }
  unfold readClock.
  destruct (Z.ltb_spec 0 (t / 3600)) as [Hpos | Hzero].
  - rewrite clockGo_digits, clockGo_colon by exact Hhd.
    rewrite clockGo_digits, clockGo_colon by exact Hmd2.
    rewrite <- (append_empty (twoDigits (t mod 60))).
    rewrite clockGo_digits by exact Hsd.
    cbn [clockGo]. rewrite Hhv, Hmv2, Hsv. lia.
  - rewrite clockGo_digits, clockGo_colon by exact Hmd.
    rewrite <- (append_empty (twoDigits (t mod 60))).
    rewrite clockGo_digits by exact Hsd.
    cbn [clockGo]. rewrite Hmv, Hsv. lia.
Qed.

(** X18.  The timer text determines the remaining time: for a number of
    seconds [t] from 0 to 2^53 (the range of exact integers), reading the
    fields of [formatDuration t] between the colons as decimal numerals, each
    counting sixty of the next, gives [t] back, so two different numbers of
    seconds in that range are never shown as the same text. *)
Theorem formatDuration_is_readable (t1 t2 : Z) :
  0 <= t1 <= maxExact -> 0 <= t2 <= maxExact ->
  readClock (formatDuration t1) = t1
  /\ (formatDuration t1 = formatDuration t2 -> t1 = t2).
Proof.
  intros [H1 _] [H2 _]. split; [now apply readClock_formatDuration |].
  intros Heq.
  rewrite <- (readClock_formatDuration t1 H1), <- (readClock_formatDuration t2 H2).
  now rewrite Heq.
Qed.

Lemma formatDuration_is_readable_witness :
  0 <= 3661 <= maxExact /\ 0 <= 59 <= maxExact
  /\ readClock (formatDuration 3661) = 3661.
Proof.
  assert (H1 : 0 <= 3661 <= maxExact) by (unfold maxExact; lia).
  assert (H2 : 0 <= 59 <= maxExact) by (unfold maxExact; lia).
  split; [exact H1 | split; [exact H2 |]].
  exact (proj1 (formatDuration_is_readable 3661 59 H1 H2)).
Defined.

(** ** The rendered row as the browser shows it (lines 165-175) *)

Lemma occurs_escapeHtml_CR (s : string) : occurs CR (escapeHtml s) = occurs CR s.
Proof.
  induction s as [| c s IH]; [reflexivity |].
  rewrite escapeHtml_cons, occurs_app, IH. cbn [occurs]. f_equal.
  unfold escapeChar. char_cases c; try reflexivity.
  cbn [occurs]. apply orb_false_r.
Qed.

Lemma withoutNUL_fixed (s : string) : occurs NUL s = false -> withoutNUL s = s.
Proof.
  induction s as [| c r IH]; intros H; [reflexivity |].
  cbn [occurs] in H. apply orb_false_iff in H as [Hc Hr].
  cbn [withoutNUL]. now rewrite Hc, (IH Hr).
Qed.

Lemma textGo_labelled (i : Z) (o rest : string) :
  occurs NUL o = false ->
  textGo 0 ((letterOf i +:+ ") " +:+ escapeHtml o) +:+ rest)
  = emit (letterOf i +:+ ") " +:+ o) (textGo 0 rest).
Proof.
  intros Hnul.
  assert (Hl : plainText (letterOf i +:+ ") ") = true)
    by now rewrite plainText_app, letterOf_plain.
  rewrite <- (append_assoc (letterOf i) ") " (escapeHtml o)).
  rewrite (append_assoc _ (escapeHtml o) rest).
  rewrite (textGo_plain _ _ Hl), textGo_escapeHtml.
  rewrite (withoutNUL_fixed o Hnul).
  rewrite <- (append_assoc (letterOf i) ") " o).
  destruct (textGo 0 rest) as [t |]; cbn [emit fmap option_fmap option_map];
    [| reflexivity].
  now rewrite (append_assoc (letterOf i +:+ ") ") o t).
Qed.

Lemma cell_text_from (opts : list string) : forall i,
  forallb readBack opts = true ->
  textGo 0
    (join "<br>" (mapi_from i (fun opt i => letterOf i +:+ ") " +:+ escapeHtml opt) opts))
  = Some (join "" (mapi_from i (fun opt i => letterOf i +:+ ") " +:+ opt) opts))
  /\ occurs CR
       (join "<br>"
          (mapi_from i (fun opt i => letterOf i +:+ ") " +:+ escapeHtml opt) opts))
     = false.
Proof.
  induction opts as [| o opts IH]; intros i H; [now split |].
  cbn [forallb] in H. apply andb_true_iff in H as [Ho Hopts].
  apply readBack_spec in Ho as [Hcr Hnul].
  assert (Hlcr : occurs CR (letterOf i +:+ ") " +:+ escapeHtml o) = false).
  { rewrite !occurs_app, occurs_escapeHtml_CR, Hcr.
    now rewrite (plainText_occurs CR _ eq_refl (letterOf_plain i)). }
  destruct (IH (i + 1) Hopts) as [Htext Hclean].
  destruct opts as [| o' opts'].
  - cbn [mapi_from join]. split; [| exact Hlcr].
    rewrite <- (append_empty (letterOf i +:+ ") " +:+ escapeHtml o)).
    rewrite (textGo_labelled i o "" Hnul).
    cbn [textGo emit fmap option_fmap option_map]. now rewrite append_empty.
  - set (f := fun opt i => letterOf i +:+ ") " +:+ escapeHtml opt) in *.
    set (g := fun opt i => letterOf i +:+ ") " +:+ opt) in *.
    change (join "<br>" (mapi_from i f (o :: o' :: opts')))
      with ((letterOf i +:+ ") " +:+ escapeHtml o) +:+ "<br>"
              +:+ join "<br>" (mapi_from (i + 1) f (o' :: opts'))).
    change (join "" (mapi_from i g (o :: o' :: opts')))
      with ((letterOf i +:+ ") " +:+ o)
              +:+ join "" (mapi_from (i + 1) g (o' :: opts'))).
    rewrite (textGo_labelled i o _ Hnul), textGo_break, Htext.
    split; [reflexivity |].
    now rewrite (occurs_app CR (_ +:+ _ +:+ escapeHtml o)), Hlcr, occurs_app, Hclean.
Qed.

(** X20.  A table row shows the fields of its question.  The text of the
    subject, question, answer and explanation cells is the field with its
    line breaks normalised and its NUL characters dropped, whatever other
    characters it holds: the field itself when it holds no carriage return
    and no NUL.  The difficulty cell shows "Medium" for a question without
    difficulty.  When no option holds a carriage return or a NUL the options
    cell reads as the options with their letters, run together with nothing
    between them; and when the options are plain text, Edit reads this same
    text back from the cell. *)
Theorem rendered_row_shows_fields (q : Row) :
  let tds := renderRow q in
  c_id tds = row_id q
  /\ textContent (c_subject tds) = Some (shownText (row_subject q))
  /\ textContent (c_question tds) = Some (shownText (row_question q))
  /\ textContent (c_answer tds) = Some (shownText (row_answer q))
  /\ textContent (c_difficulty tds)
     = Some (shownText
               (if truthy (row_difficulty q) then row_difficulty q else "Medium"))
  /\ textContent (c_explanation tds) = Some (shownText (row_explanation q))
  /\ (forall s, readBack s = true -> shownText s = s)
  /\ (forallb readBack (row_options q) = true ->
      textContent (c_options tds) = Some (labelled (row_options q)))
  /\ (forallb plainText (row_options q) = true ->
      innerHTML (c_options tds) ≫= textContent = Some (labelled (row_options q))).
Proof.
  unfold renderRow.
  cbn [c_id c_subject c_question c_options c_answer c_difficulty c_explanation].
  rewrite !textContent_escapeHtml.
  repeat (split; [reflexivity |]).
  split; [| split].
  - intros s Hs. apply readBack_spec in Hs as [Hcr Hnul].
    now apply shownText_fixed.
  - intros H. unfold textContent, optionsCell, labelled, mapi.
    destruct (cell_text_from (row_options q) 0 H) as [Htext Hcr].
    now rewrite (proj2 (normalize_fixed _) Hcr).
  - intros H. destruct (optionsCell_read _ H) as (-> & Htext & _).
    exact Htext.
Qed.
